(** * LearnLocal: deadline resolution and opportunity ranking

    A shallow embedding of the deadline resolver and of the list
    filter / sort pipeline of the student Home screen, and the properties
    of the specification checked against it.

    The repository carries two variants of the screen.  The one bundled in
    [services/authDebugService.js] resolves dates through
    [parseFlexibleDate] (native dates, timestamp wrappers, epoch numbers,
    engine parsing, a month-name table and an ISO prefix) and looks up the
    partition of a record from its category; the one in
    [app/studentPages/(tabs)/Home.tsx] relies on the engine's parser only.
    The specification follows the most complete variant, so that is the one
    embedded in the main development.  Filter, sort, display and batch
    enrichment are the same in both.  The resolver of [Home.tsx] is
    embedded next to the main one, in module [HomeTsx], and compared with
    it at the end. *)

From Stdlib Require Import ZArith Lia Ascii String Permutation.
From stdpp Require Import base option list gmap strings sorting.

Local Open Scope string_scope.
Local Open Scope list_scope.
Local Open Scope Z_scope.

(** * Evaluation outcomes

    A JavaScript expression either returns a value or throws.  A rejected
    promise is the asynchronous form of [Throws]. *)

Inductive outcome (A : Type) : Type :=
| Returns (a : A)
| Throws.
Arguments Returns {A} a.
Arguments Throws {A}.

#[global] Instance outcome_ret : MRet outcome := fun _ a => Returns a.
#[global] Instance outcome_bind : MBind outcome := fun _ _ k c =>
  match c with
  | Returns a => k a
  | Throws => Throws
  end.

(** [try c catch h] *)
Definition try_catch {A} (c : outcome A) (h : outcome A) : outcome A :=
  match c with
  | Returns a => Returns a
  | Throws => h
  end.

(** * The part of ECMAScript the code relies on *)

Module ES.

(** Numbers: the finite numbers the code computes with are time values,
    which are integers; besides them there are [NaN], the time of an
    invalid [Date], and the two infinities.  A finite number that is not
    an integer can only come in as the value of a field of a record: it
    is the case [VFraction] of [Value] below. *)
Inductive Num : Type :=
| NaN
| Fin (z : Z)
| PosInf
| NegInf.

Definition isNaN (n : Num) : bool :=
  match n with
  | NaN => true
  | _ => false
  end.

Definition neg (a : Num) : Num :=
  match a with
  | NaN => NaN
  | Fin x => Fin (- x)
  | PosInf => NegInf
  | NegInf => PosInf
  end.

Definition add (a b : Num) : Num :=
  match a, b with
  | NaN, _ | _, NaN => NaN
  | Fin x, Fin y => Fin (x + y)
  | PosInf, NegInf | NegInf, PosInf => NaN
  | PosInf, _ | _, PosInf => PosInf
  | NegInf, _ | _, NegInf => NegInf
  end.

Definition sub (a b : Num) : Num := add a (neg b).

(** A [Date] object is its time value: milliseconds since the epoch, or
    none for "Invalid Date", whose [getTime()] is [NaN]. *)
Record JsDate : Type := Date { timeValue : option Z }.

Definition getTime (d : JsDate) : Num :=
  match timeValue d with
  | Some t => Fin t
  | None => NaN
  end.

Definition msPerDay : Z := 86400000.
Definition maxTime : Z := 8640000000000000.

Definition TimeClip (n : Num) : option Z :=
  match n with
  | Fin t => if Z.abs t <=? maxTime then Some t else None
  | _ => None
  end.

(** Day arithmetic of the Date abstract operations. *)
Definition DayFromYear (y : Z) : Z :=
  365 * (y - 1970) + (y - 1969) / 4 - (y - 1901) / 100 + (y - 1601) / 400.

Definition InLeapYear (y : Z) : bool :=
  (y mod 4 =? 0) && (negb (y mod 100 =? 0) || (y mod 400 =? 0)).

(** Day within the year on which month [m] (0 = January) starts. *)
Definition monthStart (m : Z) (leap : bool) : Z :=
  let l := if leap then 1 else 0 in
  match m with
  | 0 => 0
  | 1 => 31
  | 2 => 59 + l
  | 3 => 90 + l
  | 4 => 120 + l
  | 5 => 151 + l
  | 6 => 181 + l
  | 7 => 212 + l
  | 8 => 243 + l
  | 9 => 273 + l
  | 10 => 304 + l
  | _ => 334 + l
  end.

Definition DaysInMonth (m : Z) (leap : bool) : Z :=
  match m with
  | 1 => if leap then 29 else 28
  | 3 | 5 | 8 | 10 => 30
  | _ => 31
  end.

(** [MakeDay(year, month, date)]: month and date overflow carry over. *)
Definition MakeDay (year month date : Z) : Z :=
  let ym := year + month / 12 in
  let mn := month mod 12 in
  DayFromYear ym + monthStart mn (InLeapYear ym) + date - 1.

Definition MakeDate (day time : Z) : Z := day * msPerDay + time.

(** Characters and strings (ASCII). *)
Definition code (c : ascii) : Z := Z.of_nat (nat_of_ascii c).

Definition is_digit (c : ascii) : bool := (48 <=? code c) && (code c <=? 57).

Definition is_upper (c : ascii) : bool := (65 <=? code c) && (code c <=? 90).

Definition is_lower (c : ascii) : bool := (97 <=? code c) && (code c <=? 122).

(** [\w] *)
Definition is_word (c : ascii) : bool :=
  is_digit c || is_upper c || is_lower c || (code c =? 95).

(** [\s], on ASCII input: tab, line feed, vertical tab, form feed,
    carriage return, space. *)
Definition is_space (c : ascii) : bool :=
  ((9 <=? code c) && (code c <=? 13)) || (code c =? 32).

Definition lower_char (c : ascii) : ascii :=
  if is_upper c then ascii_of_nat (nat_of_ascii c + 32) else c.

Fixpoint toLowerCase (s : string) : string :=
  match s with
  | EmptyString => EmptyString
  | String c s' => String (lower_char c) (toLowerCase s')
  end.

(** Longest prefix of characters in a class, and the rest. *)
Fixpoint span (p : ascii -> bool) (s : string) : string * string :=
  match s with
  | EmptyString => (EmptyString, EmptyString)
  | String c s' =>
      if p c then let '(a, b) := span p s' in (String c a, b)
      else (EmptyString, s)
  end.

Fixpoint digits_value (acc : Z) (s : string) : Z :=
  match s with
  | EmptyString => acc
  | String c s' => digits_value (10 * acc + (code c - 48)) s'
  end.

(** [parseInt] on a non-empty string of decimal digits. *)
Definition parseInt (s : string) : Z := digits_value 0 s.

(** [s.replace(/,/g, "")] *)
Fixpoint remove_commas (s : string) : string :=
  match s with
  | EmptyString => EmptyString
  | String c s' =>
      if (code c =? 44) then remove_commas s' else String c (remove_commas s')
  end.

Fixpoint trim_end (s : string) : string :=
  match s with
  | EmptyString => EmptyString
  | String c s' =>
      match trim_end s' with
      | EmptyString => if is_space c then EmptyString else String c EmptyString
      | r => String c r
      end
  end.

(** [s.trim()] *)
Definition trim (s : string) : string := trim_end (span is_space s).2.

(** [s.split(" ")] *)
Fixpoint split_space (s : string) : list string :=
  match s with
  | EmptyString => [EmptyString]
  | String c s' =>
      if (code c =? 32) then EmptyString :: split_space s'
      else
        match split_space s' with
        | p :: ps => String c p :: ps
        | [] => [String c EmptyString]
        end
  end.

(** [s.slice(0, 3)] *)
Definition slice_0_3 (s : string) : string :=
  match s with
  | String a (String b (String c _)) => String a (String b (String c EmptyString))
  | _ => s
  end.

(** The date-only form [YYYY-MM-DD] of the Date Time String Format.
    It denotes midnight UTC of that day.  A string with an element out
    of bounds is not an instance of the format. *)
Definition parse_iso_date_only (s : string) : option Z :=
  match s with
  | String y1 (String y2 (String y3 (String y4 (String "-"
    (String m1 (String m2 (String "-"
    (String d1 (String d2 EmptyString))))))))) =>
      if forallb is_digit [y1; y2; y3; y4; m1; m2; d1; d2] then
        let y := parseInt (String y1 (String y2 (String y3 (String y4 EmptyString)))) in
        let m := parseInt (String m1 (String m2 EmptyString)) in
        let d := parseInt (String d1 (String d2 EmptyString)) in
        if (1 <=? m) && (m <=? 12) && (1 <=? d)
           && (d <=? DaysInMonth (m - 1) (InLeapYear y))
        then Some (MakeDate (MakeDay y (m - 1) d) 0)
        else None
      else None
  | _ => None
  end.

End ES.

Import ES.

(** * [Array.prototype.sort] with a comparator

    The sort is stable.  A comparator result of [NaN] counts as [+0].  For
    a comparator that is a consistent ordering the result of a stable sort
    is unique, and this insertion sort computes it.  A comparator that
    throws aborts the sort; on two or more elements every element takes
    part in at least one comparison, whatever the algorithm. *)

Section ArraySort.
Context {A : Type}.
Variable compareFn : A -> A -> outcome Num.

Definition not_after (v : Num) : bool :=
  match v with
  | NaN => true
  | Fin z => z <=? 0
  | PosInf => false
  | NegInf => true
  end.

Fixpoint insert_sorted (x : A) (ys : list A) : outcome (list A) :=
  match ys with
  | [] => Returns [x]
  | y :: ys' =>
      v ← compareFn x y;
      if not_after v then Returns (x :: y :: ys')
      else r ← insert_sorted x ys'; Returns (y :: r)
  end.

Fixpoint Array_sort (xs : list A) : outcome (list A) :=
  match xs with
  | [] => Returns []
  | x :: xs' => s ← Array_sort xs'; insert_sorted x s
  end.

(** The comparator is the difference of an integer key on [xs]. *)
Definition keyed (key : A -> Z) (xs : list A) : Prop :=
  forall x y, x ∈ xs -> y ∈ xs -> compareFn x y = Returns (Fin (key x - key y)).

(** The first element has the least key. *)
Definition least_first (key : A -> Z) (ys : list A) : Prop :=
  match ys with
  | [] => True
  | y :: ys' => forall z, z ∈ ys' -> key y <= key z
  end.

(** The comparator returns on [xs], and its sign follows the order [le]. *)
Definition decides (le : A -> A -> Prop) (xs : list A) : Prop :=
  forall x y, x ∈ xs -> y ∈ xs ->
    exists v, compareFn x y = Returns v
              /\ (not_after v = true -> le x y)
              /\ (not_after v = false -> le y x).

(** The first element is below the others. *)
Definition first_is_least (le : A -> A -> Prop) (ys : list A) : Prop :=
  match ys with
  | [] => True
  | y :: ys' => forall z, z ∈ ys' -> le y z
  end.
End ArraySort.

(** * Data model *)

(** The values a date-carrying field of a record can hold. *)
Inductive Value : Type :=
| VUndefined
| VNull
| VBool (b : bool)
| VNumber (n : Num)
    (** a Number that is an integer, [NaN] or infinite *)
| VFraction (truncated : Z)
    (** a finite Number that is not an integer, given by its integral
        part (the number truncated toward zero): 1.5 and 1.25 are
        [VFraction 1], 0.5 and -0.5 are [VFraction 0] *)
| VString (s : string)
| VDate (d : JsDate)
    (** a native [Date], valid or not *)
| VTimestamp (toDate : outcome Z)
    (** an object with a [toDate] member, such as a backend timestamp:
        calling it returns a valid [Date] at the given instant, or throws
        (an exception of its own, or the member is not callable) *)
| VObject.
    (** any other object *)

Definition truthy (v : Value) : bool :=
  match v with
  | VUndefined | VNull => false
  | VBool b => b
  | VNumber NaN => false
  | VNumber (Fin z) => negb (z =? 0)
  | VNumber _ => true
  | VString s => negb (String.eqb s "")
  | VFraction _ => true
  | VDate _ | VTimestamp _ | VObject => true
  end.

(** A string field read through [||]: absent, [null] and the empty string
    are all falsy. *)
Definition str_truthy (o : option string) : bool :=
  match o with
  | Some s => negb (String.eqb s "")
  | None => false
  end.

Record Milestone : Type := { name : string; date : Value }.

Record OrgRef : Type := { verificationStatus : option string }.

Record Opportunity : Type := {
  id : option string;
  title : string;
  category : option string;
  specificCollection : option string;
  type : option string;
  dateMilestones : option (list Milestone);
    (** [None]: absent, or not an array *)
  deadline : Value;
  createdAt : Value;
  organizationProfile : option OrgRef;
  organizationVerificationStatus : option string;
  organization : option OrgRef
}.

(** * The resolver *)

(** The host the code runs on. *)
Class Host : Type := {
  legacy_parse : string -> option Z;
    (** what [Date.parse] makes of a string that is not in the date-only
        form [YYYY-MM-DD]: the ECMAScript standard leaves it to the engine *)
  LocalTZA : Z
    (** offset of local time from UTC, in milliseconds, taken constant *)
}.

Section Resolver.
Context {host : Host}.

Definition UTC (t : Z) : Z := t - LocalTZA.
Definition LocalTime (t : Z) : Z := t + LocalTZA.

Definition Date_parse (s : string) : Num :=
  match parse_iso_date_only s with
  | Some t => Fin t
  | None =>
      match legacy_parse s with
      | Some t => Fin t
      | None => NaN
      end
  end.

(** [new Date(string)] *)
Definition new_Date_string (s : string) : JsDate := Date (TimeClip (Date_parse s)).

(** [new Date(number)] *)
Definition new_Date_number (n : Num) : JsDate := Date (TimeClip n).

(** [new Date(number)] for a number that is not an integer.  [TimeClip]
    gives [NaN] when the number is beyond the range in absolute value,
    which is when its integral part is at the bound or beyond it, and the
    number truncated toward zero otherwise. *)
Definition new_Date_fraction (truncated : Z) : JsDate :=
  Date (if Z.abs truncated <? maxTime then Some truncated else None).

(** [new Date(year, month, day)]: local midnight; years 0 to 99 stand
    for 1900 to 1999. *)
Definition new_Date_ymd (year month day : Z) : JsDate :=
  let yr := if (0 <=? year) && (year <=? 99) then 1900 + year else year in
  Date (TimeClip (Fin (UTC (MakeDate (MakeDay yr month day) 0)))).

(** [new Date(value)].  No call site reaches the timestamp case: each
    tries [toDate] first. *)
Definition new_Date (v : Value) : JsDate :=
  match v with
  | VUndefined => Date None
  | VNull => Date (Some 0)
  | VBool b => Date (Some (if b then 1 else 0))
  | VNumber n => new_Date_number n
  | VFraction truncated => new_Date_fraction truncated
  | VString s => new_Date_string s
  | VDate d => Date (timeValue d)
  | VTimestamp _ => Date None
  | VObject => new_Date_string "[object Object]"
  end.

Definition valid (d : JsDate) : bool := negb (isNaN (getTime d)).

Definition monthNames (key : string) : option Z :=
  if String.eqb key "jan" || String.eqb key "january" then Some 0
  else if String.eqb key "feb" || String.eqb key "february" then Some 1
  else if String.eqb key "mar" || String.eqb key "march" then Some 2
  else if String.eqb key "apr" || String.eqb key "april" then Some 3
  else if String.eqb key "may" then Some 4
  else if String.eqb key "jun" || String.eqb key "june" then Some 5
  else if String.eqb key "jul" || String.eqb key "july" then Some 6
  else if String.eqb key "aug" || String.eqb key "august" then Some 7
  else if String.eqb key "sep" || String.eqb key "september" then Some 8
  else if String.eqb key "oct" || String.eqb key "october" then Some 9
  else if String.eqb key "nov" || String.eqb key "november" then Some 10
  else if String.eqb key "dec" || String.eqb key "december" then Some 11
  else None.

Definition nonempty (s : string) : bool := negb (String.eqb s "").

(** [/^(\w+)\s+(\d{1,2}),?\s+(\d{4})$/i]: the groups, when it matches.
    The classes of adjacent pieces are disjoint where a piece can vary in
    length, so the greedy match is the only one. *)
Definition match_month_day_year (s : string) : option (string * string * string) :=
  let '(monthStr, r1) := span is_word s in
  let '(sp1, r2) := span is_space r1 in
  let '(day, r3) := span is_digit r2 in
  let r4 := match r3 with String "," r => r | _ => r3 end in
  let '(sp2, r5) := span is_space r4 in
  let '(year, r6) := span is_digit r5 in
  if nonempty monthStr && nonempty sp1
     && ((String.length day =? 1)%nat || (String.length day =? 2)%nat)
     && nonempty sp2 && (String.length year =? 4)%nat && String.eqb r6 ""
  then Some (monthStr, day, year)
  else None.

(** [/^(\d{4})-(\d{2})-(\d{2})/]: a prefix match. *)
Definition match_iso_prefix (s : string) : option (string * string * string) :=
  match s with
  | String y1 (String y2 (String y3 (String y4 (String "-"
    (String m1 (String m2 (String "-"
    (String d1 (String d2 _))))))))) =>
      if forallb is_digit [y1; y2; y3; y4; m1; m2; d1; d2] then
        Some (String y1 (String y2 (String y3 (String y4 EmptyString))),
              String m1 (String m2 EmptyString),
              String d1 (String d2 EmptyString))
      else None
  | _ => None
  end.

(** The "Month DD, YYYY" strategy of [parseFlexibleDate].  A key that
    [monthNames] inherits from [Object.prototype] ("constructor") gives a
    month that is not a number, hence an invalid date: the same outcome
    as a key that is not in the table. *)
Definition parse_month_name_form (dateValue : string) : option JsDate :=
  match match_month_day_year dateValue with
  | Some (monthStr, day, year) =>
      match monthNames (toLowerCase monthStr) with
      | Some month =>
          let date := new_Date_ymd (parseInt year) month (parseInt day) in
          if valid date then Some date else None
      | None => None
      end
  | None => None
  end.

(** The "YYYY-MM-DD" strategy of [parseFlexibleDate]. *)
Definition parse_iso_form (dateValue : string) : option JsDate :=
  match match_iso_prefix dateValue with
  | Some (year, month, day) =>
      let date := new_Date_ymd (parseInt year) (parseInt month - 1) (parseInt day) in
      if valid date then Some date else None
  | None => None
  end.

Definition parseFlexibleDate (dateValue : Value) : option JsDate :=
  if negb (truthy dateValue) then None
  else
    match dateValue with
    | VDate d => if isNaN (getTime d) then None else Some d
    | VTimestamp toDate =>
        match toDate with
        | Returns t => Some (Date (Some t))
        | Throws => None
        end
    | VNumber n =>
        let date := new_Date_number n in
        if isNaN (getTime date) then None else Some date
    | VFraction truncated =>
        let date := new_Date_fraction truncated in
        if isNaN (getTime date) then None else Some date
    | VString s =>
        let date := new_Date_string s in
        if valid date then Some date
        else
          match parse_month_name_form s with
          | Some d => Some d
          | None => parse_iso_form s
          end
    | _ => None
    end.

(** ** [getEarliestDeadline] *)

Definition thirty_days : Z := 30 * 24 * 60 * 60 * 1000.

(** The entries [{ milestone, parsedDate }]. *)
Definition parsedDate (e : Milestone * option JsDate) : option JsDate := e.2.

(** [a.parsedDate!.getTime() - b.parsedDate!.getTime()]; reading the
    time of [null] is a [TypeError]. *)
Definition by_parsedDate (a b : Milestone * option JsDate) : outcome Num :=
  match parsedDate a, parsedDate b with
  | Some da, Some db => Returns (sub (getTime da) (getTime db))
  | _, _ => Throws
  end.

(** The instant of an entry whose date is valid. *)
Definition entry_time (e : Milestone * option JsDate) : Z :=
  match parsedDate e with
  | Some (Date (Some t)) => t
  | _ => 0
  end.

Definition validMilestones (ms : list Milestone) : list (Milestone * option JsDate) :=
  List.filter (fun e => bool_decide (parsedDate e ≠ None))
    (map (fun milestone => (milestone, parseFlexibleDate (date milestone))) ms).

(** First stage: the earliest milestone, when there is one that parses. *)
Definition earliestMilestone (opportunity : Opportunity) : outcome (option JsDate) :=
  match dateMilestones opportunity with
  | Some ((_ :: _) as ms) =>
      if (0 <? length (validMilestones ms))%nat then
        sorted ← Array_sort by_parsedDate (validMilestones ms);
        match sorted with
        | (_, Some d) :: _ => Returns (Some d)
        | _ => Throws
        end
      else Returns None
  | _ => Returns None
  end.

(** Second stage: the single [deadline] field. *)
Definition singleDeadline (opportunity : Opportunity) : option JsDate :=
  if truthy (deadline opportunity) then parseFlexibleDate (deadline opportunity)
  else None.

(** [v?.toDate?.() || new Date(v)]: a [Date] object is truthy, so the
    right operand is evaluated exactly when there is no [toDate]. *)
Definition toDate_or_new_Date (v : Value) : outcome JsDate :=
  match v with
  | VTimestamp toDate => t ← toDate; Returns (Date (Some t))
  | _ => Returns (new_Date v)
  end.

(** Third stage: [createdAt] plus thirty days. *)
Definition fallbackDate (opportunity : Opportunity) : outcome JsDate :=
  fallback ← toDate_or_new_Date (createdAt opportunity);
  Returns (new_Date_number (add (getTime fallback) (Fin thirty_days))).

Definition getEarliestDeadline (opportunity : Opportunity) : outcome JsDate :=
  earliest ← earliestMilestone opportunity;
  match earliest with
  | Some d => Returns d
  | None =>
      match singleDeadline opportunity with
      | Some d => Returns d
      | None => fallbackDate opportunity
      end
  end.

(** The synchronous resolver returns on the record. *)
Definition resolves (op : Opportunity) : Prop :=
  exists d, getEarliestDeadline op = Returns d.

(** ** [getEarliestDeadlineFromFullData] *)

(** What the lookup in [categoryMap] can give: a partition name, or a
    member that the object literal inherits from [Object.prototype]. *)
Inductive Collection : Type :=
| Named (s : string)
| Inherited (key : string).

Definition object_prototype_keys : list string :=
  ["constructor"; "__defineGetter__"; "__defineSetter__"; "hasOwnProperty";
   "__lookupGetter__"; "__lookupSetter__"; "isPrototypeOf";
   "propertyIsEnumerable"; "toString"; "valueOf"; "__proto__";
   "toLocaleString"].

(** [categoryMap[category] || "opportunities"]; an absent category is
    looked up as the key "undefined". *)
Definition getCollectionNameForCategory (category : option string) : Collection :=
  match category with
  | Some c =>
      if String.eqb c "Scholarship / Grant" then Named "scholarships"
      else if String.eqb c "Competition / Event" then Named "competitions"
      else if String.eqb c "Workshop / Seminar" then Named "workshops"
      else if String.eqb c "Resources" then Named "resources"
      else if String.eqb c "Study Spot" then Named "studySpots"
      else if existsb (String.eqb c) object_prototype_keys then Inherited c
      else Named "opportunities"
  | None => Named "opportunities"
  end.

Definition is_generic (c : Collection) : bool :=
  match c with
  | Named s => String.eqb s "opportunities"
  | Inherited _ => false
  end.

(** The backend.  [getOpportunityDetails] returns the full record or
    [null], or it throws. *)
Inductive Fetched : Type :=
| FetchFull (fullData : Opportunity)
| FetchNull
| FetchThrows.

Record FetchCall : Type := { fetch_id : string; fetch_collection : Collection }.

(** The outcome of the n-th request, whatever it asks for. *)
Definition Backend : Type := nat -> FetchCall -> Fetched.

(** Asynchronous code: it issues requests, recorded in order. *)
Definition Async (A : Type) : Type := list FetchCall -> outcome A * list FetchCall.

Definition getOpportunityDetails (backend : Backend)
    (opportunityId : string) (collection : Collection) : Async (option Opportunity) :=
  fun log =>
    let call := {| fetch_id := opportunityId; fetch_collection := collection |} in
    (match backend (length log) call with
     | FetchFull fullData => Returns (Some fullData)
     | FetchNull => Returns None
     | FetchThrows => Throws
     end, log ++ [call]).

Definition has_milestones (opportunity : Opportunity) : bool :=
  match dateMilestones opportunity with
  | Some (_ :: _) => true
  | _ => false
  end.

Definition getEarliestDeadlineFromFullData (backend : Backend)
    (opportunity : Opportunity) : Async JsDate :=
  fun log =>
    let body : outcome JsDate * list FetchCall :=
      let category :=
        if str_truthy (category opportunity) then category opportunity
        else specificCollection opportunity in
      let targetCollection := getCollectionNameForCategory category in
      if has_milestones opportunity then (getEarliestDeadline opportunity, log)
      else
        match id opportunity with
        | Some i =>
            if nonempty i && negb (is_generic targetCollection) then
              let '(fetched, log') := getOpportunityDetails backend i targetCollection log in
              (fullData ← fetched;
               match fullData with
               | Some full =>
                   match dateMilestones full with
                   | Some _ => getEarliestDeadline full
                   | None => getEarliestDeadline opportunity
                   end
               | None => getEarliestDeadline opportunity
               end, log')
            else (getEarliestDeadline opportunity, log)
        | None => (getEarliestDeadline opportunity, log)
        end in
    (try_catch body.1 (getEarliestDeadline opportunity), body.2).

(** The request that a record without milestones gives rise to. *)
Definition request_of (r : Opportunity) : option FetchCall :=
  let category := if str_truthy (category r) then category r else specificCollection r in
  let targetCollection := getCollectionNameForCategory category in
  match id r with
  | Some i =>
      if nonempty i && negb (is_generic targetCollection)
      then Some {| fetch_id := i; fetch_collection := targetCollection |}
      else None
  | None => None
  end.

(** ** [fetchOpportunityDeadlines] *)

Definition batchSize : nat := 5.

(** [opps.slice(i, j)] *)
Definition slice {A} (l : list A) (i j : nat) : list A := take (j - i) (drop i l).

(** The callback of [batch.map]. *)
Definition deadline_entry (backend : Backend) (op : Opportunity)
    : Async (option string * JsDate) :=
  fun log =>
    let '(fetched, log') := getEarliestDeadlineFromFullData backend op log in
    (try_catch (deadline ← fetched; Returns (id op, deadline))
               (fallbackDeadline ← getEarliestDeadline op;
                Returns (id op, fallbackDeadline)),
     log').

(** [Promise.all(batch.map(f))]: every callback runs up to its request
    in the order of the batch; the whole rejects when one of them does. *)
Fixpoint Promise_all_map {A B} (f : A -> Async B) (batch : list A) : Async (list B) :=
  fun log =>
    match batch with
    | [] => (Returns [], log)
    | x :: batch' =>
        let '(r, log') := f x log in
        let '(rs, log'') := Promise_all_map f batch' log' in
        (v ← r; vs ← rs; Returns (v :: vs), log'')
    end.

Record Enrichment : Type := {
  deadlineMap : outcome (gmap (option string) JsDate);
    (** the cache handed to [setOpportunityDeadlines], unless rejected *)
  requests : list FetchCall;
  batches : list (list Opportunity)
    (** the batches, in the order they were processed *)
}.

(** The [for] loop, from index [i] on.  [None]: out of fuel. *)
Fixpoint fetch_loop (fuel : nat) (backend : Backend) (opps : list Opportunity)
    (i : nat) (cache : gmap (option string) JsDate)
    (log : list FetchCall) (done : list (list Opportunity)) : option Enrichment :=
  match fuel with
  | O => None
  | S fuel' =>
      if (i <? length opps)%nat then
        let batch := slice opps i (i + batchSize) in
        let '(results, log') := Promise_all_map (deadline_entry backend) batch log in
        match results with
        | Returns rs =>
            fetch_loop fuel' backend opps (i + batchSize)
              (foldl (fun m r => <[r.1 := r.2]> m) cache rs)
              log' (done ++ [batch])
        | Throws =>
            Some {| deadlineMap := Throws; requests := log'; batches := done ++ [batch] |}
        end
      else Some {| deadlineMap := Returns cache; requests := log; batches := done |}
  end.

Definition fetchOpportunityDeadlines (backend : Backend) (opps : list Opportunity)
    : option Enrichment :=
  fetch_loop (S (length opps)) backend opps 0 ∅ [] [].

(** ** Filter, sort, display *)

Definition isOpportunityOrganizationVerified (op : Opportunity) : bool :=
  let status :=
    match organizationProfile op ≫= verificationStatus with
    | Some s => Some s
    | None =>
        match organizationVerificationStatus op with
        | Some s => Some s
        | None => organization op ≫= verificationStatus
        end
    end in
  bool_decide (status = Some "verified").

(** [(op.specificCollection || op.category || "").toLowerCase()] *)
Definition effectiveCollection (op : Opportunity) : string :=
  toLowerCase
    (if str_truthy (specificCollection op) then default "" (specificCollection op)
     else if str_truthy (category op) then default "" (category op)
     else "").

Definition isNotResource (op : Opportunity) : bool :=
  negb (String.eqb (effectiveCollection op) "resources")
  && negb (String.eqb (effectiveCollection op) "resource")
  && negb (bool_decide (type op = Some "resources"))
  && negb (bool_decide (type op = Some "resource")).

Definition matchesCategory (selectedCategory : string) (op : Opportunity) : bool :=
  String.eqb selectedCategory "all"
  || bool_decide (specificCollection op = Some selectedCategory)
  || String.eqb (effectiveCollection op) (toLowerCase selectedCategory).

(** The callback of [opps.filter]. *)
Definition keeps (selectedCategory : string) (op : Opportunity) : bool :=
  let isVerified := isOpportunityOrganizationVerified op in
  isNotResource op && matchesCategory selectedCategory op && isVerified.

(** On the contents of the arrays. *)
Definition filterOpportunities (selectedCategory : string) (opps : list Opportunity)
    : list Opportunity :=
  List.filter (keeps selectedCategory) opps.

Definition by_createdAt (descending : bool) (a b : Opportunity) : outcome Num :=
  dateA ← toDate_or_new_Date (createdAt a);
  dateB ← toDate_or_new_Date (createdAt b);
  Returns (if descending then sub (getTime dateB) (getTime dateA)
           else sub (getTime dateA) (getTime dateB)).

Definition by_deadline (descending : bool) (a b : Opportunity) : outcome Num :=
  deadlineA ← getEarliestDeadline a;
  deadlineB ← getEarliestDeadline b;
  Returns (if descending then sub (getTime deadlineB) (getTime deadlineA)
           else sub (getTime deadlineA) (getTime deadlineB)).

(** The comparator chosen by the [switch]; [None] is the [default] case. *)
Definition comparator (sortBy : string)
    : option (Opportunity -> Opportunity -> outcome Num) :=
  if String.eqb sortBy "newest" then Some (by_createdAt true)
  else if String.eqb sortBy "oldest" then Some (by_createdAt false)
  else if String.eqb sortBy "deadline-soon" then Some (by_deadline false)
  else if String.eqb sortBy "deadline-far" then Some (by_deadline true)
  else None.

(** On the contents of the arrays: the sorted contents of the copy. *)
Definition sortOpportunities (sortBy : string) (opps : list Opportunity)
    : outcome (list Opportunity) :=
  let sorted := opps in
  match comparator sortBy with
  | Some compareFn => Array_sort compareFn sorted
  | None => Returns sorted
  end.

Definition getDisplayedOpportunities (selectedCategory sortBy : string)
    (opportunities bookmarkedOpportunities : list Opportunity)
    : outcome (list Opportunity) :=
  if String.eqb selectedCategory "saved" then
    sortOpportunities sortBy bookmarkedOpportunities
  else
    let filtered := filterOpportunities selectedCategory opportunities in
    sortOpportunities sortBy filtered.


(** ** Calendar days *)

(** The instant of [d] falls on day [day] of month [month] (0 = January)
    of [year], local time. *)
Definition on_local_day (year month day : Z) (d : JsDate) : bool :=
  match getTime d with
  | Fin t =>
      (MakeDate (MakeDay year month day) 0 <=? LocalTime t)
      && (LocalTime t <? MakeDate (MakeDay year month day + 1) 0)
  | _ => false
  end.

(** ** Arrays as objects

    [filterOpportunities] and [sortOpportunities] receive and return
    references to arrays; the store maps a reference to the contents of
    its array. *)

Definition alloc (contents : list Opportunity) (σ : gmap positive (list Opportunity))
    : positive * gmap positive (list Opportunity) :=
  let l := fresh (dom σ) in (l, <[l := contents]> σ).

(** [arr.filter(f)]: the elements kept, in a new array. *)
Definition Array_filter (f : Opportunity -> bool) (arr : positive)
    (σ : gmap positive (list Opportunity))
    : outcome positive * gmap positive (list Opportunity) :=
  match σ !! arr with
  | Some xs => let '(l, σ') := alloc (List.filter f xs) σ in (Returns l, σ')
  | None => (Throws, σ)
  end.

(** [[...arr]]: a new array with the same elements. *)
Definition spread (arr : positive) (σ : gmap positive (list Opportunity))
    : outcome positive * gmap positive (list Opportunity) :=
  match σ !! arr with
  | Some xs => let '(l, σ') := alloc xs σ in (Returns l, σ')
  | None => (Throws, σ)
  end.

(** [arr.sort(compareFn)]: sorts [arr] itself and returns it.  The
    elements are written back when the sort is complete. *)
Definition Array_sort_in_place (compareFn : Opportunity -> Opportunity -> outcome Num)
    (arr : positive) (σ : gmap positive (list Opportunity))
    : outcome positive * gmap positive (list Opportunity) :=
  match σ !! arr with
  | Some xs =>
      match Array_sort compareFn xs with
      | Returns ys => (Returns arr, <[arr := ys]> σ)
      | Throws => (Throws, σ)
      end
  | None => (Throws, σ)
  end.

Definition filterOpportunities_ref (selectedCategory : string) (opps : positive)
    (σ : gmap positive (list Opportunity))
    : outcome positive * gmap positive (list Opportunity) :=
  Array_filter (keeps selectedCategory) opps σ.

Definition sortOpportunities_ref (sortBy : string) (opps : positive)
    (σ : gmap positive (list Opportunity))
    : outcome positive * gmap positive (list Opportunity) :=
  let '(copy, σ1) := spread opps σ in
  match copy with
  | Returns sorted =>
      match comparator sortBy with
      | Some compareFn => Array_sort_in_place compareFn sorted σ1
      | None => (Returns sorted, σ1)
      end
  | Throws => (Throws, σ1)
  end.

End Resolver.

(** * The resolver of [Home.tsx]

    The screen in [app/studentPages/(tabs)/Home.tsx] has an older resolver:
    it parses a milestone date with the engine's parser alone, calls
    [toDate()] unguarded, and sorts the milestones themselves.  Its third
    stage is the one above. *)

Module HomeTsx.
Section Resolver.
Context {host : Host}.

Definition parseMilestoneDate (dateValue : Value) : outcome (option JsDate) :=
  match dateValue with
  | VTimestamp toDate => t ← toDate; Returns (Some (Date (Some t)))
  | VString s =>
      let parsed := new_Date_string s in
      if valid parsed then Returns (Some parsed)
      else
        let cleaned := trim (remove_commas s) in
        let parsed := new_Date_string cleaned in
        if valid parsed then Returns (Some parsed)
        else
          match split_space cleaned with
          | [p0; p1; p2] =>
              let shortMonth := slice_0_3 p0 in
              let parsed :=
                new_Date_string
                  (String.append shortMonth
                     (String.append " " (String.append p1 (String.append " " p2)))) in
              if valid parsed then Returns (Some parsed) else Returns None
          | _ => Returns None
          end
  | VDate d => Returns (Some d)
  | _ => Returns None
  end.

(** [date?.getTime() ?? Infinity] *)
Definition time_or_Infinity (d : option JsDate) : Num :=
  match d with
  | Some d => getTime d
  | None => PosInf
  end.

Definition by_date (a b : Milestone) : outcome Num :=
  dateA ← parseMilestoneDate (date a);
  dateB ← parseMilestoneDate (date b);
  Returns (sub (time_or_Infinity dateA) (time_or_Infinity dateB)).

Definition earliestMilestone (opportunity : Opportunity) : outcome (option JsDate) :=
  match dateMilestones opportunity with
  | Some ((_ :: _) as ms) =>
      sortedMilestones ← Array_sort by_date ms;
      match sortedMilestones with
      | firstMilestone :: _ =>
          earliestDate ← parseMilestoneDate (date firstMilestone);
          match earliestDate with
          | Some d => if valid d then Returns (Some d) else Returns None
          | None => Returns None
          end
      | [] => Throws
      end
  | _ => Returns None
  end.

Definition singleDeadline (opportunity : Opportunity) : outcome (option JsDate) :=
  if truthy (deadline opportunity) then
    deadline ← toDate_or_new_Date (deadline opportunity);
    if valid deadline then Returns (Some deadline) else Returns None
  else Returns None.

Definition getEarliestDeadline (opportunity : Opportunity) : outcome JsDate :=
  earliest ← earliestMilestone opportunity;
  match earliest with
  | Some d => Returns d
  | None =>
      single ← singleDeadline opportunity;
      match single with
      | Some d => Returns d
      | None => fallbackDate opportunity
      end
  end.
(** The dates that a stored record can carry: a timestamp whose
    [toDate()] returns, a valid [Date], or anything that is neither. *)
Definition well_formed (v : Value) : bool :=
  match v with
  | VTimestamp Throws => false
  | VDate (Date None) => false
  | _ => true
  end.

(** The instant of a milestone that parses. *)
Definition instant (m : Milestone) : option Z :=
  match parseMilestoneDate (date m) with
  | Returns (Some (Date (Some t))) => Some t
  | _ => None
  end.

(** The order of the sort: by instant, milestones without one last. *)
Definition not_later (a b : Milestone) : Prop :=
  match instant a, instant b with
  | Some x, Some y => x <= y
  | _, None => True
  | None, Some _ => False
  end.

(** The asynchronous resolver of [Home.tsx] asks the partition named by
    [specificCollection], whatever the category is. *)
Definition getEarliestDeadlineFromFullData (backend : Backend)
    (opportunity : Opportunity) : Async JsDate :=
  fun log =>
    let body : outcome JsDate * list FetchCall :=
      if has_milestones opportunity then (getEarliestDeadline opportunity, log)
      else if str_truthy (specificCollection opportunity) && str_truthy (id opportunity) then
        let '(fetched, log') :=
          getOpportunityDetails backend (default "" (id opportunity))
            (Named (default "" (specificCollection opportunity))) log in
        (fullData ← fetched;
         match fullData with
         | Some full =>
             match dateMilestones full with
             | Some _ => getEarliestDeadline full
             | None => getEarliestDeadline opportunity
             end
         | None => getEarliestDeadline opportunity
         end, log')
      else (getEarliestDeadline opportunity, log) in
    (try_catch body.1 (getEarliestDeadline opportunity), body.2).

(** The request that a record without milestones gives rise to. *)
Definition request_of (r : Opportunity) : option FetchCall :=
  if str_truthy (specificCollection r) && str_truthy (id r)
  then Some {| fetch_id := default "" (id r);
               fetch_collection := Named (default "" (specificCollection r)) |}
  else None.
End Resolver.
End HomeTsx.

(** * Consecutive batches

    The list cut into consecutive pieces of [size] elements, the last one
    shorter when the length is not a multiple of [size]. *)

Fixpoint chunks_fuel {A} (fuel size : nat) (l : list A) : list (list A) :=
  match fuel with
  | O => []
  | S fuel' =>
      match l with
      | [] => []
      | _ :: _ => take size l :: chunks_fuel fuel' size (drop size l)
      end
  end.

Definition chunks {A} (size : nat) (l : list A) : list (list A) :=
  chunks_fuel (length l) size l.

Definition twelve_ids : list string :=
  ["a"; "b"; "c"; "d"; "e"; "f"; "g"; "h"; "i"; "j"; "k"; "l"].

(** * Sample hosts and records *)

(** An engine whose [Date.parse] takes nothing but the date-only ISO form,
    in a zone [hours] hours ahead of UTC. *)
Definition strict_engine (hours : Z) : Host :=
  {| legacy_parse := fun _ => None; LocalTZA := hours * 3600000 |}.

Definition manila : Host := strict_engine 8.
Definition new_york : Host := strict_engine (-5).

(** The three spellings of 18 November 2025. *)
Definition textual_forms : list string := ["Nov 18, 2025"; "November 18, 2025"].
Definition date_strings : list string := textual_forms ++ ["2025-11-18"].

(** Midnight UTC of 18 November 2025. *)
Definition nov18_utc : Z := MakeDate (MakeDay 2025 10 18) 0.

(** The engine rejects the textual forms, or reads them as local midnight. *)
Definition reads_as_local_midnight `{Host} : Prop :=
  forall s, s ∈ textual_forms ->
    legacy_parse s = None \/ legacy_parse s = Some (UTC nov18_utc).

Definition record (i : option string) (cat coll : option string)
    (ms : option (list Milestone)) (dl ca : Value) (status : option string)
    : Opportunity :=
  {| id := i; title := ""; category := cat; specificCollection := coll;
     type := None; dateMilestones := ms; deadline := dl; createdAt := ca;
     organizationProfile := None; organizationVerificationStatus := status;
     organization := None |}.

(** Milestones of which the first does not parse. *)
Definition sample_milestones : list Milestone :=
  [ {| name := "Opens"; date := VString "bad-date" |};
    {| name := "Submission"; date := VString "Jan 5, 2026" |};
    {| name := "Briefing"; date := VString "2025-11-20" |} ].

Definition with_milestones : Opportunity :=
  record (Some "op-2") (Some "Competition / Event") (Some "competitions")
    (Some sample_milestones) VUndefined VUndefined (Some "verified").

(** Created on 1 January 2025, midnight UTC, with no deadline of its own. *)
Definition study_spot : Opportunity :=
  record (Some "op-3") (Some "Study Spot") (Some "studySpots") None
    VUndefined (VTimestamp (Returns 1735689600000)) (Some "verified").

(** Twelve workshops created on 1 January 2025, without milestones. *)
Definition twelve : list Opportunity :=
  map (fun i => record (Some i) (Some "Workshop / Seminar") (Some "workshops") None
                  VUndefined (VNumber (Fin 1735689600000)) (Some "verified"))
      twelve_ids.

(** The field holds a string that is "resources" or "resource" up to
    case. *)
Definition normalizes_to_resources (field : option string) : bool :=
  match field with
  | Some s =>
      String.eqb (toLowerCase s) "resources" || String.eqb (toLowerCase s) "resource"
  | None => false
  end.

(** A resource filed under a partition that is not the resources one. *)
Definition mislabelled : Opportunity :=
  record (Some "op-5") (Some "Resources") (Some "scholarships") None
    VUndefined (VNumber (Fin 1735689600000)) (Some "verified").

(** A resource of an organization that is not verified. *)
Definition unverified_resource : Opportunity :=
  record (Some "op-6") (Some "Resources") (Some "resources") None
    VUndefined (VNumber (Fin 1735689600000)) None.

(** A milestone whose [toDate()] throws, next to one that parses. *)
Definition broken_milestone : Opportunity :=
  record (Some "op-7") (Some "Workshop / Seminar") (Some "workshops")
    (Some [ {| name := "Opens"; date := VTimestamp Throws |};
            {| name := "Closes"; date := VString "2025-11-20" |} ])
    VUndefined (VNumber (Fin 1735689600000)) (Some "verified").

(** What the backend holds for "op-1": one milestone, on 20 November 2025. *)
Definition full_record : Opportunity :=
  record (Some "op-1") (Some "Workshop / Seminar") (Some "workshops")
    (Some [ {| name := "Closes"; date := VString "2025-11-20" |} ])
    VUndefined VUndefined (Some "verified").

(** An invalid [Date] object ahead of a milestone that parses. *)
Definition invalid_first : Opportunity :=
  record (Some "op-8") (Some "Workshop / Seminar") (Some "workshops")
    (Some [ {| name := "Opens"; date := VDate (Date None) |};
            {| name := "Closes"; date := VString "2025-11-20" |} ])
    VUndefined (VNumber (Fin 1735689600000)) (Some "verified").

(** A record that has nothing but an id. *)
Definition bare (i : string) : Opportunity :=
  record (Some i) None None None VUndefined VUndefined None.

(** A record whose [createdAt] has a [toDate] that throws (or that is not
    callable), and nothing to resolve a deadline from before it. *)
Definition broken_createdAt : Opportunity :=
  record (Some "op-1") (Some "Workshop / Seminar") (Some "workshops") None
    VUndefined (VTimestamp Throws) (Some "verified").


(** * Sort keys

    What each sort option orders the records by: the instant of
    [createdAt], as the comparators convert it, or of the resolved
    deadline; negated for the two descending options. *)

Section SortKeys.
Context {host : Host}.

Definition createdAt_time (r : Opportunity) : option Z :=
  match toDate_or_new_Date (createdAt r) with
  | Returns d => timeValue d
  | Throws => None
  end.

Definition deadline_time (r : Opportunity) : option Z :=
  match getEarliestDeadline r with
  | Returns d => timeValue d
  | Throws => None
  end.

Definition sort_key (sortBy : string) (r : Opportunity) : option Z :=
  if String.eqb sortBy "newest" then Z.opp <$> createdAt_time r
  else if String.eqb sortBy "oldest" then createdAt_time r
  else if String.eqb sortBy "deadline-soon" then deadline_time r
  else if String.eqb sortBy "deadline-far" then Z.opp <$> deadline_time r
  else None.

Definition sort_rank (sortBy : string) (r : Opportunity) : Z :=
  default 0 (sort_key sortBy r).

(** [opportunityDeadlines.get(op.id) || getEarliestDeadline(op)]: the date
    on the card of a record. *)
Definition cardDeadline (opportunityDeadlines : gmap (option string) JsDate)
    (op : Opportunity) : outcome JsDate :=
  match opportunityDeadlines !! id op with
  | Some d => Returns d
  | None => getEarliestDeadline op
  end.

(** The instant of the date on the card, when the date is valid. *)
Definition card_time (opportunityDeadlines : gmap (option string) JsDate)
    (op : Opportunity) : Z :=
  match cardDeadline opportunityDeadlines op with
  | Returns d => default 0 (timeValue d)
  | Throws => 0
  end.
End SortKeys.

(** Three records created a day apart. *)
Definition three_created : list Opportunity :=
  [ record (Some "b") None (Some "workshops") None VUndefined
      (VNumber (Fin 1735776000000)) (Some "verified");
    record (Some "c") None (Some "workshops") None VUndefined
      (VTimestamp (Returns 1735862400000)) (Some "verified");
    record (Some "a") None (Some "workshops") None VUndefined
      (VNumber (Fin 1735689600000)) (Some "verified") ].

(** * Date strings, by their parts *)

Fixpoint string_forall (p : ascii -> bool) (s : string) : bool :=
  match s with
  | EmptyString => true
  | String c s' => p c && string_forall p s'
  end.

(** A month, a day and a year written as "Month DD, YYYY", with the comma
    or without it. *)
Definition month_day_year (monthStr day year : string) (comma : bool) : string :=
  String.append monthStr
    (String.append " "
       (String.append day
          (String.append (if comma then "," else "") (String.append " " year)))).

(** A year, a month and a day written as "YYYY-MM-DD", and what follows. *)
Definition iso_prefixed (year month day rest : string) : string :=
  String.append year
    (String.append "-" (String.append month (String.append "-" (String.append day rest)))).

(** A record with nothing to resolve a deadline from but its [deadline]
    field; the [toDate()] of its [createdAt] throws. *)
Definition deadline_only : Opportunity :=
  record (Some "op-9") (Some "Scholarship / Grant") (Some "scholarships") None
    (VString "Dec 1, 2025") (VTimestamp Throws) (Some "verified").

(** The record [with_milestones], its milestones in the opposite order. *)
Definition reversed_milestones : Opportunity :=
  record (Some "op-2") (Some "Competition / Event") (Some "competitions")
    (Some (reverse sample_milestones)) VUndefined VUndefined (Some "verified").

(** A record whose dates the engine reads by itself. *)
Definition readable_record : Opportunity :=
  record (Some "op-10") (Some "Competition / Event") (Some "competitions")
    (Some [ {| name := "Finals"; date := VString "2025-12-05" |};
            {| name := "Registration"; date := VTimestamp (Returns 1735689600000) |};
            {| name := "Briefing"; date := VDate (Date (Some 1763596800000)) |} ])
    (VString "2025-12-31") (VNumber (Fin 1735689600000)) (Some "verified").

(** * The resources that [fetchOpportunities] counts

    The records that the log line of [fetchOpportunities] counts as
    filtered out of the feed. *)

Definition isResource (op : Opportunity) : bool :=
  String.eqb (effectiveCollection op) "resources"
  || String.eqb (effectiveCollection op) "resource"
  || bool_decide (type op = Some "resources")
  || bool_decide (type op = Some "resource").

Definition resourceOpps (data : list Opportunity) : list Opportunity :=
  List.filter isResource data.

(** Two workshops without milestones in the feed, created a month apart,
    and a backend that knows milestones for the older one only. *)
Definition older_workshop : Opportunity :=
  record (Some "b") (Some "Workshop / Seminar") (Some "workshops") None
    VUndefined (VNumber (Fin 1733011200000)) (Some "verified").

Definition newer_workshop : Opportunity :=
  record (Some "a") (Some "Workshop / Seminar") (Some "workshops") None
    VUndefined (VNumber (Fin 1735689600000)) (Some "verified").

Definition knows_older : Backend :=
  fun _ call => if String.eqb (fetch_id call) "b" then FetchFull full_record else FetchNull.

(** * Requests of the enrichment

    What the enrichment asks the backend for on behalf of a record:
    nothing when the record has milestones of its own. *)

Definition requests_for (r : Opportunity) : list FetchCall :=
  if has_milestones r then [] else option_list (request_of r).

(** The log when the callback of the record at index [j] starts: the
    requests of the records before it. *)
Definition log_before (opps : list Opportunity) (j : nat) : list FetchCall :=
  flat_map requests_for (take j opps).

Section Rejections.
Context {host : Host}.

(** The callback of the record at index [j] rejects. *)
Definition rejects (backend : Backend) (opps : list Opportunity) (j : nat) : bool :=
  match opps !! j with
  | Some op =>
      match (deadline_entry backend op (log_before opps j)).1 with
      | Returns _ => false
      | Throws => true
      end
  | None => false
  end.
End Rejections.

(** Thirteen records: the twelve workshops, and after the sixth of them a
    record on which the resolver throws. *)
Definition thirteen : list Opportunity :=
  take 6 twelve ++ broken_createdAt :: drop 6 twelve.

(** * Dates that the engine reads

    A string that [new Date] takes, a timestamp whose [toDate()] returns,
    a valid [Date]. *)

Section Readable.
Context {host : Host}.

Definition engine_readable (v : Value) : bool :=
  match v with
  | VString s => nonempty s && valid (new_Date_string s)
  | VTimestamp (Returns _) => true
  | VDate d => valid d
  | _ => false
  end.
End Readable.

(** * The greeting ([getDisplayName]) *)

Module Session.

Record ProfileData : Type := { name : option string }.

Record User : Type := {
  uid : option string;
  displayName : option string;
  email : option string
}.

(** [email.split("@")[0]] *)
Definition before_at (email : string) : string :=
  (span (fun c => negb (Ascii.eqb c "@")) email).1.

(** [a || b], on string fields. *)
Definition or_else (a : option string) (b : string) : string :=
  if str_truthy a then default "" a else b.

Definition getDisplayName (profileLoading : bool)
    (profileData : option ProfileData) (user : option User) : string :=
  if profileLoading then "there"
  else
    or_else (profileData ≫= name)
      (or_else (user ≫= displayName)
         (or_else (before_at <$> (user ≫= email)) "there")).

End Session.

(** * The upcoming deadlines ([fetchUpcomingDeadlines]) *)

Module Upcoming.

Record UpcomingDeadline : Type := {
  date : JsDate;
  title : string;
  milestoneDescription : string;
  opportunityId : string;
  specificCollection : string;
  category : string
}.

(** [a.date.getTime() - b.date.getTime()] *)
Definition by_date (a b : UpcomingDeadline) : outcome Num :=
  Returns (sub (getTime (date a)) (getTime (date b))).

(** The state [upcomingDeadlines] after the call: untouched without a
    signed-in user, the three earliest deadlines of the fifty asked for,
    or nothing when the service fails. *)
Definition fetchUpcomingDeadlines (user : option Session.User)
    (getUpcomingDeadlines : string -> Z -> outcome (list UpcomingDeadline))
    (upcomingDeadlines : list UpcomingDeadline) : list UpcomingDeadline :=
  if str_truthy (user ≫= Session.uid) then
    match (deadlines ← getUpcomingDeadlines (default "" (user ≫= Session.uid)) 50;
           sorted ← Array_sort by_date deadlines;
           Returns (slice sorted 0 3)) with
    | Returns sortedDeadlines => sortedDeadlines
    | Throws => []
    end
  else upcomingDeadlines.

(** The instant of a deadline whose date is valid. *)
Definition time (d : UpcomingDeadline) : Z := default 0 (timeValue (date d)).

End Upcoming.

(** A signed-in user, and four deadlines the service answers with. *)
Definition signed_in : Session.User :=
  {| Session.uid := Some "u-1"; Session.displayName := None;
     Session.email := Some "ana@example.org" |}.

Definition upcoming (i : string) (t : Z) : Upcoming.UpcomingDeadline :=
  {| Upcoming.date := Date (Some t); Upcoming.title := i;
     Upcoming.milestoneDescription := "Submission"; Upcoming.opportunityId := i;
     Upcoming.specificCollection := "scholarships";
     Upcoming.category := "Scholarship / Grant" |}.

Definition four_deadlines : list Upcoming.UpcomingDeadline :=
  [ upcoming "d" 1764547200000; upcoming "b" 1763596800000;
    upcoming "c" 1763596800000; upcoming "a" 1735689600000 ].

(** * Facts about the sort *)

Section ArraySortFacts.
Context {A : Type}.
Variable compareFn : A -> A -> outcome Num.

Lemma insert_sorted_perm x ys r :
  insert_sorted compareFn x ys = Returns r -> Permutation (x :: ys) r.
Proof.
  revert r. induction ys as [|y ys IH]; intros r; simpl.
  - intros [= <-]. reflexivity.
  - destruct (compareFn x y) as [v|]; simpl; [|discriminate].
    destruct (not_after v).
    + intros [= <-]. reflexivity.
    + destruct (insert_sorted compareFn x ys) as [r'|] eqn:E; simpl; [|discriminate].
      intros [= <-]. rewrite perm_swap. constructor. by apply IH.
Qed.

Lemma Array_sort_perm xs ys :
  Array_sort compareFn xs = Returns ys -> Permutation xs ys.
Proof.
  revert ys. induction xs as [|x xs IH]; intros ys; simpl.
  - intros [= <-]. reflexivity.
  - destruct (Array_sort compareFn xs) as [s|] eqn:E; simpl; [|discriminate].
    intros H. apply insert_sorted_perm in H. rewrite <- H. constructor. by apply IH.
Qed.

Lemma insert_sorted_throws x ys :
  insert_sorted compareFn x ys = Throws ->
  exists y, y ∈ ys /\ compareFn x y = Throws.
Proof.
  induction ys as [|y ys IH]; simpl; [discriminate|].
  destruct (compareFn x y) as [v|] eqn:E; simpl.
  - destruct (not_after v); [discriminate|].
    destruct (insert_sorted compareFn x ys); simpl; [discriminate|].
    intros _. destruct IH as (z & Hz & Hc); [done|].
    exists z. split; [by right | done].
  - intros _. exists y. split; [by left | done].
Qed.

(** A sort that throws has called the comparator on two elements of the
    array on which it throws. *)
Lemma Array_sort_throws xs :
  Array_sort compareFn xs = Throws ->
  exists x y, x ∈ xs /\ y ∈ xs /\ compareFn x y = Throws.
Proof.
  induction xs as [|x xs IH]; simpl; [discriminate|].
  destruct (Array_sort compareFn xs) as [s|] eqn:E; simpl.
  - intros H. apply insert_sorted_throws in H as (y & Hy & Hc).
    apply Array_sort_perm in E.
    exists x, y. split; [by left|]. split; [|done].
    right. by rewrite E.
  - intros _. destruct IH as (a & b & Ha & Hb & Hc); [done|].
    exists a, b. split; [by right|]. split; [by right | done].
Qed.

Lemma Array_sort_total xs :
  (forall x y, x ∈ xs -> y ∈ xs -> compareFn x y <> Throws) ->
  exists ys, Array_sort compareFn xs = Returns ys /\ Permutation xs ys.
Proof.
  intros H. destruct (Array_sort compareFn xs) as [ys|] eqn:E.
  - exists ys. split; [done|]. by apply Array_sort_perm.
  - apply Array_sort_throws in E as (x & y & Hx & Hy & Hc).
    by destruct (H x y Hx Hy).
Qed.

(** When the sign of the comparator follows a transitive order, the first
    element of the sorted array is below all the others. *)
Section Ordered.
Variable le : A -> A -> Prop.
Hypothesis le_trans : forall x y z, le x y -> le y z -> le x z.

Lemma insert_sorted_first x ys r :
  decides compareFn le (x :: ys) -> first_is_least le ys ->
  insert_sorted compareFn x ys = Returns r -> first_is_least le r.
Proof.
  destruct ys as [|y ys]; simpl.
  - intros _ _ [= <-]. simpl. intros z Hz. by apply elem_of_nil in Hz.
  - intros Hd Hl.
    destruct (Hd x y) as (v & Hv & Hle & Hge); [by left | by right; left|].
    rewrite Hv. simpl. destruct (not_after v) eqn:E.
    + intros [= <-]. simpl. intros z [->|Hz]%elem_of_cons; [by apply Hle|].
      apply (le_trans x y z); [by apply Hle | by apply Hl].
    + destruct (insert_sorted compareFn x ys) as [r'|] eqn:E'; simpl; [|discriminate].
      intros [= <-]. simpl. intros z Hz.
      apply insert_sorted_perm in E'. rewrite <- E' in Hz.
      apply elem_of_cons in Hz as [->|Hz]; [by apply Hge | by apply Hl].
Qed.

Lemma Array_sort_first xs ys :
  decides compareFn le xs -> Array_sort compareFn xs = Returns ys ->
  first_is_least le ys.
Proof.
  revert ys. induction xs as [|x xs IH]; intros ys Hd; simpl.
  - by intros [= <-].
  - destruct (Array_sort compareFn xs) as [s|] eqn:E; simpl; [|discriminate].
    pose proof (Array_sort_perm _ _ E) as Hp.
    apply insert_sorted_first; [|apply IH; [|done]].
    + intros a b Ha Hb. apply Hd; by rewrite Hp.
    + intros a b Ha Hb. apply Hd; by right.
Qed.

Lemma decides_no_throw xs x y :
  decides compareFn le xs -> x ∈ xs -> y ∈ xs -> compareFn x y <> Throws.
Proof. intros Hd Hx Hy. destruct (Hd x y Hx Hy) as (v & -> & _). done. Qed.
End Ordered.

(** When the comparator is the difference of an integer key, the first
    element of the sorted array has the least key. *)
Section Keyed.
Variable key : A -> Z.

Lemma insert_sorted_least x ys r :
  keyed compareFn key (x :: ys) -> least_first key ys ->
  insert_sorted compareFn x ys = Returns r -> least_first key r.
Proof.
  destruct ys as [|y ys]; simpl.
  - intros _ _ [= <-]. simpl. intros z Hz. by apply elem_of_nil in Hz.
  - intros Hk Hl. rewrite (Hk x y); [|by left | by right; left]. simpl.
    destruct (key x - key y <=? 0) eqn:E.
    + intros [= <-]. simpl. intros z [->|Hz]%elem_of_cons; [lia|].
      specialize (Hl z Hz). lia.
    + destruct (insert_sorted compareFn x ys) as [r'|] eqn:E'; simpl; [|discriminate].
      intros [= <-]. simpl. intros z Hz.
      apply insert_sorted_perm in E'. rewrite <- E' in Hz.
      apply elem_of_cons in Hz as [->|Hz]; [lia | by apply Hl].
Qed.

Lemma Array_sort_least xs ys :
  keyed compareFn key xs -> Array_sort compareFn xs = Returns ys -> least_first key ys.
Proof.
  revert ys. induction xs as [|x xs IH]; intros ys Hk; simpl.
  - by intros [= <-].
  - destruct (Array_sort compareFn xs) as [s|] eqn:E; simpl; [|discriminate].
    assert (Hk' : keyed compareFn key xs).
    { intros a b Ha Hb. apply Hk; by right. }
    pose proof (Array_sort_perm _ _ E) as Hp.
    apply insert_sorted_least; [|by apply IH].
    intros a b Ha Hb. apply Hk; by rewrite Hp.
Qed.

Lemma keyed_no_throw xs x y :
  keyed compareFn key xs -> x ∈ xs -> y ∈ xs -> compareFn x y <> Throws.
Proof. intros Hk Hx Hy. by rewrite (Hk x y Hx Hy). Qed.
End Keyed.
End ArraySortFacts.

(** * Facts about the resolver *)

Section ResolverFacts.
Context {host : Host}.

Lemma valid_inv d : valid d = true -> exists t, d = Date (Some t).
Proof. destruct d as [[t|]]; [|discriminate]. by exists t. Qed.

Lemma parse_month_name_form_valid s d :
  parse_month_name_form s = Some d -> valid d = true.
Proof.
  unfold parse_month_name_form.
  destruct (match_month_day_year s) as [[[mo da] ye]|]; [|discriminate].
  destruct (monthNames _) as [mn|]; [|discriminate]. cbv zeta.
  destruct (valid _) eqn:E; [|discriminate]. by intros [= <-].
Qed.

Lemma parse_iso_form_valid s d :
  parse_iso_form s = Some d -> valid d = true.
Proof.
  unfold parse_iso_form.
  destruct (match_iso_prefix s) as [[[ye mo] da]|]; [|discriminate]. cbv zeta.
  destruct (valid _) eqn:E; [|discriminate]. by intros [= <-].
Qed.

(** Whatever [parseFlexibleDate] returns is a valid date. *)
Lemma parseFlexibleDate_valid v d :
  parseFlexibleDate v = Some d -> exists t, d = Date (Some t).
Proof.
  unfold parseFlexibleDate.
  destruct (truthy v); simpl; [|discriminate].
  destruct v as [| |b|n|w|s|d0|[t|]|]; try discriminate; cbv zeta.
  - match goal with |- context [isNaN ?x] => destruct (isNaN x) eqn:E end;
      [discriminate|].
    intros [= <-]. apply valid_inv. unfold valid. simpl. by rewrite E.
  - match goal with |- context [isNaN ?x] => destruct (isNaN x) eqn:E end;
      [discriminate|].
    intros [= <-]. apply valid_inv. unfold valid. by rewrite E.
  - destruct (valid (new_Date_string s)) eqn:E.
    { intros [= <-]. by apply valid_inv. }
    destruct (parse_month_name_form s) as [d1|] eqn:E1.
    + intros [= <-]. by apply valid_inv, (parse_month_name_form_valid s).
    + intros H. by apply valid_inv, (parse_iso_form_valid s).
  - destruct (isNaN (getTime d0)) eqn:E; [discriminate|]. intros [= <-].
    apply valid_inv. unfold valid. by rewrite E.
  - intros [= <-]. by exists t.
Qed.

Lemma elem_of_validMilestones e ms :
  e ∈ validMilestones ms <->
  exists m t, m ∈ ms /\ parseFlexibleDate (date m) = Some (Date (Some t))
              /\ e = (m, Some (Date (Some t))).
Proof.
  unfold validMilestones.
  rewrite list_elem_of_In, filter_In, <- list_elem_of_In, list_elem_of_fmap.
  split.
  - intros [(m & -> & Hm) Hd]. simpl in Hd.
    apply bool_decide_eq_true in Hd.
    destruct (parseFlexibleDate (date m)) as [d|] eqn:E; [|done].
    destruct (parseFlexibleDate_valid _ _ E) as [t ->].
    exists m, t. by rewrite E.
  - intros (m & t & Hm & E & ->). split.
    + exists m. by rewrite E.
    + by apply bool_decide_eq_true.
Qed.

Lemma validMilestones_keyed ms :
  keyed by_parsedDate entry_time (validMilestones ms).
Proof.
  intros x y (mx & tx & _ & _ & ->)%elem_of_validMilestones
             (my & ty & _ & _ & ->)%elem_of_validMilestones.
  reflexivity.
Qed.

(** The first stage never throws, and picks the least of the parsed
    instants. *)
Lemma earliestMilestone_some r ms :
  dateMilestones r = Some ms ->
  (exists m, m ∈ ms /\ parseFlexibleDate (date m) <> None) ->
  exists t, earliestMilestone r = Returns (Some (Date (Some t)))
    /\ (exists m, m ∈ ms /\ parseFlexibleDate (date m) = Some (Date (Some t)))
    /\ (forall m t', m ∈ ms ->
          parseFlexibleDate (date m) = Some (Date (Some t')) -> t <= t').
Proof.
  intros Hms (m0 & Hm0 & Hp0).
  unfold earliestMilestone. rewrite Hms.
  destruct ms as [|m1 ms1]; [by apply elem_of_nil in Hm0|].
  cbv beta iota. clear Hms. remember (m1 :: ms1) as ms eqn:Heq. clear Heq.
  destruct (parseFlexibleDate (date m0)) as [d0|] eqn:E0; [|done].
  destruct (parseFlexibleDate_valid _ _ E0) as [t0 ->].
  assert (Hin0 : (m0, Some (Date (Some t0))) ∈ validMilestones ms).
  { apply elem_of_validMilestones. by exists m0, t0. }
  assert (Hlen : (0 <? length (validMilestones ms))%nat = true).
  { apply Nat.ltb_lt. destruct (validMilestones ms); [by apply elem_of_nil in Hin0|].
    simpl. lia. }
  rewrite Hlen.
  destruct (Array_sort_total by_parsedDate (validMilestones ms)) as (ys & Hs & Hp).
  { intros x y Hx Hy.
    by apply (keyed_no_throw _ _ _ x y (validMilestones_keyed ms)). }
  rewrite Hs. simpl.
  pose proof (Array_sort_least _ _ _ _ (validMilestones_keyed ms) Hs) as Hl.
  destruct ys as [|e ys].
  { apply Permutation_sym, Permutation_nil in Hp. rewrite Hp in Hin0.
    by apply elem_of_nil in Hin0. }
  assert (He : e ∈ validMilestones ms) by (rewrite Hp; by left).
  apply elem_of_validMilestones in He as (m & t & Hm & E & ->).
  exists t. split; [done|]. split; [by exists m|].
  intros m' t' Hm' E'.
  assert (Hin' : (m', Some (Date (Some t'))) ∈ (m, Some (Date (Some t))) :: ys).
  { rewrite <- Hp. apply elem_of_validMilestones. by exists m', t'. }
  apply elem_of_cons in Hin' as [[= _ ->]|Hin']; [lia|].
  apply (Hl _ Hin').
Qed.

Lemma validMilestones_nil ms :
  (forall m, m ∈ ms -> parseFlexibleDate (date m) = None) ->
  validMilestones ms = [].
Proof.
  intros H. destruct (validMilestones ms) as [|e l] eqn:E; [done|].
  assert (He : e ∈ validMilestones ms) by (rewrite E; by left).
  apply elem_of_validMilestones in He as (m & t & Hm & Hp & _).
  rewrite (H m Hm) in Hp. discriminate.
Qed.

(** With no milestone that parses, the first stage yields nothing. *)
Lemma earliestMilestone_none r :
  (forall ms m, dateMilestones r = Some ms -> m ∈ ms ->
     parseFlexibleDate (date m) = None) ->
  earliestMilestone r = Returns None.
Proof.
  intros H. unfold earliestMilestone.
  destruct (dateMilestones r) as [[|m ms]|] eqn:E; [done| |done].
  rewrite validMilestones_nil; [done|]. intros m' Hm'. by apply (H (m :: ms)).
Qed.

(** The first stage never throws. *)
Lemma earliestMilestone_returns r : exists o, earliestMilestone r = Returns o.
Proof.
  destruct (dateMilestones r) as [ms|] eqn:E.
  - destruct (decide (Exists (fun m => parseFlexibleDate (date m) <> None) ms)) as [Hex|Hno].
    + apply Exists_exists in Hex as (m & Hm & Hp).
      destruct (earliestMilestone_some r ms E) as (t & -> & _); [|by eexists].
      by exists m.
    + exists None. apply earliestMilestone_none. intros ms' m E' Hm.
      rewrite E in E'. injection E' as <-.
      destruct (parseFlexibleDate (date m)) eqn:Ep; [|done].
      exfalso. apply Hno, Exists_exists. exists m. by rewrite Ep.
  - exists None. unfold earliestMilestone.
    by rewrite E.
Qed.
End ResolverFacts.


(** * Date strings *)

Section DateStrings.
Context {host : Host}.

Lemma textual_not_iso s : s ∈ textual_forms -> parse_iso_date_only s = None.
Proof.
  unfold textual_forms. intros Hs.
  repeat (apply elem_of_cons in Hs as [->|Hs]; [reflexivity|]).
  by apply elem_of_nil in Hs.
Qed.

Lemma textual_month_form s :
  s ∈ textual_forms ->
  parse_month_name_form s
  = if valid (new_Date_ymd 2025 10 18) then Some (new_Date_ymd 2025 10 18) else None.
Proof.
  unfold textual_forms. intros Hs.
  repeat (apply elem_of_cons in Hs as [->|Hs]; [reflexivity|]).
  by apply elem_of_nil in Hs.
Qed.

Lemma local_midnight_nov18 :
  - msPerDay < LocalTZA < msPerDay ->
  new_Date_ymd 2025 10 18 = Date (Some (UTC nov18_utc)).
Proof.
  intros Htz. unfold new_Date_ymd. cbv zeta.
  change (if (0 <=? 2025) && (2025 <=? 99) then 1900 + 2025 else 2025) with 2025.
  change (MakeDate (MakeDay 2025 10 18) 0) with nov18_utc. unfold TimeClip.
  assert (H : (Z.abs (UTC nov18_utc) <=? maxTime) = true).
  { apply Z.leb_le. unfold UTC. change nov18_utc with 1763424000000.
    unfold maxTime, msPerDay in *. lia. }
  by rewrite H.
Qed.

Lemma iso_nov18 : parseFlexibleDate (VString "2025-11-18") = Some (Date (Some nov18_utc)).
Proof. reflexivity. Qed.

Lemma textual_parses s :
  - msPerDay < LocalTZA < msPerDay ->
  s ∈ textual_forms ->
  exists t, parseFlexibleDate (VString s) = Some (Date (Some t))
    /\ (legacy_parse s = None -> t = UTC nov18_utc).
Proof.
  intros Htz Hs. unfold parseFlexibleDate.
  replace (truthy (VString s)) with true.
  2:{ unfold textual_forms in Hs.
      repeat (apply elem_of_cons in Hs as [->|Hs]; [reflexivity|]).
      by apply elem_of_nil in Hs. }
  simpl negb. cbv iota zeta.
  rewrite (textual_month_form s Hs), (local_midnight_nov18 Htz).
  unfold new_Date_string, Date_parse. rewrite (textual_not_iso s Hs).
  destruct (legacy_parse s) as [t|] eqn:E.
  - unfold TimeClip. destruct (Z.abs t <=? maxTime).
    + exists t. split; [reflexivity | discriminate].
    + exists (UTC nov18_utc). split; [reflexivity | done].
  - exists (UTC nov18_utc). split; [reflexivity | done].
Qed.
End DateStrings.

(** Where the zone is not behind UTC: the three strings parse on every
    engine.  "2025-11-18" denotes midnight UTC of 18 November 2025; a
    textual form that the engine's own parser does not take denotes local
    midnight of that day.  On an engine that rejects the textual forms or
    reads them as local midnight, the three dates then fall on the same
    local day, 18 November 2025. *)
Lemma date_strings_east_of_utc `{Host} :
  - msPerDay < LocalTZA < msPerDay ->
  (forall s, s ∈ date_strings ->
     exists t, parseFlexibleDate (VString s) = Some (Date (Some t)))
  /\ parseFlexibleDate (VString "2025-11-18") = Some (Date (Some nov18_utc))
  /\ (forall s, s ∈ textual_forms -> legacy_parse s = None ->
        parseFlexibleDate (VString s) = Some (Date (Some (UTC nov18_utc))))
  /\ (0 <= LocalTZA -> reads_as_local_midnight ->
      forall s, s ∈ date_strings ->
        exists d, parseFlexibleDate (VString s) = Some d
                  /\ on_local_day 2025 10 18 d = true).
Proof.
  intros Htz.
  assert (Hall : forall s, s ∈ date_strings ->
            exists t, parseFlexibleDate (VString s) = Some (Date (Some t))).
  { intros s [Hs|Hs]%elem_of_app.
    - destruct (textual_parses s Htz Hs) as (t & Ht & _). by exists t.
    - apply list_elem_of_singleton in Hs as ->. exists nov18_utc. apply iso_nov18. }
  split; [exact Hall|]. split; [apply iso_nov18|]. split.
  - intros s Hs Hl. destruct (textual_parses s Htz Hs) as (t & Ht & Heq).
    by rewrite Ht, (Heq Hl).
  - intros Hpos Hloc s [Hs|Hs]%elem_of_app.
    + destruct (textual_parses s Htz Hs) as (t & Ht & Heq).
      exists (Date (Some t)). split; [done|].
      assert (t = UTC nov18_utc) as ->.
      { destruct (Hloc s Hs) as [Hn|Hsome]; [by apply Heq|].
        revert Ht. unfold parseFlexibleDate.
        destruct (truthy (VString s)); simpl negb; cbv iota zeta; [|discriminate].
        unfold new_Date_string, Date_parse.
        rewrite (textual_not_iso s Hs), Hsome.
        unfold TimeClip, valid.
        assert (Hr : (Z.abs (UTC nov18_utc) <=? maxTime) = true).
        { apply Z.leb_le. unfold UTC. change nov18_utc with 1763424000000.
          unfold maxTime, msPerDay in *. lia. }
        rewrite Hr. simpl. by intros [= <-]. }
      unfold on_local_day, LocalTime, UTC, getTime. cbn [timeValue].
      rewrite Z.sub_add. reflexivity.
    + apply list_elem_of_singleton in Hs as ->.
      exists (Date (Some nov18_utc)). split; [apply iso_nov18|].
      unfold on_local_day, LocalTime, getTime. cbn [timeValue].
      change (MakeDate (MakeDay 2025 10 18) 0) with 1763424000000.
      change (MakeDate (MakeDay 2025 10 18 + 1) 0) with 1763510400000.
      change nov18_utc with 1763424000000.
      apply andb_true_iff. split; [apply Z.leb_le | apply Z.ltb_lt];
        unfold msPerDay in *; lia.
Qed.

(** C7: the code does not keep the promise.  [parseFlexibleDate] has a
    strategy of its own for "YYYY-MM-DD", which builds local midnight of
    the day, as its strategy for "Month DD, YYYY" does.  But it tries
    [new Date(string)] first, and that takes the date-only form on every
    engine and reads it as midnight UTC: for a calendar date the strategy
    is never reached.  In a zone behind UTC midnight UTC is on the evening
    of the day before, so "2025-11-18" falls on 17 November local time
    while the textual forms, which the engine's parser leaves to the
    month-name strategy, fall on 18 November: the three strings do not
    parse to the same local calendar date. *)
Theorem C7_iso_date_is_utc_midnight `{Host} :
  - msPerDay < LocalTZA < 0 ->
  parseFlexibleDate (VString "2025-11-18") = Some (Date (Some nov18_utc))
  /\ on_local_day 2025 10 17 (Date (Some nov18_utc)) = true
  /\ on_local_day 2025 10 18 (Date (Some nov18_utc)) = false
  /\ parse_iso_form "2025-11-18" = Some (Date (Some (UTC nov18_utc)))
  /\ on_local_day 2025 10 18 (Date (Some (UTC nov18_utc))) = true
  /\ (forall s, s ∈ textual_forms -> legacy_parse s = None ->
        parseFlexibleDate (VString s) = Some (Date (Some (UTC nov18_utc))))
  /\ ~ (forall s, s ∈ date_strings ->
          exists d, parseFlexibleDate (VString s) = Some d
                    /\ on_local_day 2025 10 18 d = true).
Proof.
  intros Htz.
  assert (Htz' : - msPerDay < LocalTZA < msPerDay) by (unfold msPerDay in *; lia).
  assert (Hprev : on_local_day 2025 10 17 (Date (Some nov18_utc)) = true).
  { unfold on_local_day, LocalTime, getTime. cbn [timeValue].
    change (MakeDate (MakeDay 2025 10 17) 0) with 1763337600000.
    change (MakeDate (MakeDay 2025 10 17 + 1) 0) with 1763424000000.
    change nov18_utc with 1763424000000.
    apply andb_true_iff. split; [apply Z.leb_le | apply Z.ltb_lt];
      unfold msPerDay in *; lia. }
  assert (Hday : on_local_day 2025 10 18 (Date (Some nov18_utc)) = false).
  { unfold on_local_day, LocalTime, getTime. cbn [timeValue].
    change (MakeDate (MakeDay 2025 10 18) 0) with 1763424000000.
    change nov18_utc with 1763424000000.
    apply andb_false_iff. left. apply Z.leb_gt. lia. }
  split; [apply iso_nov18|]. split; [exact Hprev|]. split; [exact Hday|]. split; [|split; [|split]].
  - unfold parse_iso_form.
    change (match_iso_prefix "2025-11-18") with (Some ("2025", "11", "18")).
    cbv iota beta zeta.
    change (parseInt "2025") with 2025. change (parseInt "11" - 1) with 10.
    change (parseInt "18") with 18.
    by rewrite (local_midnight_nov18 Htz').
  - unfold on_local_day, LocalTime, UTC, getTime. cbn [timeValue].
    rewrite Z.sub_add. reflexivity.
  - intros s Hs Hl. destruct (textual_parses s Htz' Hs) as (t & Ht & Heq).
    by rewrite Ht, (Heq Hl).
  - intros Hsame. destruct (Hsame "2025-11-18") as (d & Hd & Hd18).
    { unfold date_strings. apply elem_of_app. right. by left. }
    rewrite iso_nov18 in Hd. injection Hd as <-. by rewrite Hday in Hd18.
Qed.

Lemma C7_iso_date_is_utc_midnight_witness :
  @parseFlexibleDate new_york (VString "2025-11-18") = Some (Date (Some nov18_utc))
  /\ @on_local_day new_york 2025 10 17 (Date (Some nov18_utc)) = true
  /\ @on_local_day new_york 2025 10 18 (Date (Some nov18_utc)) = false
  /\ @parse_iso_form new_york "2025-11-18" = Some (Date (Some (@UTC new_york nov18_utc)))
  /\ @on_local_day new_york 2025 10 18 (Date (Some (@UTC new_york nov18_utc))) = true
  /\ (forall s, s ∈ textual_forms -> @legacy_parse new_york s = None ->
        @parseFlexibleDate new_york (VString s)
        = Some (Date (Some (@UTC new_york nov18_utc))))
  /\ ~ (forall s, s ∈ date_strings ->
          exists d, @parseFlexibleDate new_york (VString s) = Some d
                    /\ @on_local_day new_york 2025 10 18 d = true).
Proof.
  apply (@C7_iso_date_is_utc_midnight new_york). vm_compute. split; reflexivity.
Defined.

(** * The synchronous resolver *)

Section GetEarliestDeadline.
Context {host : Host}.

Lemma getEarliestDeadline_fallback r :
  earliestMilestone r = Returns None -> singleDeadline r = None ->
  getEarliestDeadline r = fallbackDate r.
Proof. intros H1 H2. unfold getEarliestDeadline. by rewrite H1, H2. Qed.

Lemma singleDeadline_none r :
  parseFlexibleDate (deadline r) = None -> singleDeadline r = None.
Proof. intros H. unfold singleDeadline. by destruct (truthy _). Qed.

(** The resolver throws on exactly one kind of record: nothing resolves
    before the fallback, and [createdAt.toDate()] throws. *)
Lemma getEarliestDeadline_throws r :
  getEarliestDeadline r = Throws <->
  earliestMilestone r = Returns None /\ singleDeadline r = None
  /\ createdAt r = VTimestamp Throws.
Proof.
  unfold getEarliestDeadline.
  destruct (earliestMilestone_returns r) as [[d|] ->]; simpl.
  { split; [discriminate | by intros [[=] _]]. }
  destruct (singleDeadline r) as [d|].
  { split; [discriminate | by intros (_ & [=] & _)]. }
  unfold fallbackDate, toDate_or_new_Date.
  destruct (createdAt r) as [| |b|n|w|s|d|[t|]|]; simpl;
    (split; [try discriminate | try by intros (_ & _ & [=])]); done.
Qed.

Lemma getEarliestDeadline_returns r :
  createdAt r <> VTimestamp Throws -> exists d, getEarliestDeadline r = Returns d.
Proof.
  intros Hc. destruct (getEarliestDeadline r) as [d|] eqn:E; [by exists d|].
  apply getEarliestDeadline_throws in E as (_ & _ & E). done.
Qed.
End GetEarliestDeadline.

(** C1: when some milestone of the record parses, the resolver returns the
    date of a milestone that parses, and no milestone parses to an earlier
    one.  A milestone that does not parse cannot supply the result. *)
Theorem C1_earliest_milestone `{Host} (r : Opportunity) (ms : list Milestone) :
  dateMilestones r = Some ms ->
  (exists m, m ∈ ms /\ parseFlexibleDate (date m) <> None) ->
  exists t, getEarliestDeadline r = Returns (Date (Some t))
    /\ (exists m, m ∈ ms /\ parseFlexibleDate (date m) = Some (Date (Some t)))
    /\ (forall m t', m ∈ ms ->
          parseFlexibleDate (date m) = Some (Date (Some t')) -> t <= t').
Proof.
  intros Hms Hex.
  destruct (earliestMilestone_some r ms Hms Hex) as (t & He & Hm & Hmin).
  exists t. split; [|done]. unfold getEarliestDeadline. by rewrite He.
Qed.

Lemma C1_earliest_milestone_witness :
  exists t, @getEarliestDeadline manila with_milestones = Returns (Date (Some t))
    /\ (exists m, m ∈ sample_milestones
          /\ @parseFlexibleDate manila (date m) = Some (Date (Some t)))
    /\ (forall m t', m ∈ sample_milestones ->
          @parseFlexibleDate manila (date m) = Some (Date (Some t')) -> t <= t').
Proof.
  apply (@C1_earliest_milestone manila with_milestones sample_milestones).
  - reflexivity.
  - exists {| name := "Briefing"; date := VString "2025-11-20" |}. split.
    + unfold sample_milestones. set_solver.
    + vm_compute. discriminate.
Defined.

(** C2, as stated, fails: a record without [createdAt] resolves to an
    invalid date, not to thirty days from any reading of the clock. *)
Lemma C2_counterexample :
  @getEarliestDeadline manila (bare "op-4") = Returns (Date None)
  /\ ~ (exists now, @getEarliestDeadline manila (bare "op-4")
                    = Returns (Date (Some (now + thirty_days)))).
Proof.
  split; [reflexivity|]. intros [now Hnow]. vm_compute in Hnow. discriminate.
Qed.

(** C2, amended: for a record with no milestone that parses and no deadline
    that parses, the result is [createdAt] plus thirty days, where
    [createdAt] is converted by [toDate()] or by the [Date] constructor:
    exactly [t + 2592000000] when the conversion gives the instant [t] and
    the sum is a time value.  When [createdAt] is absent, or the conversion
    gives an invalid date, the result is an invalid date. *)
Theorem C2_fallback `{Host} (r : Opportunity) :
  (forall ms m, dateMilestones r = Some ms -> m ∈ ms ->
     parseFlexibleDate (date m) = None) ->
  parseFlexibleDate (deadline r) = None ->
  (forall t, toDate_or_new_Date (createdAt r) = Returns (Date (Some t)) ->
     Z.abs (t + 2592000000) <= maxTime ->
     getEarliestDeadline r = Returns (Date (Some (t + 2592000000))))
  /\ (toDate_or_new_Date (createdAt r) = Returns (Date None) ->
      getEarliestDeadline r = Returns (Date None))
  /\ (createdAt r = VUndefined -> getEarliestDeadline r = Returns (Date None)).
Proof.
  intros Hms Hdl.
  rewrite getEarliestDeadline_fallback;
    [|by apply earliestMilestone_none | by apply singleDeadline_none].
  unfold fallbackDate. split; [|split].
  - intros t -> Hr. simpl. unfold new_Date_number, TimeClip.
    change thirty_days with 2592000000.
    apply Z.leb_le in Hr. by rewrite Hr.
  - by intros ->.
  - by intros ->.
Qed.

Lemma C2_fallback_witness :
  (forall t, @toDate_or_new_Date manila (createdAt study_spot) = Returns (Date (Some t)) ->
     Z.abs (t + 2592000000) <= maxTime ->
     @getEarliestDeadline manila study_spot = Returns (Date (Some (t + 2592000000))))
  /\ (@toDate_or_new_Date manila (createdAt study_spot) = Returns (Date None) ->
      @getEarliestDeadline manila study_spot = Returns (Date None))
  /\ (createdAt study_spot = VUndefined ->
      @getEarliestDeadline manila study_spot = Returns (Date None)).
Proof.
  apply (@C2_fallback manila study_spot).
  - intros ms m Hms. vm_compute in Hms. discriminate.
  - reflexivity.
Defined.

(** C4: the code does not keep the promise.  [parseFlexibleDate] guards
    [toDate()] with [try]/[catch]; the fallback calls it on [createdAt]
    unguarded, and the exception leaves [getEarliestDeadline]. *)
Theorem C4_resolver_throws `{Host} : getEarliestDeadline broken_createdAt = Throws.
Proof. reflexivity. Qed.

(** * The asynchronous resolver *)

Section FromFullData.
Context {host : Host}.
Variable backend : Backend.

Lemma try_catch_same {A} (c : outcome A) : try_catch c c = c.
Proof. by destruct c. Qed.

Lemma try_catch_returns {A} (c h : outcome A) :
  (exists a, h = Returns a) -> exists a, try_catch c h = Returns a.
Proof. intros [a ->]. destruct c as [b|]; [by exists b | by exists a]. Qed.

(** With milestones at hand the synchronous resolver is called at once,
    and nothing is requested. *)
Lemma from_full_data_delegates r log :
  has_milestones r = true ->
  getEarliestDeadlineFromFullData backend r log = (getEarliestDeadline r, log).
Proof.
  intros Hm. unfold getEarliestDeadlineFromFullData. rewrite Hm. simpl.
  by rewrite try_catch_same.
Qed.

(** Every way through the function, by what the backend answers. *)
Lemma from_full_data_cases r log :
  has_milestones r = false ->
  getEarliestDeadlineFromFullData backend r log =
  match request_of r with
  | None => (getEarliestDeadline r, log)
  | Some call =>
      (match backend (length log) call with
       | FetchFull full =>
           match dateMilestones full with
           | Some _ => try_catch (getEarliestDeadline full) (getEarliestDeadline r)
           | None => getEarliestDeadline r
           end
       | FetchNull | FetchThrows => getEarliestDeadline r
       end, log ++ [call])
  end.
Proof.
  intros Hm. unfold getEarliestDeadlineFromFullData, request_of. rewrite Hm.
  destruct (id r) as [i|]; [|by rewrite try_catch_same].
  destruct (nonempty i && negb (is_generic _)); [|by rewrite try_catch_same].
  unfold getOpportunityDetails.
  destruct (backend _ _) as [full| |]; simpl; try done; try by rewrite try_catch_same.
  destruct (dateMilestones full); simpl; [done | by rewrite try_catch_same].
Qed.

(** The promise resolves whenever the synchronous resolver returns on the
    record itself, whatever the backend does. *)
Lemma from_full_data_resolves r log :
  (exists d, getEarliestDeadline r = Returns d) ->
  exists d, (getEarliestDeadlineFromFullData backend r log).1 = Returns d.
Proof.
  intros Hr. unfold getEarliestDeadlineFromFullData. cbv zeta.
  by apply try_catch_returns.
Qed.

(** It rejects only when the synchronous resolver throws on the record. *)
Lemma from_full_data_rejects r log :
  (getEarliestDeadlineFromFullData backend r log).1 = Throws ->
  getEarliestDeadline r = Throws.
Proof.
  intros Hrej. destruct (getEarliestDeadline r) as [d|] eqn:E; [|done].
  destruct (from_full_data_resolves r log) as [d' Hd']; [by exists d|].
  rewrite Hrej in Hd'. discriminate.
Qed.

(** At most one request is issued. *)
Lemma from_full_data_requests r log :
  exists calls, (getEarliestDeadlineFromFullData backend r log).2 = log ++ calls
                /\ (length calls <= 1)%nat.
Proof.
  destruct (has_milestones r) eqn:Hm.
  - rewrite from_full_data_delegates by done. exists [].
    split; [simpl; by rewrite app_nil_r | simpl; lia].
  - rewrite from_full_data_cases by done. destruct (request_of r) as [c|].
    + exists [c]. simpl. split; [done | lia].
    + exists []. split; [simpl; by rewrite app_nil_r | simpl; lia].
Qed.
End FromFullData.

(** C3: the code does not keep the promise.  The [catch] clause falls back
    on [getEarliestDeadline], which throws on a record whose
    [createdAt.toDate()] throws: the promise is rejected, here when the request
    fails, when it answers [null], and when it answers a record without
    milestones.  This is the defect of
    C4 seen through the asynchronous resolver. *)
Theorem C3_async_resolver_rejects `{Host} (log : list FetchCall) :
  (getEarliestDeadlineFromFullData (fun _ _ => FetchThrows) broken_createdAt log).1 = Throws
  /\ (getEarliestDeadlineFromFullData (fun _ _ => FetchNull) broken_createdAt log).1 = Throws
  /\ (getEarliestDeadlineFromFullData (fun _ _ => FetchFull (bare "op-1"))
        broken_createdAt log).1 = Throws.
Proof. repeat split; reflexivity. Qed.

(** * Batches *)

Section Chunks.
Context {A : Type}.
Implicit Types l : list A.

Lemma chunks_fuel_enough size f1 f2 l :
  (0 < size)%nat -> (length l <= f1)%nat -> (length l <= f2)%nat ->
  chunks_fuel f1 size l = chunks_fuel f2 size l.
Proof.
  intros Hs. revert f2 l. induction f1 as [|f1 IH]; intros f2 l H1 H2.
  - destruct l; [|simpl in H1; lia]. by destruct f2.
  - destruct l as [|x l]; [by destruct f2|].
    destruct f2 as [|f2]; [simpl in H2; lia|]. simpl chunks_fuel. f_equal.
    apply IH; rewrite length_drop; simpl in *; lia.
Qed.

Lemma chunks_cons size x l :
  (0 < size)%nat ->
  chunks size (x :: l) = take size (x :: l) :: chunks size (drop size (x :: l)).
Proof.
  intros Hs. unfold chunks. simpl length. simpl chunks_fuel. f_equal.
  apply chunks_fuel_enough; [done| |done].
  rewrite length_drop. simpl. lia.
Qed.

Lemma chunks_nil size : chunks size (@nil A) = [].
Proof. reflexivity. Qed.

(** The batches, put end to end, are the list. *)
Lemma chunks_concat size l : (0 < size)%nat -> concat (chunks size l) = l.
Proof.
  intros Hs. remember (length l) as n eqn:Hn. revert l Hn.
  induction n as [n IH] using lt_wf_ind. intros l ->.
  destruct l as [|x l]; [done|].
  rewrite chunks_cons by done. simpl concat.
  rewrite (IH (length (drop size (x :: l)))); [apply take_drop| |done].
  rewrite length_drop. simpl. lia.
Qed.

(** Batch number [j] holds the elements from index [j * size] on, [size]
    of them or as many as are left. *)
Lemma chunks_lookup size l j :
  (0 < size)%nat -> (j * size < length l)%nat ->
  chunks size l !! j = Some (take size (drop (j * size) l)).
Proof.
  intros Hs. revert l. induction j as [|j IH]; intros l Hj.
  - destruct l as [|x l]; [simpl in Hj; lia|]. by rewrite chunks_cons.
  - destruct l as [|x l]; [simpl in Hj; lia|].
    rewrite chunks_cons by done. simpl lookup.
    rewrite IH.
    + by rewrite drop_drop.
    + rewrite length_drop. simpl in *. lia.
Qed.

(** There are [ceil (n / size)] batches. *)
Lemma chunks_length size l :
  (0 < size)%nat -> length (chunks size l) = ((length l + size - 1) / size)%nat.
Proof.
  intros Hs. remember (length l) as n eqn:Hn. revert l Hn.
  induction n as [n IH] using lt_wf_ind. intros l ->.
  destruct l as [|x l].
  - simpl. symmetry. apply Nat.div_small. lia.
  - rewrite chunks_cons by done. simpl length at 1.
    rewrite (IH (length (drop size (x :: l)))); [| |done].
    2:{ rewrite length_drop. simpl. lia. }
    rewrite length_drop.
    destruct (decide (size <= length (x :: l))%nat) as [Hle|Hgt].
    + replace (length (x :: l) + size - 1)%nat
        with ((length (x :: l) - size + size - 1) + 1 * size)%nat by lia.
      rewrite Nat.div_add by lia. lia.
    + replace (length (x :: l) - size)%nat with 0%nat by lia.
      rewrite (Nat.div_small (0 + size - 1)) by lia.
      assert (Hq : ((length (x :: l) + size - 1) / size = 1)%nat).
      { symmetry. apply (Nat.div_unique _ _ 1 (length (x :: l) - 1)%nat);
          simpl in *; lia. }
      by rewrite Hq.
Qed.
End Chunks.

(** * Batch enrichment *)

Section Enrich.
Context {host : Host}.
Variable backend : Backend.

Lemma deadline_entry_returns op log :
  resolves op ->
  exists d log', deadline_entry backend op log = (Returns (id op, d), log').
Proof.
  intros [d Hd]. unfold deadline_entry.
  destruct (getEarliestDeadlineFromFullData backend op log) as [[d'|] log'].
  - by exists d', log'.
  - exists d, log'. simpl. by rewrite Hd.
Qed.

Lemma Promise_all_map_cons {B C} (f : B -> Async C) x batch log :
  Promise_all_map f (x :: batch) log =
  let '(r, log') := f x log in
  let '(rs, log'') := Promise_all_map f batch log' in
  (v ← r; vs ← rs; Returns (v :: vs), log'').
Proof. reflexivity. Qed.

Lemma Promise_all_map_returns batch log :
  (forall op, op ∈ batch -> resolves op) ->
  exists rs log',
    Promise_all_map (deadline_entry backend) batch log = (Returns rs, log')
    /\ map fst rs = map id batch.
Proof.
  revert log. induction batch as [|op batch IH]; intros log Hall.
  - by exists [], log.
  - destruct (deadline_entry_returns op log) as (d & log1 & Hd).
    { apply Hall. by left. }
    destruct (IH log1) as (rs & log2 & Hrs & Hids).
    { intros op' Hop'. apply Hall. by right. }
    exists ((id op, d) :: rs), log2. rewrite Promise_all_map_cons, Hd, Hrs.
    simpl. by rewrite Hids.
Qed.

(** Writing the results of a batch keeps the entries there are and adds
    one for every result. *)
Lemma set_results_keys (rs : list (option string * JsDate))
    (cache : gmap (option string) JsDate) :
  let cache' := foldl (fun m r => <[r.1 := r.2]> m) cache rs in
  (forall k, is_Some (cache !! k) -> is_Some (cache' !! k))
  /\ (forall k, k ∈ map fst rs -> is_Some (cache' !! k)).
Proof.
  revert cache. induction rs as [|[k0 d0] rs IH]; intros cache; simpl.
  - split; [done|]. intros k Hk. by apply elem_of_nil in Hk.
  - destruct (IH (<[k0 := d0]> cache)) as [Hkeep Hnew]. split.
    + intros k Hk. apply Hkeep. destruct (decide (k0 = k)) as [->|Hne].
      * rewrite lookup_insert_eq. by eexists.
      * by rewrite lookup_insert_ne.
    + intros k [->|Hk]%elem_of_cons; [|by apply Hnew].
      apply Hkeep. rewrite lookup_insert_eq. by eexists.
Qed.

Lemma slice_batch {B} (l : list B) i :
  slice l i (i + batchSize) = take batchSize (drop i l).
Proof. unfold slice. f_equal. lia. Qed.

(** The loop from index [i] on, when the resolver returns on every record:
    it ends, the batches are the consecutive batches of what was left, and
    the cache has an entry for each of those records. *)
Lemma fetch_loop_complete opps :
  (forall op, op ∈ opps -> resolves op) ->
  forall fuel i cache log done,
    (length opps - i < fuel)%nat ->
    exists cache' log',
      fetch_loop fuel backend opps i cache log done
      = Some {| deadlineMap := Returns cache'; requests := log';
                batches := done ++ chunks batchSize (drop i opps) |}
      /\ (forall k, is_Some (cache !! k) -> is_Some (cache' !! k))
      /\ (forall op, op ∈ drop i opps -> is_Some (cache' !! id op)).
Proof.
  intros Hall. induction fuel as [|fuel IH]; intros i cache log done Hfuel; [lia|].
  simpl fetch_loop. destruct (i <? length opps)%nat eqn:Hi.
  - apply Nat.ltb_lt in Hi. rewrite slice_batch.
    destruct (drop i opps) as [|x rest] eqn:Hdrop.
    { apply (f_equal length) in Hdrop. rewrite length_drop in Hdrop. simpl in Hdrop. lia. }
    destruct (Promise_all_map_returns (take batchSize (x :: rest)) log)
      as (rs & log' & Hrs & Hids).
    { intros op Hop. apply Hall. apply elem_of_take in Hop as (j & Hj & _).
      rewrite <- Hdrop in Hj. rewrite lookup_drop in Hj.
      by apply list_elem_of_lookup_2 in Hj. }
    rewrite Hrs.
    destruct (set_results_keys rs cache) as [Hkeep Hnew].
    destruct (IH (i + batchSize)%nat
                (foldl (fun m r => <[r.1 := r.2]> m) cache rs) log'
                (done ++ [take batchSize (x :: rest)]))
      as (cache' & log'' & Hloop & Hkeep' & Hrest); [unfold batchSize; lia|].
    exists cache', log''. split; [|split].
    + rewrite Hloop, (chunks_cons batchSize x rest) by (unfold batchSize; lia).
      replace (drop batchSize (x :: rest)) with (drop (i + batchSize) opps)
        by (by rewrite <- Hdrop, drop_drop).
      by rewrite <- app_assoc.
    + intros k Hk. by apply Hkeep', Hkeep.
    + intros op Hop.
      rewrite <- (take_drop batchSize (x :: rest)) in Hop.
      apply elem_of_app in Hop as [Hop|Hop].
      * apply Hkeep', Hnew. rewrite Hids. by apply list_elem_of_fmap_2.
      * apply Hrest. rewrite <- Hdrop in Hop. by rewrite drop_drop in Hop.
  - apply Nat.ltb_ge in Hi. rewrite drop_ge by done.
    exists cache, log. rewrite chunks_nil, app_nil_r.
    split; [done|]. split; [done|]. intros op Hop. by apply elem_of_nil in Hop.
Qed.

(** When the synchronous resolver returns on every record, the enrichment
    ends, whatever the backend answers: the records were processed in
    consecutive batches of five, and the cache has an entry for the id of
    every record. *)
Lemma fetchOpportunityDeadlines_complete opps :
  (forall op, op ∈ opps -> resolves op) ->
  exists cache log,
    fetchOpportunityDeadlines backend opps
    = Some {| deadlineMap := Returns cache; requests := log;
              batches := chunks batchSize opps |}
    /\ (forall op, op ∈ opps -> is_Some (cache !! id op)).
Proof.
  intros Hall. unfold fetchOpportunityDeadlines.
  destruct (fetch_loop_complete opps Hall (S (length opps)) 0 ∅ [] [])
    as (cache & log & Hloop & _ & Hkeys); [lia|].
  exists cache, log. by rewrite Hloop.
Qed.
(** The loop ends, whether the enrichment succeeds or not. *)
Lemma fetch_loop_ends opps fuel i cache log done :
  (length opps - i < fuel)%nat ->
  is_Some (fetch_loop fuel backend opps i cache log done).
Proof.
  revert i cache log done. induction fuel as [|fuel IH]; intros i cache log done Hf; [lia|].
  simpl fetch_loop. destruct (i <? length opps)%nat eqn:Hi; [|by eexists].
  apply Nat.ltb_lt in Hi.
  destruct (Promise_all_map _ _ _) as [[rs|] log']; [|by eexists].
  apply IH. unfold batchSize. lia.
Qed.

Lemma fetchOpportunityDeadlines_ends opps :
  is_Some (fetchOpportunityDeadlines backend opps).
Proof. apply fetch_loop_ends. lia. Qed.
End Enrich.

(** Twelve records, a backend that fails every request: three batches, of
    5, 5 and 2 records, twelve requests, and a cache with the twelve ids. *)
Example twelve_records_three_batches :
  exists cache log,
    @fetchOpportunityDeadlines manila (fun _ _ => FetchThrows) twelve
    = Some {| deadlineMap := Returns cache; requests := log;
              batches := chunks batchSize twelve |}
    /\ map length (chunks batchSize twelve) = [5; 5; 2]%nat
    /\ length log = 12%nat
    /\ (forall i, i ∈ twelve_ids -> is_Some (cache !! Some i)).
Proof.
  destruct (@fetchOpportunityDeadlines_complete manila (fun _ _ => FetchThrows) twelve)
    as (cache & log & Hrun & Hkeys).
  { intros op Hop. apply getEarliestDeadline_returns.
    unfold twelve in Hop. apply list_elem_of_fmap in Hop as (i & -> & _). done. }
  exists cache, log. split; [done|]. split; [reflexivity|]. split.
  - revert Hrun. vm_compute. intros [= _ <-]. reflexivity.
  - intros i Hi. apply (Hkeys (record (Some i) (Some "Workshop / Seminar")
      (Some "workshops") None VUndefined (VNumber (Fin 1735689600000)) (Some "verified"))).
    unfold twelve. apply list_elem_of_fmap. exists i. split; [reflexivity | exact Hi].
Qed.

(** C8: the code does not keep the promise.  On a record whose
    [createdAt.toDate()] throws, the fallback of the callback throws as
    well: [Promise.all] rejects, the call to [setOpportunityDeadlines] is
    never reached, and no record gets an entry.  Whether there is a cache
    at all then depends on what the backend answers: there is one when it
    answers a record with milestones.  This is the defect of C4 seen
    through the enrichment; [fetchOpportunityDeadlines_complete] is what
    holds without it. *)
Theorem C8_enrichment_rejects `{Host} :
  fetchOpportunityDeadlines (fun _ _ => FetchNull) [broken_createdAt]
  = Some {| deadlineMap := Throws;
            requests := [ {| fetch_id := "op-1"; fetch_collection := Named "workshops" |} ];
            batches := [[broken_createdAt]] |}
  /\ deadlineMap <$> fetchOpportunityDeadlines (fun _ _ => FetchThrows) [broken_createdAt]
     = Some Throws
  /\ deadlineMap <$> fetchOpportunityDeadlines (fun _ _ => FetchFull full_record)
                       [broken_createdAt]
     = Some (Returns {[ Some "op-1" := Date (Some (MakeDate (MakeDay 2025 10 20) 0)) ]}).
Proof. repeat split; reflexivity. Qed.

(** * Filter, sort and display *)

Section Ranking.
Context {host : Host}.

Lemma toDate_or_new_Date_throws v :
  toDate_or_new_Date v = Throws -> v = VTimestamp Throws.
Proof. by destruct v as [| | | | | | |[t|]|]. Qed.

Lemma by_createdAt_throws descending a b :
  by_createdAt descending a b = Throws ->
  createdAt a = VTimestamp Throws \/ createdAt b = VTimestamp Throws.
Proof.
  unfold by_createdAt.
  destruct (toDate_or_new_Date (createdAt a)) eqn:Ea; simpl;
    [|left; by apply toDate_or_new_Date_throws].
  destruct (toDate_or_new_Date (createdAt b)) eqn:Eb; simpl; [discriminate|].
  right. by apply toDate_or_new_Date_throws.
Qed.

Lemma by_deadline_throws descending a b :
  by_deadline descending a b = Throws ->
  createdAt a = VTimestamp Throws \/ createdAt b = VTimestamp Throws.
Proof.
  unfold by_deadline.
  destruct (getEarliestDeadline a) eqn:Ea; simpl;
    [|left; by apply getEarliestDeadline_throws in Ea as (_ & _ & ?)].
  destruct (getEarliestDeadline b) eqn:Eb; simpl; [discriminate|].
  right. by apply getEarliestDeadline_throws in Eb as (_ & _ & ?).
Qed.

Lemma comparator_throws sortBy compareFn a b :
  comparator sortBy = Some compareFn -> compareFn a b = Throws ->
  createdAt a = VTimestamp Throws \/ createdAt b = VTimestamp Throws.
Proof.
  unfold comparator.
  repeat match goal with
         | |- context [if ?c then _ else _] => destruct c
         end; intros [= <-]; eauto using by_createdAt_throws, by_deadline_throws.
Qed.

(** The sort returns a rearrangement of the array; it throws only if
    [createdAt.toDate()] throws on one of the records. *)
Lemma sortOpportunities_outcome sortBy opps :
  match sortOpportunities sortBy opps with
  | Returns sorted => Permutation opps sorted
  | Throws => exists r, r ∈ opps /\ createdAt r = VTimestamp Throws
  end.
Proof.
  unfold sortOpportunities. destruct (comparator sortBy) as [compareFn|] eqn:Ec; [|done].
  destruct (Array_sort compareFn opps) as [sorted|] eqn:Es.
  - by apply Array_sort_perm in Es.
  - apply Array_sort_throws in Es as (a & b & Ha & Hb & Hab).
    destruct (comparator_throws _ _ _ _ Ec Hab); [by exists a | by exists b].
Qed.

Lemma elem_of_filterOpportunities selectedCategory opps r :
  r ∈ filterOpportunities selectedCategory opps <->
  r ∈ opps /\ keeps selectedCategory r = true.
Proof.
  unfold filterOpportunities. by rewrite !list_elem_of_In, filter_In.
Qed.

End Ranking.



(** C6, as stated, fails: a record whose category is "Resources" passes
    the filter when its [specificCollection] names another partition. *)
Lemma C6_counterexample :
  mislabelled ∈ filterOpportunities "all" [mislabelled]
  /\ normalizes_to_resources (category mislabelled) = true.
Proof. split; [by left | reflexivity]. Qed.

(** C6, amended: a record that passes the filter is one of the input; the
    first non-empty field of [specificCollection] and [category], in lower
    case, is neither "resources" nor "resource"; its [type] is neither of
    the two, compared as it is; and the first populated verification
    status is "verified".  The [category] itself is tested only when
    [specificCollection] is absent or empty. *)
Theorem C6_filter_excludes (selectedCategory : string)
    (opps : list Opportunity) (r : Opportunity) :
  r ∈ filterOpportunities selectedCategory opps ->
  r ∈ opps
  /\ effectiveCollection r <> "resources" /\ effectiveCollection r <> "resource"
  /\ type r <> Some "resources" /\ type r <> Some "resource"
  /\ normalizes_to_resources (specificCollection r) = false
  /\ (str_truthy (specificCollection r) = false ->
      normalizes_to_resources (category r) = false)
  /\ isOpportunityOrganizationVerified r = true.
Proof.
  intros [Hin Hk]%elem_of_filterOpportunities. split; [done|].
  unfold keeps in Hk. cbv zeta in Hk.
  apply andb_true_iff in Hk as [[Hres _]%andb_true_iff Hver].
  unfold isNotResource in Hres.
  apply andb_true_iff in Hres as [[[H1 H2]%andb_true_iff H3]%andb_true_iff H4].
  apply negb_true_iff in H1, H2, H3, H4.
  apply String.eqb_neq in H1 as H1', H2 as H2'.
  apply bool_decide_eq_false in H3, H4.
  repeat (split; [done|]). split; [|split; [|done]].
  - unfold normalizes_to_resources, effectiveCollection in *.
    destruct (specificCollection r) as [s|]; [|done]. simpl in *.
    destruct (String.eqb s "") eqn:Es; simpl in *.
    + apply String.eqb_eq in Es as ->. reflexivity.
    + by rewrite H1, H2.
  - intros Hsc. unfold normalizes_to_resources, effectiveCollection in *.
    rewrite Hsc in *. destruct (category r) as [c|]; [|done]. simpl in *.
    destruct (String.eqb c "") eqn:Ec; simpl in *.
    + apply String.eqb_eq in Ec as ->. reflexivity.
    + by rewrite H1, H2.
Qed.

Lemma C6_filter_excludes_witness :
  study_spot ∈ [study_spot]
  /\ effectiveCollection study_spot <> "resources"
  /\ effectiveCollection study_spot <> "resource"
  /\ type study_spot <> Some "resources" /\ type study_spot <> Some "resource"
  /\ normalizes_to_resources (specificCollection study_spot) = false
  /\ (str_truthy (specificCollection study_spot) = false ->
      normalizes_to_resources (category study_spot) = false)
  /\ isOpportunityOrganizationVerified study_spot = true.
Proof.
  apply (C6_filter_excludes "all" [study_spot] study_spot).
  change (filterOpportunities "all" [study_spot]) with [study_spot]. by left.
Defined.



(** A bookmarked resource of an unverified organization: shown in the
    saved view, left out of the view of all categories. *)
Example saved_resource_is_shown :
  @getDisplayedOpportunities manila "saved" "newest"
     [unverified_resource; study_spot] [unverified_resource]
  = Returns [unverified_resource]
  /\ @getDisplayedOpportunities manila "all" "newest"
       [unverified_resource; study_spot] [unverified_resource]
     = Returns [study_spot].
Proof. split; reflexivity. Qed.

(** * Arrays in the store *)

Section Store.
Context {host : Host}.
Implicit Types σ : gmap positive (list Opportunity).

(** A new array takes a reference that is not in use; the arrays in the
    store stay as they are. *)
Lemma alloc_spec contents σ :
  σ !! (alloc contents σ).1 = None
  /\ (alloc contents σ).2 !! (alloc contents σ).1 = Some contents
  /\ (forall l, is_Some (σ !! l) -> (alloc contents σ).2 !! l = σ !! l).
Proof.
  unfold alloc. simpl.
  assert (Hfresh : σ !! fresh (dom σ) = None).
  { apply not_elem_of_dom, is_fresh. }
  split; [done|]. split; [by rewrite lookup_insert_eq|].
  intros l [xs Hl]. rewrite lookup_insert_ne; [done|]. intros <-. congruence.
Qed.

Lemma filterOpportunities_ref_spec selectedCategory opps σ xs :
  σ !! opps = Some xs ->
  exists filtered σ',
    filterOpportunities_ref selectedCategory opps σ = (Returns filtered, σ')
    /\ filtered <> opps
    /\ σ' !! filtered = Some (filterOpportunities selectedCategory xs)
    /\ (forall l, is_Some (σ !! l) -> σ' !! l = σ !! l).
Proof.
  intros Hopps. unfold filterOpportunities_ref, Array_filter. rewrite Hopps.
  destruct (alloc_spec (List.filter (keeps selectedCategory) xs) σ) as (Hnew & Hget & Hold).
  destruct (alloc _ σ) as [l σ'] eqn:Ea. simpl in *.
  exists l, σ'. split; [done|]. split; [intros ->; congruence|]. done.
Qed.

Lemma sortOpportunities_ref_spec sortBy opps σ xs :
  σ !! opps = Some xs ->
  exists r σ',
    sortOpportunities_ref sortBy opps σ = (r, σ')
    /\ (forall l, is_Some (σ !! l) -> σ' !! l = σ !! l)
    /\ match r with
       | Returns sorted =>
           sorted <> opps
           /\ exists ys, σ' !! sorted = Some ys
                         /\ sortOpportunities sortBy xs = Returns ys
       | Throws => sortOpportunities sortBy xs = Throws
       end.
Proof.
  intros Hopps. unfold sortOpportunities_ref, spread, sortOpportunities. rewrite Hopps.
  destruct (alloc_spec xs σ) as (Hnew & Hget & Hold).
  destruct (alloc xs σ) as [l σ1] eqn:Ea. simpl in *.
  assert (Hne : l <> opps) by (intros ->; congruence).
  destruct (comparator sortBy) as [compareFn|].
  - unfold Array_sort_in_place. rewrite Hget.
    destruct (Array_sort compareFn xs) as [ys|] eqn:Es.
    + exists (Returns l), (<[l := ys]> σ1). split; [done|]. split.
      * intros l' Hl'. rewrite lookup_insert_ne; [by apply Hold|].
        intros <-. destruct Hl' as [? Hl']. congruence.
      * split; [done|]. exists ys. by rewrite lookup_insert_eq.
    + by exists Throws, σ1.
  - exists (Returns l), σ1. split; [done|]. split; [done|]. split; [done|].
    by exists xs.
Qed.
End Store.

(** C10: neither operation touches the array it is given.  The filter
    returns a new array; the sort copies its argument, sorts the copy and
    returns the copy, which for a sort key it does not know is the copy as
    it stands.  The array given, and every other array of the store, holds
    afterwards what it held before; this is so even when the comparator
    throws. *)
Theorem C10_input_array_unchanged `{Host} (σ : gmap positive (list Opportunity))
    (opps : positive) (xs : list Opportunity) (selectedCategory sortBy : string) :
  σ !! opps = Some xs ->
  (exists filtered σ',
     filterOpportunities_ref selectedCategory opps σ = (Returns filtered, σ')
     /\ filtered <> opps
     /\ σ' !! opps = Some xs
     /\ (forall l, is_Some (σ !! l) -> σ' !! l = σ !! l))
  /\ (exists r σ',
        sortOpportunities_ref sortBy opps σ = (r, σ')
        /\ σ' !! opps = Some xs
        /\ (forall l, is_Some (σ !! l) -> σ' !! l = σ !! l)
        /\ match r with
           | Returns sorted =>
               sorted <> opps
               /\ exists ys, σ' !! sorted = Some ys /\ Permutation xs ys
                             /\ (comparator sortBy = None -> ys = xs)
           | Throws =>
               exists a, a ∈ xs /\ createdAt a = VTimestamp Throws
           end).
Proof.
  intros Hopps. split.
  - destruct (filterOpportunities_ref_spec selectedCategory opps σ xs Hopps)
      as (filtered & σ' & Hrun & Hne & _ & Hframe).
    exists filtered, σ'. split; [done|]. split; [done|]. split; [|done].
    rewrite Hframe; [done | by eexists].
  - destruct (sortOpportunities_ref_spec sortBy opps σ xs Hopps)
      as (r & σ' & Hrun & Hframe & Hres).
    exists r, σ'. split; [done|]. split; [rewrite Hframe; [done | by eexists]|].
    split; [done|].
    pose proof (sortOpportunities_outcome sortBy xs) as Hout.
    destruct r as [sorted|].
    + destruct Hres as (Hne & ys & Hys & Hsort). split; [done|].
      exists ys. rewrite Hsort in Hout. split; [done|]. split; [done|].
      intros Hc. unfold sortOpportunities in Hsort. rewrite Hc in Hsort. congruence.
    + by rewrite Hres in Hout.
Qed.

Lemma C10_input_array_unchanged_witness :
  let σ : gmap positive (list Opportunity) := {[ 1%positive := [study_spot; with_milestones] ]} in
  (exists filtered σ',
     filterOpportunities_ref "all" 1%positive σ = (Returns filtered, σ')
     /\ filtered <> 1%positive
     /\ σ' !! 1%positive = Some [study_spot; with_milestones]
     /\ (forall l, is_Some (σ !! l) -> σ' !! l = σ !! l))
  /\ (exists r σ',
        @sortOpportunities_ref manila "deadline-soon" 1%positive σ = (r, σ')
        /\ σ' !! 1%positive = Some [study_spot; with_milestones]
        /\ (forall l, is_Some (σ !! l) -> σ' !! l = σ !! l)
        /\ match r with
           | Returns sorted =>
               sorted <> 1%positive
               /\ exists ys, σ' !! sorted = Some ys
                             /\ Permutation [study_spot; with_milestones] ys
                             /\ (@comparator manila "deadline-soon" = None ->
                                 ys = [study_spot; with_milestones])
           | Throws =>
               exists a, a ∈ [study_spot; with_milestones]
                         /\ createdAt a = VTimestamp Throws
           end).
Proof.
  intros σ.
  apply (@C10_input_array_unchanged manila σ 1%positive
           [study_spot; with_milestones] "all" "deadline-soon").
  reflexivity.
Defined.

(** * The resolver of [Home.tsx], compared *)

Section HomeTsxFacts.
Context {host : Host}.

(** The older resolver has the defect of C4 as well. *)
Lemma home_tsx_throws_on_createdAt :
  HomeTsx.getEarliestDeadline broken_createdAt = Throws.
Proof. reflexivity. Qed.

(** It also throws on a milestone whose [toDate()] throws, which
    [parseFlexibleDate] catches. *)
Lemma home_tsx_throws_on_milestone :
  HomeTsx.getEarliestDeadline broken_milestone = Throws
  /\ getEarliestDeadline broken_milestone = Returns (Date (Some 1763596800000)).
Proof. split; reflexivity. Qed.

Lemma home_tsx_parse_well_formed v :
  HomeTsx.well_formed v = true ->
  HomeTsx.parseMilestoneDate v = Returns None
  \/ exists t, HomeTsx.parseMilestoneDate v = Returns (Some (Date (Some t))).
Proof.
  intros Hw. destruct v as [| |b|n|w|s|[[t|]]|[t|]|]; try discriminate;
    try (by left); try (right; by exists t).
  unfold HomeTsx.parseMilestoneDate. cbv zeta.
  repeat match goal with
         | |- context [valid ?d] =>
             let E := fresh "E" in
             destruct (valid d) eqn:E;
             [right; apply valid_inv in E as [t ->]; by exists t|]
         | |- context [match ?l with [] => _ | _ :: _ => _ end] => destruct l
         end; by left.
Qed.

Lemma home_tsx_instant m t :
  HomeTsx.instant m = Some t <->
  HomeTsx.parseMilestoneDate (date m) = Returns (Some (Date (Some t))).
Proof.
  unfold HomeTsx.instant.
  destruct (HomeTsx.parseMilestoneDate (date m)) as [[[[t'|]]|]|]; split;
    intros; simplify_eq; done.
Qed.

Lemma home_tsx_not_later_trans x y z :
  HomeTsx.not_later x y -> HomeTsx.not_later y z -> HomeTsx.not_later x z.
Proof.
  unfold HomeTsx.not_later.
  destruct (HomeTsx.instant x), (HomeTsx.instant y), (HomeTsx.instant z);
    try done; lia.
Qed.

Lemma home_tsx_by_date_decides ms :
  Forall (fun m => HomeTsx.well_formed (date m) = true) ms ->
  decides HomeTsx.by_date HomeTsx.not_later ms.
Proof.
  intros Hw x y Hx Hy. rewrite Forall_forall in Hw.
  unfold HomeTsx.by_date, HomeTsx.not_later, HomeTsx.instant.
  destruct (home_tsx_parse_well_formed _ (Hw x Hx)) as [->|[tx ->]];
    destruct (home_tsx_parse_well_formed _ (Hw y Hy)) as [->|[ty ->]]; simpl.
  - by exists NaN.
  - by exists PosInf.
  - by exists NegInf.
  - exists (Fin (tx + - ty)). split; [done|]. simpl.
    split; intros Hc; [apply Z.leb_le in Hc | apply Z.leb_gt in Hc]; lia.
Qed.

(** On a list of milestones with well-formed dates the older resolver
    does what C1 asks of it, with its own parser: the result is the date
    of a milestone that parses, and the earliest of them. *)
Lemma home_tsx_earliest_milestone r ms :
  dateMilestones r = Some ms ->
  Forall (fun m => HomeTsx.well_formed (date m) = true) ms ->
  (exists m t0, m ∈ ms /\ HomeTsx.instant m = Some t0) ->
  exists t, HomeTsx.getEarliestDeadline r = Returns (Date (Some t))
    /\ (exists m, m ∈ ms /\ HomeTsx.instant m = Some t)
    /\ (forall m t', m ∈ ms -> HomeTsx.instant m = Some t' -> t <= t').
Proof.
  intros Hms Hw (m0 & t0 & Hm0 & Ht0).
  pose proof (home_tsx_by_date_decides ms Hw) as Hd.
  destruct (Array_sort_total HomeTsx.by_date ms) as (ys & Hs & Hp).
  { intros x y Hx Hy. by apply (decides_no_throw _ _ ms x y Hd). }
  pose proof (Array_sort_first _ _ home_tsx_not_later_trans _ _ Hd Hs) as Hfirst.
  destruct ys as [|y ys].
  { apply Permutation_sym, Permutation_nil in Hp. subst ms. by apply elem_of_nil in Hm0. }
  assert (Hy : y ∈ ms) by (rewrite Hp; by left).
  assert (Hmin : forall m, m ∈ ms -> HomeTsx.not_later y m).
  { intros m Hm. rewrite Hp in Hm. apply elem_of_cons in Hm as [->|Hm]; [|by apply Hfirst].
    unfold HomeTsx.not_later. destruct (HomeTsx.instant y); [lia | done]. }
  destruct (HomeTsx.instant y) as [t|] eqn:Ety.
  2:{ specialize (Hmin m0 Hm0). unfold HomeTsx.not_later in Hmin.
      by rewrite Ety, Ht0 in Hmin. }
  exists t. split; [|split].
  - unfold HomeTsx.getEarliestDeadline, HomeTsx.earliestMilestone. rewrite Hms.
    destruct ms as [|m1 ms1]; [by apply elem_of_nil in Hm0|].
    rewrite Hs. simpl. apply home_tsx_instant in Ety. by rewrite Ety.
  - by exists y.
  - intros m t' Hm Ht'. specialize (Hmin m Hm). unfold HomeTsx.not_later in Hmin.
    by rewrite Ety, Ht' in Hmin.
Qed.

(** An invalid [Date] object is not [null]: its time, [NaN], makes every
    comparison a tie, the object stays first, and the older resolver falls
    back on [createdAt] although another milestone parses.  The newer one
    drops the object. *)
Lemma home_tsx_invalid_date_first :
  HomeTsx.getEarliestDeadline invalid_first
  = Returns (Date (Some (1735689600000 + thirty_days)))
  /\ getEarliestDeadline invalid_first = Returns (Date (Some 1763596800000)).
Proof. split; reflexivity. Qed.

(** On a record with no milestones and no deadline the two resolvers are
    the same. *)
Lemma home_tsx_fallback r :
  has_milestones r = false -> truthy (deadline r) = false ->
  HomeTsx.getEarliestDeadline r = getEarliestDeadline r.
Proof.
  intros Hm Hd.
  unfold HomeTsx.getEarliestDeadline, HomeTsx.earliestMilestone, HomeTsx.singleDeadline,
    getEarliestDeadline, earliestMilestone, singleDeadline, has_milestones in *.
  rewrite Hd. by destruct (dateMilestones r) as [[|m ms]|].
Qed.
End HomeTsxFacts.

(** An engine that takes nothing but the ISO form: the older resolver does
    not read "Nov 18, 2025", the newer one does. *)
Example home_tsx_rejects_textual :
  @HomeTsx.parseMilestoneDate manila (VString "Nov 18, 2025") = Returns None
  /\ @parseFlexibleDate manila (VString "Nov 18, 2025")
     = Some (Date (Some (nov18_utc - 8 * 3600000))).
Proof. split; reflexivity. Qed.

(** * Scenarios of the specification *)

(** A study spot created on 2025-01-01T00:00:00Z, with no deadline and no
    milestones, resolves to 2025-01-31T00:00:00Z. *)
Example study_spot_scenario `{Host} :
  getEarliestDeadline study_spot = Returns (Date (Some (MakeDate (MakeDay 2025 0 31) 0))).
Proof. reflexivity. Qed.

(** The milestone that does not parse is skipped: the earliest of the
    other two is 20 November 2025. *)
Example skipped_milestone_scenario :
  @getEarliestDeadline manila with_milestones
  = Returns (Date (Some (MakeDate (MakeDay 2025 10 20) 0))).
Proof. reflexivity. Qed.

(** * The order of the sorted list *)

Section SortedOutput.
Context {A : Type}.
Variable compareFn : A -> A -> outcome Num.
Variable key : A -> Z.

Lemma insert_sorted_sorted x ys r :
  keyed compareFn key (x :: ys) ->
  StronglySorted (fun a b => key a <= key b) ys ->
  insert_sorted compareFn x ys = Returns r ->
  StronglySorted (fun a b => key a <= key b) r.
Proof.
  revert r. induction ys as [|y ys IH]; intros r Hk Hs; simpl.
  - intros [= <-]. repeat constructor.
  - rewrite (Hk x y); [|by left | by right; left]. simpl.
    apply StronglySorted_cons in Hs as [Hy Hs].
    destruct (key x - key y <=? 0) eqn:E.
    + intros [= <-]. apply Z.leb_le in E.
      apply StronglySorted_cons. split.
      * constructor; [lia|]. eapply Forall_impl; [exact Hy|]. simpl. intros; lia.
      * apply StronglySorted_cons. done.
    + destruct (insert_sorted compareFn x ys) as [r'|] eqn:E'; simpl; [|discriminate].
      intros [= <-]. apply Z.leb_gt in E.
      apply StronglySorted_cons. split.
      * apply insert_sorted_perm in E'. rewrite <- E'. constructor; [lia | done].
      * apply IH; [|done..]. intros a b Ha Hb. apply Hk.
        -- apply elem_of_cons in Ha as [->|Ha]; [by left | by right; right].
        -- apply elem_of_cons in Hb as [->|Hb]; [by left | by right; right].
Qed.

Lemma Array_sort_sorted xs ys :
  keyed compareFn key xs -> Array_sort compareFn xs = Returns ys ->
  StronglySorted (fun a b => key a <= key b) ys.
Proof.
  revert ys. induction xs as [|x xs IH]; intros ys Hk; simpl.
  - intros [= <-]. constructor.
  - destruct (Array_sort compareFn xs) as [s|] eqn:E; simpl; [|discriminate].
    pose proof (Array_sort_perm _ _ _ E) as Hp.
    apply insert_sorted_sorted.
    + intros a b Ha Hb. apply Hk; by rewrite Hp.
    + apply IH; [|done]. intros a b Ha Hb. apply Hk; by right.
Qed.

Lemma insert_sorted_stable k x ys r :
  keyed compareFn key (x :: ys) ->
  insert_sorted compareFn x ys = Returns r ->
  List.filter (fun a => key a =? k) r
  = if key x =? k then x :: List.filter (fun a => key a =? k) ys
    else List.filter (fun a => key a =? k) ys.
Proof.
  revert r. induction ys as [|y ys IH]; intros r Hk; simpl.
  - intros [= <-]. simpl. by destruct (key x =? k).
  - rewrite (Hk x y); [|by left | by right; left]. simpl.
    destruct (key x - key y <=? 0) eqn:E.
    + intros [= <-]. simpl. by destruct (key x =? k).
    + destruct (insert_sorted compareFn x ys) as [r'|] eqn:E'; simpl; [|discriminate].
      intros [= <-]. apply Z.leb_gt in E. simpl.
      rewrite (IH r'); [|
        intros a b Ha Hb; apply Hk;
          [ apply elem_of_cons in Ha as [->|Ha]; [by left | by right; right]
          | apply elem_of_cons in Hb as [->|Hb]; [by left | by right; right] ]
        | done].
      destruct (key x =? k) eqn:Ex; [|done].
      apply Z.eqb_eq in Ex. replace (key y =? k) with false; [done|].
      symmetry. apply Z.eqb_neq. lia.
Qed.

(** Records with the same key come out in the order they went in. *)
Lemma Array_sort_stable k xs ys :
  keyed compareFn key xs -> Array_sort compareFn xs = Returns ys ->
  List.filter (fun a => key a =? k) ys = List.filter (fun a => key a =? k) xs.
Proof.
  revert ys. induction xs as [|x xs IH]; intros ys Hk; simpl.
  - by intros [= <-].
  - destruct (Array_sort compareFn xs) as [s|] eqn:E; simpl; [|discriminate].
    pose proof (Array_sort_perm _ _ _ E) as Hp. intros Hi.
    rewrite (insert_sorted_stable k x s ys); [| |done].
    + rewrite (IH s); [done| |done]. intros a b Ha Hb. apply Hk; by right.
    + intros a b Ha Hb. apply Hk; by rewrite Hp.
Qed.
End SortedOutput.

Section SortOrder.
Context {host : Host}.

Lemma comparator_keyed sortBy compareFn opps :
  comparator sortBy = Some compareFn ->
  (forall r, r ∈ opps -> is_Some (sort_key sortBy r)) ->
  keyed compareFn (sort_rank sortBy) opps.
Proof.
  intros Hc Hkeys a b Ha Hb.
  destruct (Hkeys a Ha) as [ka Hka], (Hkeys b Hb) as [kb Hkb].
  unfold sort_rank. rewrite Hka, Hkb. simpl.
  revert Hc Hka Hkb. unfold comparator, sort_key.
  repeat match goal with
         | |- context [String.eqb sortBy ?s] => destruct (String.eqb sortBy s)
         end; try discriminate; intros [= <-];
    unfold createdAt_time, deadline_time, by_createdAt, by_deadline.
  - destruct (toDate_or_new_Date (createdAt a)) as [[[ta|]]|]; try discriminate.
    destruct (toDate_or_new_Date (createdAt b)) as [[[tb|]]|]; try discriminate.
    simpl. intros [= <-] [= <-]. apply (f_equal Returns), (f_equal Fin). lia.
  - destruct (toDate_or_new_Date (createdAt a)) as [[[ta|]]|]; try discriminate.
    destruct (toDate_or_new_Date (createdAt b)) as [[[tb|]]|]; try discriminate.
    simpl. intros [= <-] [= <-]. apply (f_equal Returns), (f_equal Fin). lia.
  - destruct (getEarliestDeadline a) as [[[ta|]]|]; try discriminate.
    destruct (getEarliestDeadline b) as [[[tb|]]|]; try discriminate.
    simpl. intros [= <-] [= <-]. apply (f_equal Returns), (f_equal Fin). lia.
  - destruct (getEarliestDeadline a) as [[[ta|]]|]; try discriminate.
    destruct (getEarliestDeadline b) as [[[tb|]]|]; try discriminate.
    simpl. intros [= <-] [= <-]. apply (f_equal Returns), (f_equal Fin). lia.
Qed.

Lemma StronglySorted_weaken {B} (R R' : B -> B -> Prop) l :
  (forall a b, a ∈ l -> b ∈ l -> R a b -> R' a b) ->
  StronglySorted R l -> StronglySorted R' l.
Proof.
  intros H Hs. induction Hs as [|x l Hl IH Hx]; constructor.
  - apply IH. intros a b Ha Hb. apply H; by right.
  - rewrite Forall_forall in *. intros y Hy. apply H; [by left | by right | auto].
Qed.

Lemma StronglySorted_reverse {B} (R : B -> B -> Prop) l :
  StronglySorted R l -> StronglySorted (fun a b => R b a) (reverse l).
Proof.
  induction 1 as [|x l Hl IH Hx]; [constructor|].
  rewrite reverse_cons. apply StronglySorted_app_2; [|done|repeat constructor].
  intros x1 x2 Hx1 ->%list_elem_of_singleton.
  rewrite Forall_forall in Hx. apply Hx. by apply elem_of_reverse.
Qed.
End SortOrder.

Lemma sortOpportunities_by_rank `{Host} (sortBy : string) (opps : list Opportunity) :
  (forall r, r ∈ opps -> is_Some (sort_key sortBy r)) ->
  exists sorted,
    sortOpportunities sortBy opps = Returns sorted
    /\ Permutation opps sorted
    /\ StronglySorted (fun a b => sort_rank sortBy a <= sort_rank sortBy b) sorted
    /\ (forall k, List.filter (fun r => sort_rank sortBy r =? k) sorted
                  = List.filter (fun r => sort_rank sortBy r =? k) opps).
Proof.
  intros Hkeys. unfold sortOpportunities.
  destruct (comparator sortBy) as [compareFn|] eqn:Ec.
  - pose proof (comparator_keyed sortBy compareFn opps Ec Hkeys) as Hk.
    destruct (Array_sort_total compareFn opps) as (sorted & Hs & Hp).
    { intros x y Hx Hy. by apply (keyed_no_throw _ _ _ x y Hk). }
    exists sorted. split; [done|]. split; [done|]. split.
    + by apply (Array_sort_sorted compareFn _ opps).
    + intros k. by apply (Array_sort_stable compareFn _ k opps).
  - destruct opps as [|r opps].
    + exists []. repeat split; constructor.
    + destruct (Hkeys r) as [k Hk]; [by left|].
      revert Ec Hk. unfold comparator, sort_key.
      repeat match goal with
             | |- context [String.eqb sortBy ?s] => destruct (String.eqb sortBy s)
             end; discriminate.
Qed.

(** X1.  When every record has the date its sort option orders by (a
    valid [createdAt], or a valid resolved deadline), the sort returns a
    rearrangement of the input in that order: ascending instants for
    "oldest" and "deadline-soon", descending ones for "newest" and
    "deadline-far"; records with the same instant keep the order they
    had in the input. *)
Theorem sortOpportunities_ordered `{Host} (sortBy : string) (opps : list Opportunity) :
  (forall r, r ∈ opps -> is_Some (sort_key sortBy r)) ->
  exists sorted,
    sortOpportunities sortBy opps = Returns sorted
    /\ Permutation opps sorted
    /\ StronglySorted (fun a b => sort_rank sortBy a <= sort_rank sortBy b) sorted
    /\ (forall k, List.filter (fun r => sort_rank sortBy r =? k) sorted
                  = List.filter (fun r => sort_rank sortBy r =? k) opps).
Proof. apply sortOpportunities_by_rank. Qed.

Lemma sortOpportunities_ordered_witness :
  exists sorted,
    @sortOpportunities manila "newest" three_created = Returns sorted
    /\ Permutation three_created sorted
    /\ StronglySorted
         (fun a b => @sort_rank manila "newest" a <= @sort_rank manila "newest" b) sorted
    /\ (forall k, List.filter (fun r => @sort_rank manila "newest" r =? k) sorted
                  = List.filter (fun r => @sort_rank manila "newest" r =? k) three_created).
Proof.
  apply (@sortOpportunities_ordered manila "newest" three_created).
  intros r Hr. unfold three_created in Hr.
  repeat (apply elem_of_cons in Hr as [->|Hr]; [vm_compute; eauto|]).
  by apply elem_of_nil in Hr.
Defined.

(** X2.  When the records have valid [createdAt] dates that are all
    different, sorting by "newest" and then sorting the result by "oldest"
    gives exactly the reverse list. *)
Theorem newest_then_oldest_reverses `{Host} (opps : list Opportunity) :
  (forall r, r ∈ opps -> is_Some (createdAt_time r)) ->
  (forall a b, a ∈ opps -> b ∈ opps -> createdAt_time a = createdAt_time b -> a = b) ->
  exists newest,
    sortOpportunities "newest" opps = Returns newest
    /\ sortOpportunities "oldest" newest = Returns (reverse newest).
Proof.
  intros Hvalid Hinj.
  destruct (sortOpportunities_by_rank "newest" opps) as (newest & Hn & Hpn & Hsn & _).
  { intros r Hr. destruct (Hvalid r Hr) as [t Ht].
    unfold sort_key. simpl. rewrite Ht. by eexists. }
  exists newest. split; [done|].
  destruct (sortOpportunities_by_rank "oldest" newest) as (oldest & Ho & Hpo & Hso & _).
  { intros r Hr. rewrite <- Hpn in Hr. exact (Hvalid r Hr). }
  rewrite Ho. f_equal.
  apply (StronglySorted_unique_strong
           (fun a b => sort_rank "oldest" a <= sort_rank "oldest" b)); [|done| |].
  - intros a b Ha Hb Hab Hba.
    rewrite <- Hpo, <- Hpn in Ha. rewrite elem_of_reverse, <- Hpn in Hb.
    apply Hinj; [done..|].
    destruct (Hvalid a Ha) as [ta Hta], (Hvalid b Hb) as [tb Htb].
    unfold sort_rank, sort_key in Hab, Hba. simpl in Hab, Hba.
    rewrite Hta, Htb in *. simpl in *. f_equal. lia.
  - apply StronglySorted_reverse in Hsn.
    eapply StronglySorted_weaken; [|exact Hsn].
    intros a b Ha Hb Hab. simpl in Hab.
    rewrite elem_of_reverse, <- Hpn in Ha, Hb.
    destruct (Hvalid a Ha) as [ta Hta], (Hvalid b Hb) as [tb Htb].
    unfold sort_rank, sort_key in *. simpl in *.
    rewrite Hta, Htb in *. simpl in *. lia.
  - rewrite <- Hpo. symmetry. apply reverse_Permutation.
Qed.

Lemma newest_then_oldest_reverses_witness :
  exists newest,
    @sortOpportunities manila "newest" three_created = Returns newest
    /\ @sortOpportunities manila "oldest" newest = Returns (reverse newest).
Proof.
  apply (@newest_then_oldest_reverses manila three_created).
  - intros r Hr. unfold three_created in Hr.
    repeat (apply elem_of_cons in Hr as [->|Hr]; [vm_compute; eauto|]).
    by apply elem_of_nil in Hr.
  - intros a b Ha Hb. unfold three_created in Ha, Hb.
    repeat (apply elem_of_cons in Ha as [->|Ha]);
      repeat (apply elem_of_cons in Hb as [->|Hb]);
      try (by apply elem_of_nil in Ha); try (by apply elem_of_nil in Hb);
      vm_compute; intros; congruence.
Defined.

(** * What [parseFlexibleDate] accepts *)

Section FlexibleDate.
Context {host : Host}.

Lemma digit_code c : is_digit c = true -> 48 <= code c <= 57.
Proof. unfold is_digit. intros [?%Z.leb_le ?%Z.leb_le]%andb_true_iff. lia. Qed.

Lemma digit_is_word c : is_digit c = true -> is_word c = true.
Proof. unfold is_word. by intros ->. Qed.

Lemma digit_not_space c : is_digit c = true -> is_space c = false.
Proof.
  intros H%digit_code. unfold is_space.
  apply orb_false_iff. split; [apply andb_false_iff; right|]; lia.
Qed.

Lemma lower_char_word c : is_lower (lower_char c) = true -> is_word c = true.
Proof.
  unfold lower_char, is_word. destruct (is_upper c) eqn:E; [by rewrite orb_true_r|].
  intros ->. by rewrite orb_true_r.
Qed.

Lemma toLowerCase_word s :
  string_forall is_lower (toLowerCase s) = true -> string_forall is_word s = true.
Proof.
  induction s as [|c s IH]; [done|]. simpl.
  intros [Hc Hs]%andb_true_iff. by rewrite (lower_char_word c Hc), IH.
Qed.

Lemma monthNames_key key k :
  monthNames key = Some k ->
  string_forall is_lower key = true /\ key <> "" /\ 0 <= k <= 11.
Proof.
  unfold monthNames.
  repeat match goal with
         | |- context [String.eqb key ?n] =>
             let E := fresh "E" in
             destruct (String.eqb key n) eqn:E;
             [apply String.eqb_eq in E; subst key; simpl;
              intros [= <-]; repeat split; (reflexivity || discriminate || lia)|]
         end.
  discriminate.
Qed.

Lemma span_append p a b :
  string_forall p a = true ->
  match b with EmptyString => True | String c _ => p c = false end ->
  span p (String.append a b) = (a, b).
Proof.
  intros Ha Hb. induction a as [|c a IH]; simpl in *.
  - destruct b as [|c b]; [done|]. simpl. by rewrite Hb.
  - apply andb_true_iff in Ha as [-> Ha]. by rewrite IH.
Qed.

(** The instant [new Date(year, month, day)] stands for, with a year of
    four digits, a month of the table and a day of two digits at most. *)
Lemma new_Date_ymd_valid year month day :
  - msPerDay < LocalTZA < msPerDay ->
  0 <= year <= 9999 -> 0 <= month <= 11 -> 0 <= day <= 99 ->
  new_Date_ymd year month day
  = Date (Some (UTC (MakeDate
       (MakeDay (if (0 <=? year) && (year <=? 99) then 1900 + year else year) month day) 0))).
Proof.
  intros Htz Hy Hm Hd. unfold new_Date_ymd. cbv zeta.
  set (yr := if (0 <=? year) && (year <=? 99) then 1900 + year else year).
  assert (Hyr : 100 <= yr <= 9999).
  { unfold yr. destruct ((0 <=? year) && (year <=? 99)) eqn:E.
    - apply andb_true_iff in E as [?%Z.leb_le ?%Z.leb_le]. lia.
    - apply andb_false_iff in E as [?%Z.leb_gt | ?%Z.leb_gt]; lia. }
  unfold TimeClip. clearbody yr.
  assert (Hr : (Z.abs (UTC (MakeDate (MakeDay yr month day) 0)) <=? maxTime) = true).
  { apply Z.leb_le. unfold UTC, MakeDate, MakeDay, DayFromYear, msPerDay, maxTime in *.
    cbv zeta.
    rewrite (Z.div_small month 12), (Z.mod_small month 12) by lia.
    rewrite !Z.add_0_r.
    assert (Hms : 0 <= monthStart month (InLeapYear yr) <= 335).
    { assert (month = 0 \/ month = 1 \/ month = 2 \/ month = 3 \/ month = 4
              \/ month = 5 \/ month = 6 \/ month = 7 \/ month = 8 \/ month = 9
              \/ month = 10 \/ month = 11) as Hc by lia.
      destruct (InLeapYear yr);
        repeat (destruct Hc as [->|Hc]; [simpl; lia|]); subst; simpl; lia. }
    assert (-4 <= (yr - 1601) / 400 <= 30).
    { split; [apply Z.div_le_lower_bound | apply Z.div_le_upper_bound]; lia. }
    assert (-500 <= (yr - 1969) / 4 <= 2100).
    { split; [apply Z.div_le_lower_bound | apply Z.div_le_upper_bound]; lia. }
    assert (-20 <= (yr - 1901) / 100 <= 100).
    { split; [apply Z.div_le_lower_bound | apply Z.div_le_upper_bound]; lia. }
    lia. }
  by rewrite Hr.
Qed.
End FlexibleDate.

Section MonthNameForm.
Context {host : Host}.

Lemma span_all p a : string_forall p a = true -> span p a = (a, EmptyString).
Proof.
  induction a as [|c a IH]; simpl; [done|].
  intros [-> Ha]%andb_true_iff. by rewrite IH.
Qed.

Lemma comma_not_digit : is_digit "," = false.
Proof. reflexivity. Qed.

Lemma match_month_day_year_parts monthStr day year comma :
  string_forall is_word monthStr = true -> monthStr <> "" ->
  string_forall is_digit day = true ->
  (String.length day = 1 \/ String.length day = 2)%nat ->
  string_forall is_digit year = true -> String.length year = 4%nat ->
  match_month_day_year (month_day_year monthStr day year comma)
  = Some (monthStr, day, year).
Proof.
  intros Hmo Hne Hday Hdl Hyear Hyl.
  destruct day as [|d1 day']; [simpl in Hdl; lia|].
  destruct year as [|y1 year']; [discriminate|].
  pose proof Hday as Hd1. pose proof Hyear as Hy1. simpl in Hd1, Hy1.
  apply andb_true_iff in Hd1 as [Hd1 _]. apply andb_true_iff in Hy1 as [Hy1 _].
  unfold match_month_day_year, month_day_year.
  rewrite (span_append is_word monthStr); [|done|reflexivity].
  rewrite (span_append is_space " "); [|reflexivity | simpl; by apply digit_not_space].
  rewrite (span_append is_digit (String d1 day'));
    [|done | by destruct comma].
  assert (Hsp : span is_space (String " " (String y1 year')) = (" ", String y1 year')).
  { change (String " " (String y1 year')) with (String.append " " (String y1 year')).
    rewrite (span_append is_space " "); [done | reflexivity | simpl; by apply digit_not_space]. }
  cbv zeta.
  destruct comma;
    [change (String.append "," (String.append " " (String y1 year')))
       with (String "," (String " " (String y1 year')))
    |change (String.append "" (String.append " " (String y1 year')))
       with (String " " (String y1 year'))];
    cbv iota; rewrite Hsp;
    rewrite (span_all is_digit (String y1 year')) by done;
    (assert (Hn : nonempty monthStr = true) by (destruct monthStr; [done | reflexivity]));
    rewrite Hn; simpl nonempty; rewrite Hyl;
    destruct Hdl as [-> | ->]; reflexivity.
Qed.

Lemma parseInt_two day :
  string_forall is_digit day = true ->
  (String.length day = 1 \/ String.length day = 2)%nat ->
  0 <= parseInt day <= 99.
Proof.
  intros Hd Hl.
  destruct day as [|d1 [|d2 [|d3 day]]]; simpl in Hl; try lia; simpl in Hd;
    repeat match goal with
           | H : _ && _ = true |- _ => apply andb_true_iff in H as [?%digit_code H]
           end; unfold parseInt; simpl; lia.
Qed.

Lemma parseInt_four year :
  string_forall is_digit year = true -> String.length year = 4%nat ->
  0 <= parseInt year <= 9999.
Proof.
  intros Hd Hl.
  destruct year as [|y1 [|y2 [|y3 [|y4 [|y5 year]]]]]; simpl in Hl; try lia; simpl in Hd.
  repeat match goal with
         | H : _ && _ = true |- _ => apply andb_true_iff in H as [?%digit_code H]
         end; unfold parseInt; simpl; lia.
Qed.
End MonthNameForm.

Lemma month_name_form_parses `{Host} (monthStr day year : string) (comma : bool) (month : Z) :
  - msPerDay < LocalTZA < msPerDay ->
  monthNames (toLowerCase monthStr) = Some month ->
  string_forall is_digit day = true ->
  (String.length day = 1 \/ String.length day = 2)%nat ->
  string_forall is_digit year = true -> String.length year = 4%nat ->
  valid (new_Date_string (month_day_year monthStr day year comma)) = false ->
  parseFlexibleDate (VString (month_day_year monthStr day year comma))
  = Some (Date (Some (UTC (MakeDate
      (MakeDay (if (0 <=? parseInt year) && (parseInt year <=? 99)
                then 1900 + parseInt year else parseInt year)
               month (parseInt day)) 0)))).
Proof.
  intros Htz Hmonth Hday Hdl Hyear Hyl Hengine.
  destruct (monthNames_key _ _ Hmonth) as (Hlow & Hne & Hrange).
  assert (Hmo : monthStr <> "") by (intros ->; by apply Hne).
  unfold parseFlexibleDate.
  assert (Ht : truthy (VString (month_day_year monthStr day year comma)) = true).
  { destruct monthStr; [done | reflexivity]. }
  rewrite Ht. simpl negb. cbv iota zeta. rewrite Hengine.
  unfold parse_month_name_form.
  rewrite match_month_day_year_parts; [|by apply toLowerCase_word | done..].
  rewrite Hmonth. cbv zeta.
  rewrite new_Date_ymd_valid;
    [reflexivity | done | by apply parseInt_four | done | by apply parseInt_two].
Qed.

(** X3.  A date written "Month DD, YYYY" that the engine's own parser does
    not take is still parsed: the month by its three-letter or full name
    in any letter case, the day in one or two digits, the comma present or
    not.  The result is local midnight of that day, as
    [new Date(year, month, day)] gives it. *)
Theorem month_name_dates_parse `{Host} (monthStr day year : string) (comma : bool) (month : Z) :
  - msPerDay < LocalTZA < msPerDay ->
  monthNames (toLowerCase monthStr) = Some month ->
  string_forall is_digit day = true ->
  (String.length day = 1 \/ String.length day = 2)%nat ->
  string_forall is_digit year = true -> String.length year = 4%nat ->
  valid (new_Date_string (month_day_year monthStr day year comma)) = false ->
  parseFlexibleDate (VString (month_day_year monthStr day year comma))
  = Some (Date (Some (UTC (MakeDate
      (MakeDay (if (0 <=? parseInt year) && (parseInt year <=? 99)
                then 1900 + parseInt year else parseInt year)
               month (parseInt day)) 0)))).
Proof. apply month_name_form_parses. Qed.

Lemma month_name_dates_parse_witness :
  @parseFlexibleDate manila (VString (month_day_year "SEPTEMBER" "5" "2026" false))
  = Some (Date (Some (@UTC manila (MakeDate
      (MakeDay (if (0 <=? parseInt "2026") && (parseInt "2026" <=? 99)
                then 1900 + parseInt "2026" else parseInt "2026")
               8 (parseInt "5")) 0)))).
Proof.
  apply (@month_name_dates_parse manila "SEPTEMBER" "5" "2026" false 8);
    first [reflexivity | by left | (vm_compute; split; reflexivity)].
Defined.

Section IsoForm.
Context {host : Host}.

Lemma new_Date_ymd_carries year month day :
  - msPerDay < LocalTZA < msPerDay ->
  0 <= year <= 9999 -> -1 <= month <= 98 -> 0 <= day <= 99 ->
  new_Date_ymd year month day
  = Date (Some (UTC (MakeDate
       (MakeDay (if (0 <=? year) && (year <=? 99) then 1900 + year else year) month day) 0))).
Proof.
  intros Htz Hy Hm Hd. unfold new_Date_ymd. cbv zeta.
  set (yr := if (0 <=? year) && (year <=? 99) then 1900 + year else year).
  assert (Hyr : 100 <= yr <= 9999).
  { unfold yr. destruct ((0 <=? year) && (year <=? 99)) eqn:E.
    - apply andb_true_iff in E as [?%Z.leb_le ?%Z.leb_le]. lia.
    - apply andb_false_iff in E as [?%Z.leb_gt | ?%Z.leb_gt]; lia. }
  unfold TimeClip. clearbody yr.
  assert (Hr : (Z.abs (UTC (MakeDate (MakeDay yr month day) 0)) <=? maxTime) = true).
  { apply Z.leb_le. unfold UTC, MakeDate, MakeDay, DayFromYear, msPerDay, maxTime in *.
    cbv zeta.
    assert (Hq : -1 <= month / 12 <= 8) by (Z.div_mod_to_equations; lia).
    pose proof (Z.mod_pos_bound month 12 ltac:(lia)) as Hmn.
    set (ym := yr + month / 12) in *. set (mn := month mod 12) in *.
    assert (Hym : 99 <= ym <= 10007) by (unfold ym; lia).
    clearbody ym mn.
    rewrite !Z.add_0_r.
    assert (Hms : 0 <= monthStart mn (InLeapYear ym) <= 335).
    { assert (mn = 0 \/ mn = 1 \/ mn = 2 \/ mn = 3 \/ mn = 4
              \/ mn = 5 \/ mn = 6 \/ mn = 7 \/ mn = 8 \/ mn = 9
              \/ mn = 10 \/ mn = 11) as Hc by lia.
      destruct (InLeapYear ym);
        repeat (destruct Hc as [->|Hc]; [simpl; lia|]); subst; simpl; lia. }
    assert (-4 <= (ym - 1601) / 400 <= 30).
    { split; [apply Z.div_le_lower_bound | apply Z.div_le_upper_bound]; lia. }
    assert (-500 <= (ym - 1969) / 4 <= 2100).
    { split; [apply Z.div_le_lower_bound | apply Z.div_le_upper_bound]; lia. }
    assert (-20 <= (ym - 1901) / 100 <= 100).
    { split; [apply Z.div_le_lower_bound | apply Z.div_le_upper_bound]; lia. }
    lia. }
  by rewrite Hr.
Qed.

Lemma append_cons c a b : String.append (String c a) b = String c (String.append a b).
Proof. reflexivity. Qed.

Lemma append_empty b : String.append EmptyString b = b.
Proof. reflexivity. Qed.

Lemma iso_prefixed_not_month_name year month day rest :
  string_forall is_digit year = true ->
  match_month_day_year (iso_prefixed year month day rest) = None.
Proof.
  intros Hy. unfold match_month_day_year, iso_prefixed.
  rewrite (span_append is_word year); [| |reflexivity].
  - change (span is_space (String.append "-" ?r)) with (EmptyString, String.append "-" r).
    cbv iota beta. repeat destruct (span _ _). cbv zeta.
    simpl nonempty. by rewrite andb_false_r.
  - clear -Hy. induction year as [|c y IH]; simpl in *; [done|].
    apply andb_true_iff in Hy as [Hc Hy]. by rewrite (digit_is_word c Hc), IH.
Qed.
End IsoForm.

(** X4.  A string that starts with "YYYY-MM-DD" and that the engine's own
    parser does not take (a day past the end of the month, text after the
    date) is still parsed, by its first ten characters: as the local
    midnight that [new Date(year, month - 1, day)] gives, a month or day
    out of range carrying over into the next ones. *)
Theorem iso_prefix_dates_parse `{Host} (year month day rest : string) :
  - msPerDay < LocalTZA < msPerDay ->
  string_forall is_digit year = true -> String.length year = 4%nat ->
  string_forall is_digit month = true -> String.length month = 2%nat ->
  string_forall is_digit day = true -> String.length day = 2%nat ->
  valid (new_Date_string (iso_prefixed year month day rest)) = false ->
  parseFlexibleDate (VString (iso_prefixed year month day rest))
  = Some (Date (Some (UTC (MakeDate
      (MakeDay (if (0 <=? parseInt year) && (parseInt year <=? 99)
                then 1900 + parseInt year else parseInt year)
               (parseInt month - 1) (parseInt day)) 0)))).
Proof.
  intros Htz Hyear Hyl Hmonth Hml Hday Hdl Hengine.
  pose proof (parseInt_four year Hyear Hyl) as Hy.
  pose proof (parseInt_two month Hmonth (or_intror Hml)) as Hm.
  pose proof (parseInt_two day Hday (or_intror Hdl)) as Hd.
  unfold parseFlexibleDate.
  assert (Ht : truthy (VString (iso_prefixed year month day rest)) = true).
  { destruct year; [discriminate | reflexivity]. }
  rewrite Ht. simpl negb. cbv iota zeta. rewrite Hengine.
  unfold parse_month_name_form. rewrite iso_prefixed_not_month_name by done.
  assert (Hiso : match_iso_prefix (iso_prefixed year month day rest)
                 = Some (year, month, day)).
  { destruct year as [|y1 [|y2 [|y3 [|y4 [|? ?]]]]]; try discriminate.
    destruct month as [|m1 [|m2 [|? ?]]]; try discriminate.
    destruct day as [|d1 [|d2 [|? ?]]]; try discriminate.
    simpl in Hyear, Hmonth, Hday.
    repeat match goal with
           | H : _ && _ = true |- _ => apply andb_true_iff in H as [? H]
           end.
    unfold iso_prefixed, match_iso_prefix.
    repeat first [rewrite append_cons | rewrite append_empty].
    simpl forallb.
    repeat match goal with
           | H : is_digit _ = true |- _ => rewrite H; clear H
           end.
    reflexivity. }
  unfold parse_iso_form. rewrite Hiso. cbv zeta.
  rewrite new_Date_ymd_carries; [reflexivity | done | done | lia | done].
Qed.

Lemma iso_prefix_dates_parse_witness :
  @parseFlexibleDate manila (VString (iso_prefixed "2025" "02" "31" " 9am"))
  = Some (Date (Some (@UTC manila (MakeDate
      (MakeDay (if (0 <=? parseInt "2025") && (parseInt "2025" <=? 99)
                then 1900 + parseInt "2025" else parseInt "2025")
               (parseInt "02" - 1) (parseInt "31")) 0)))).
Proof.
  apply (@iso_prefix_dates_parse manila "2025" "02" "31" " 9am");
    first [reflexivity | (vm_compute; split; reflexivity)].
Defined.


(** * What [parseFlexibleDate] returns *)

(** X5.  [parseFlexibleDate] gives a date only for a truthy value (so
    neither for the number 0 nor for the empty string), and the date it
    gives for a [Date] object, a number or a string is never an invalid
    one: the [Date] object itself; for a number that is an integer, the
    date whose time value is the number; for a number that is not, the
    date whose time value is the number truncated toward zero, as
    [new Date] has it (0.5 is the epoch, where 0 is no date); for a
    string, a valid date read from it. *)
Theorem parseFlexibleDate_result `{Host} (v : Value) (d : JsDate) :
  parseFlexibleDate v = Some d ->
  truthy v = true
  /\ match v with
     | VDate d0 => d = d0 /\ valid d = true
     | VNumber n =>
         getTime d = n /\ valid d = true
         /\ exists t, n = Fin t /\ t <> 0 /\ Z.abs t <= maxTime
     | VFraction truncated =>
         getTime d = Fin truncated /\ valid d = true /\ Z.abs truncated < maxTime
     | VString _ => valid d = true
     | VTimestamp toDate => exists t, toDate = Returns t /\ d = Date (Some t)
     | _ => False
     end.
Proof.
  unfold parseFlexibleDate. destruct (truthy v) eqn:Ht; [|discriminate]. simpl.
  intros Hd. split; [done|].
  destruct v as [| |b|n|w|s|d0|toDate|]; try discriminate.
  - unfold new_Date_number in Hd. cbv zeta in Hd.
    destruct n as [|z| |]; try discriminate. unfold TimeClip in Hd.
    destruct (Z.abs z <=? maxTime) eqn:Hz; [|discriminate].
    injection Hd as <-. split; [done|]. split; [done|].
    exists z. split; [done|]. split; [|by apply Z.leb_le].
    simpl in Ht. intros ->. discriminate Ht.
  - unfold new_Date_fraction in Hd. cbv zeta in Hd.
    destruct (Z.abs w <? maxTime) eqn:Hw; [|discriminate].
    injection Hd as <-. split; [done|]. split; [done|]. by apply Z.ltb_lt.
  - cbv zeta in Hd. destruct (valid (new_Date_string s)) eqn:Hv.
    { by injection Hd as <-. }
    destruct (parse_month_name_form s) as [d1|] eqn:Hm.
    { injection Hd as <-. by apply (parse_month_name_form_valid s). }
    by apply (parse_iso_form_valid s).
  - destruct (isNaN (getTime d0)) eqn:Hn; [discriminate|].
    injection Hd as <-. split; [done|]. unfold valid. by rewrite Hn.
  - destruct toDate as [t|]; [|discriminate]. injection Hd as <-. by exists t.
Qed.

Lemma parseFlexibleDate_result_witness :
  truthy (VFraction 1735689600000) = true
  /\ getTime (Date (Some 1735689600000)) = Fin 1735689600000
  /\ valid (Date (Some 1735689600000)) = true
  /\ Z.abs 1735689600000 < maxTime.
Proof.
  exact (@parseFlexibleDate_result manila (VFraction 1735689600000)
           (Date (Some 1735689600000)) eq_refl).
Defined.

(** The number 0.5 is truthy and [new Date(0.5)] is the epoch: it is a
    date, where the number 0 is none.  The number 1.5 is the date at
    instant 1.  A number that is not an integer and whose integral part is
    the bound of the time values is beyond the range; the bound itself is
    a date. *)
Example fraction_is_truncated `{Host} :
  parseFlexibleDate (VFraction 0) = Some (Date (Some 0))
  /\ parseFlexibleDate (VNumber (Fin 0)) = None
  /\ parseFlexibleDate (VFraction 1) = Some (Date (Some 1))
  /\ parseFlexibleDate (VFraction maxTime) = None
  /\ parseFlexibleDate (VNumber (Fin maxTime)) = Some (Date (Some maxTime)).
Proof. repeat split; reflexivity. Qed.

(** * The stages of the resolver *)

(** X6.  When no milestone parses and the [deadline] field does, the
    resolver returns the parsed [deadline]; [createdAt] is not looked at,
    so the result is the same when its [toDate()] would throw. *)
Theorem deadline_field_resolves `{Host} (r : Opportunity) (d : JsDate) :
  (forall ms m, dateMilestones r = Some ms -> m ∈ ms ->
     parseFlexibleDate (date m) = None) ->
  parseFlexibleDate (deadline r) = Some d ->
  getEarliestDeadline r = Returns d /\ valid d = true.
Proof.
  intros Hms Hd. split.
  - unfold getEarliestDeadline. rewrite (earliestMilestone_none r Hms). simpl.
    unfold singleDeadline.
    assert (Ht : truthy (deadline r) = true).
    { revert Hd. unfold parseFlexibleDate. by destruct (truthy (deadline r)). }
    by rewrite Ht, Hd.
  - destruct (parseFlexibleDate_valid _ _ Hd) as [t ->]. reflexivity.
Qed.

Lemma deadline_field_resolves_witness :
  @getEarliestDeadline manila deadline_only
  = Returns (Date (Some (@UTC manila (MakeDate (MakeDay 2025 11 1) 0))))
  /\ valid (Date (Some (@UTC manila (MakeDate (MakeDay 2025 11 1) 0)))) = true.
Proof.
  apply (@deadline_field_resolves manila deadline_only).
  - intros ms m Hms. discriminate Hms.
  - reflexivity.
Defined.

(** X7.  The resolver does not depend on the order of the milestones: two
    records with the same milestones in different orders, the same
    [deadline] and the same [createdAt] resolve to the same date (or both
    throw). *)
Theorem milestone_order_irrelevant `{Host} (r r' : Opportunity) (ms ms' : list Milestone) :
  dateMilestones r = Some ms -> dateMilestones r' = Some ms' ->
  Permutation ms ms' ->
  deadline r = deadline r' -> createdAt r = createdAt r' ->
  getEarliestDeadline r = getEarliestDeadline r'.
Proof.
  intros Hr Hr' Hp Hdl Hca.
  destruct (decide (Exists (fun m => is_Some (parseFlexibleDate (date m))) ms))
    as [He|Hne].
  - apply Exists_exists in He as (m & Hm & Hsome).
    assert (Hparses : parseFlexibleDate (date m) <> None).
    { intros E. rewrite E in Hsome. by destruct Hsome. }
    destruct (earliestMilestone_some r ms Hr) as (t & Ht & (m1 & Hm1 & Hd1) & Hmin).
    { by exists m. }
    destruct (earliestMilestone_some r' ms' Hr') as (t' & Ht' & (m2 & Hm2 & Hd2) & Hmin').
    { exists m. split; [by rewrite <- Hp | done]. }
    unfold getEarliestDeadline. rewrite Ht, Ht'. simpl.
    assert (t <= t') by (apply (Hmin m2); [by rewrite Hp | done]).
    assert (t' <= t) by (apply (Hmin' m1); [by rewrite <- Hp | done]).
    do 3 f_equal. lia.
  - assert (Hnone : forall m, m ∈ ms -> parseFlexibleDate (date m) = None).
    { intros m Hm. destruct (parseFlexibleDate (date m)) eqn:E; [|done].
      exfalso. apply Hne, Exists_exists. exists m. split; [done|]. rewrite E. by eexists. }
    unfold getEarliestDeadline.
    rewrite (earliestMilestone_none r), (earliestMilestone_none r').
    + unfold singleDeadline, fallbackDate. by rewrite Hdl, Hca.
    + intros ms0 m Hms0 Hm. rewrite Hr' in Hms0. injection Hms0 as <-.
      apply Hnone. by rewrite Hp.
    + intros ms0 m Hms0 Hm. rewrite Hr in Hms0. injection Hms0 as <-. by apply Hnone.
Qed.

Lemma milestone_order_irrelevant_witness :
  @getEarliestDeadline manila with_milestones
  = @getEarliestDeadline manila reversed_milestones.
Proof.
  apply (@milestone_order_irrelevant manila with_milestones reversed_milestones
           sample_milestones (reverse sample_milestones));
    first [reflexivity | symmetry; apply reverse_Permutation].
Defined.

(** * The category views *)

Section CategoryViews.

Lemma matchesCategory_effective selectedCategory r :
  selectedCategory <> "all" -> selectedCategory <> "" ->
  matchesCategory selectedCategory r
  = String.eqb (effectiveCollection r) (toLowerCase selectedCategory).
Proof.
  intros Hall Hne. unfold matchesCategory.
  apply String.eqb_neq in Hall. rewrite Hall. simpl.
  destruct (bool_decide (specificCollection r = Some selectedCategory)) eqn:E; [|done].
  apply bool_decide_eq_true in E. simpl. symmetry. apply String.eqb_eq.
  unfold effectiveCollection. rewrite E. simpl.
  apply String.eqb_neq in Hne. by rewrite Hne.
Qed.

Lemma keeps_category selectedCategory r :
  selectedCategory <> "all" -> selectedCategory <> "" ->
  keeps selectedCategory r
  = keeps "all" r && String.eqb (effectiveCollection r) (toLowerCase selectedCategory).
Proof.
  intros Hall Hne. unfold keeps. rewrite (matchesCategory_effective _ _ Hall Hne).
  change (matchesCategory "all" r) with true.
  by destruct (isNotResource r), (isOpportunityOrganizationVerified r), (String.eqb _ _).
Qed.

Lemma filter_sublist {B} (f : B -> bool) l : sublist (List.filter f l) l.
Proof.
  induction l as [|x l IH]; simpl; [constructor|].
  destruct (f x); by constructor.
Qed.

Lemma filter_both {B} (f g : B -> bool) l :
  List.filter g (List.filter f l) = List.filter (fun x => f x && g x) l.
Proof.
  induction l as [|x l IH]; simpl; [done|].
  destruct (f x); simpl; [|done]. destruct (g x); by rewrite IH.
Qed.
End CategoryViews.

(** X8.  The view of a category other than "all" is the "all" view cut
    down to the records whose effective collection (the first non-empty of
    [specificCollection] and [category], in lower case) is the selected
    value in lower case, in the same order: the exact comparison with
    [specificCollection] adds nothing to the case-insensitive one. *)
Theorem category_view_of_all (selectedCategory : string) (opps : list Opportunity) :
  selectedCategory <> "all" -> selectedCategory <> "" ->
  filterOpportunities selectedCategory opps
  = List.filter
      (fun r => String.eqb (effectiveCollection r) (toLowerCase selectedCategory))
      (filterOpportunities "all" opps)
  /\ sublist (filterOpportunities selectedCategory opps) (filterOpportunities "all" opps).
Proof.
  intros Hall Hne.
  assert (Heq : filterOpportunities selectedCategory opps
                = List.filter
                    (fun r => String.eqb (effectiveCollection r) (toLowerCase selectedCategory))
                    (filterOpportunities "all" opps)).
  { unfold filterOpportunities. rewrite filter_both.
    apply List.filter_ext. intros r. by apply keeps_category. }
  split; [done|]. rewrite Heq. apply filter_sublist.
Qed.

Lemma category_view_of_all_witness :
  filterOpportunities "workshops" twelve
  = List.filter (fun r => String.eqb (effectiveCollection r) (toLowerCase "workshops"))
      (filterOpportunities "all" twelve)
  /\ sublist (filterOpportunities "workshops" twelve) (filterOpportunities "all" twelve).
Proof. apply (category_view_of_all "workshops" twelve); discriminate. Defined.

(** X9.  The category value "resources" of the category bar (and
    "resource", in any letter case) selects nothing: its view is empty
    whatever the records are. *)
Theorem resources_view_empty (selectedCategory : string) (opps : list Opportunity) :
  toLowerCase selectedCategory = "resources" \/ toLowerCase selectedCategory = "resource" ->
  filterOpportunities selectedCategory opps = [].
Proof.
  intros Hsel.
  assert (Hall : selectedCategory <> "all") by (intros ->; by destruct Hsel).
  assert (Hne : selectedCategory <> "") by (intros ->; by destruct Hsel).
  unfold filterOpportunities.
  induction opps as [|r opps IH]; simpl; [done|].
  rewrite (keeps_category _ _ Hall Hne), IH.
  destruct (String.eqb (effectiveCollection r) (toLowerCase selectedCategory)) eqn:E;
    [|by rewrite andb_false_r].
  apply String.eqb_eq in E. unfold keeps, isNotResource. rewrite E.
  by destruct Hsel as [-> | ->].
Qed.

Lemma resources_view_empty_witness :
  filterOpportunities "resources" [unverified_resource; mislabelled; study_spot] = [].
Proof. apply resources_view_empty. by left. Defined.

(** * The requests and the cache of the enrichment *)

Section EnrichLog.
Context {host : Host}.
Variable backend : Backend.

Lemma from_full_data_log r log :
  (getEarliestDeadlineFromFullData backend r log).2 = log ++ requests_for r.
Proof.
  unfold requests_for. destruct (has_milestones r) eqn:Hm.
  - rewrite from_full_data_delegates by done. simpl. by rewrite app_nil_r.
  - rewrite from_full_data_cases by done.
    destruct (request_of r); simpl; [done | by rewrite app_nil_r].
Qed.

Lemma deadline_entry_log op log :
  (deadline_entry backend op log).2 = log ++ requests_for op.
Proof.
  unfold deadline_entry. rewrite <- from_full_data_log.
  by destruct (getEarliestDeadlineFromFullData backend op log).
Qed.

Lemma Promise_all_map_log batch log :
  (Promise_all_map (deadline_entry backend) batch log).2
  = log ++ flat_map requests_for batch.
Proof.
  revert log. induction batch as [|op batch IH]; intros log.
  - simpl. by rewrite app_nil_r.
  - rewrite Promise_all_map_cons.
    pose proof (deadline_entry_log op log) as H1.
    destruct (deadline_entry backend op log) as [r log1]. simpl in H1. subst log1.
    pose proof (IH (log ++ requests_for op)) as H2.
    destruct (Promise_all_map (deadline_entry backend) batch (log ++ requests_for op))
      as [rs log2].
    simpl in H2. subst log2. simpl. by rewrite app_assoc.
Qed.

Lemma requests_for_length r : (length (requests_for r) <= 1)%nat.
Proof.
  unfold requests_for. destruct (has_milestones r); simpl; [lia|].
  destruct (request_of r); simpl; lia.
Qed.

Lemma flat_map_requests_length l :
  (length (flat_map requests_for l) <= length l)%nat.
Proof.
  induction l as [|r l IH]; simpl; [lia|].
  rewrite length_app. pose proof (requests_for_length r). lia.
Qed.

Lemma fetch_loop_log opps fuel : forall i cache log done e,
  fetch_loop fuel backend opps i cache log done = Some e ->
  (exists n, requests e = log ++ flat_map requests_for (take n (drop i opps)))
  /\ (deadlineMap e <> Throws ->
      requests e = log ++ flat_map requests_for (drop i opps)).
Proof.
  induction fuel as [|fuel IH]; intros i cache log done e; [discriminate|].
  simpl fetch_loop. destruct (i <? length opps)%nat eqn:Hi.
  - rewrite slice_batch.
    pose proof (Promise_all_map_log (take batchSize (drop i opps)) log) as Hlog.
    destruct (Promise_all_map (deadline_entry backend) (take batchSize (drop i opps)) log)
      as [[rs|] log'];
      simpl in Hlog; subst log'.
    + intros He. apply IH in He as [[n Hn] Hall]. split.
      * exists (batchSize + n)%nat. rewrite Hn, <- app_assoc, <- flat_map_app.
        by rewrite <- drop_drop, take_take_drop.
      * intros Hok. rewrite (Hall Hok), <- app_assoc, <- flat_map_app.
        by rewrite <- drop_drop, take_drop.
    + intros [= <-]. simpl. split; [by exists batchSize | done].
  - apply Nat.ltb_ge in Hi. intros [= <-]. simpl.
    rewrite drop_ge by done. split; [exists 0%nat|]; by rewrite ?app_nil_r.
Qed.

(** Writing results into the cache: the keys. *)
Lemma set_results_lookup (rs : list (option string * JsDate))
    (cache : gmap (option string) JsDate) k :
  is_Some (foldl (fun m r => <[r.1 := r.2]> m) cache rs !! k)
  <-> is_Some (cache !! k) \/ k ∈ map fst rs.
Proof.
  revert cache. induction rs as [|[k0 d0] rs IH]; intros cache; simpl.
  - split; [by left | intros [?|Hk]; [done | by apply elem_of_nil in Hk]].
  - rewrite IH, elem_of_cons. destruct (decide (k = k0)) as [->|Hne].
    + rewrite lookup_insert_eq. split; [intros _; right; by left | intros _; left; by eexists].
    + rewrite lookup_insert_ne by done.
      split; [intros [?|?]; [by left | by right; right]
             |intros [?|[?|?]]; [by left | done | by right]].
Qed.

(** Writing results into the cache: a key that occurs once. *)
Lemma set_results_notin (rs : list (option string * JsDate))
    (cache : gmap (option string) JsDate) k :
  k ∉ map fst rs ->
  foldl (fun m r => <[r.1 := r.2]> m) cache rs !! k = cache !! k.
Proof.
  revert cache. induction rs as [|[k0 d0] rs IH]; intros cache Hk; simpl; [done|].
  simpl in Hk. apply not_elem_of_cons in Hk as [Hne Hk].
  rewrite IH by done. by rewrite lookup_insert_ne.
Qed.

Lemma set_results_once (rs : list (option string * JsDate))
    (cache : gmap (option string) JsDate) k d :
  NoDup (map fst rs) -> (k, d) ∈ rs ->
  foldl (fun m r => <[r.1 := r.2]> m) cache rs !! k = Some d.
Proof.
  revert cache. induction rs as [|[k0 d0] rs IH]; intros cache Hnd Hin; simpl.
  - by apply elem_of_nil in Hin.
  - simpl in Hnd. apply NoDup_cons in Hnd as [Hk0 Hnd].
    apply elem_of_cons in Hin as [[= -> ->]|Hin].
    + rewrite set_results_notin by done. apply lookup_insert_eq.
    + by apply IH.
Qed.

Section Results.
Variable opps : list Opportunity.
Variable holds : Opportunity -> JsDate -> Prop.
Hypothesis entry_holds : forall op log, op ∈ opps ->
  exists d, (deadline_entry backend op log).1 = Returns (id op, d) /\ holds op d.

Lemma Promise_all_map_results batch log :
  (forall op, op ∈ batch -> op ∈ opps) ->
  exists rs,
    (Promise_all_map (deadline_entry backend) batch log).1 = Returns rs
    /\ Forall2 (fun op r => r.1 = id op /\ holds op r.2) batch rs.
Proof.
  revert log. induction batch as [|op batch IH]; intros log Hin.
  - exists []. split; [done | constructor].
  - rewrite Promise_all_map_cons.
    destruct (entry_holds op log) as (d & Hd & Hh); [apply Hin; by left|].
    destruct (deadline_entry backend op log) as [r log1]. simpl in Hd. subst r.
    destruct (IH log1) as (rs & Hrs & Hall); [intros op' Hop'; apply Hin; by right|].
    destruct (Promise_all_map (deadline_entry backend) batch log1) as [rs' log2].
    simpl in Hrs. subst rs'. exists ((id op, d) :: rs). split; [done|].
    by constructor.
Qed.

Lemma fetch_loop_results fuel : forall i cache log done,
  (length opps - i < fuel)%nat ->
  exists e rs,
    fetch_loop fuel backend opps i cache log done = Some e
    /\ deadlineMap e = Returns (foldl (fun m r => <[r.1 := r.2]> m) cache rs)
    /\ Forall2 (fun op r => r.1 = id op /\ holds op r.2) (drop i opps) rs.
Proof.
  induction fuel as [|fuel IH]; intros i cache log done Hfuel; [lia|].
  simpl fetch_loop. destruct (i <? length opps)%nat eqn:Hi.
  - apply Nat.ltb_lt in Hi. rewrite slice_batch.
    destruct (Promise_all_map_results (take batchSize (drop i opps)) log)
      as (rs & Hrs & Hall).
    { intros op Hop. apply elem_of_take in Hop as (j & Hj & _).
      rewrite lookup_drop in Hj. by apply list_elem_of_lookup_2 in Hj. }
    destruct (Promise_all_map (deadline_entry backend) (take batchSize (drop i opps)) log)
      as [r log'].
    simpl in Hrs. subst r.
    destruct (IH (i + batchSize)%nat
                (foldl (fun m r => <[r.1 := r.2]> m) cache rs) log'
                (done ++ [take batchSize (drop i opps)]))
      as (e & rs' & He & Hmap & Hall'); [unfold batchSize; lia|].
    exists e, (rs ++ rs'). split; [done|]. split.
    + by rewrite foldl_app.
    + rewrite <- (take_drop batchSize (drop i opps)), drop_drop.
      by apply Forall2_app.
  - apply Nat.ltb_ge in Hi. exists {| deadlineMap := Returns cache; requests := log;
                                      batches := done |}, [].
    split; [done|]. split; [done|]. rewrite drop_ge by done. constructor.
Qed.

Lemma fetchOpportunityDeadlines_results :
  exists e rs,
    fetchOpportunityDeadlines backend opps = Some e
    /\ deadlineMap e = Returns (foldl (fun m r => <[r.1 := r.2]> m) ∅ rs)
    /\ Forall2 (fun op r => r.1 = id op /\ holds op r.2) opps rs.
Proof.
  unfold fetchOpportunityDeadlines.
  destruct (fetch_loop_results (S (length opps)) 0 ∅ [] []) as (e & rs & He & Hm & Hall);
    [lia|].
  exists e, rs. by rewrite drop_0 in Hall.
Qed.
End Results.

Lemma results_keys {P : Opportunity -> JsDate -> Prop} opps
    (rs : list (option string * JsDate)) :
  Forall2 (fun op r => r.1 = id op /\ P op r.2) opps rs ->
  map fst rs = map id opps.
Proof. induction 1 as [|op r opps rs [Hk _] _ IH]; simpl; [done | by rewrite Hk, IH]. Qed.

(** With a backend that has no milestones to add, the asynchronous
    resolver gives what the synchronous one gives. *)
Lemma from_full_data_preview r log :
  (forall n call full, backend n call = FetchFull full -> dateMilestones full = None) ->
  (getEarliestDeadlineFromFullData backend r log).1 = getEarliestDeadline r.
Proof.
  intros Hb. destruct (has_milestones r) eqn:Hm.
  - by rewrite from_full_data_delegates.
  - rewrite from_full_data_cases by done.
    destruct (request_of r) as [call|]; [|done]. simpl.
    destruct (backend (length log) call) as [full| |] eqn:E; [|done..].
    by rewrite (Hb _ _ _ E).
Qed.
End EnrichLog.

Section EnrichStop.
Context {host : Host}.
Variable backend : Backend.

Lemma log_before_S opps i op :
  opps !! i = Some op ->
  log_before opps (S i) = log_before opps i ++ requests_for op.
Proof.
  intros Hi. unfold log_before. rewrite (take_S_r _ _ _ Hi), flat_map_app.
  simpl. by rewrite app_nil_r.
Qed.

Lemma log_before_add opps i n :
  log_before opps (i + n)
  = log_before opps i ++ flat_map requests_for (take n (drop i opps)).
Proof. unfold log_before. by rewrite <- flat_map_app, take_take_drop. Qed.

Lemma rejects_beyond opps j :
  (length opps <= j)%nat -> rejects backend opps j = false.
Proof. intros Hj. unfold rejects. by rewrite lookup_ge_None_2. Qed.

(** A batch rejects exactly when the callback of one of its records
    does. *)
Lemma Promise_all_map_rejects opps batch : forall i rest,
  drop i opps = batch ++ rest ->
  (Promise_all_map (deadline_entry backend) batch (log_before opps i)).1 = Throws
  <-> exists j, (i <= j < i + length batch)%nat /\ rejects backend opps j = true.
Proof.
  induction batch as [|op batch IH]; intros i rest Hdrop.
  - simpl. split; [discriminate | intros (j & Hj & _); lia].
  - assert (Hi : opps !! i = Some op).
    { rewrite <- (Nat.add_0_r i), <- lookup_drop, Hdrop. reflexivity. }
    assert (Hnext : drop (S i) opps = batch ++ rest).
    { rewrite (drop_S _ _ _ Hi) in Hdrop. by injection Hdrop. }
    rewrite Promise_all_map_cons.
    pose proof (deadline_entry_log backend op (log_before opps i)) as Hlog.
    assert (Hrej : rejects backend opps i
                   = match (deadline_entry backend op (log_before opps i)).1 with
                     | Returns _ => false
                     | Throws => true
                     end) by (unfold rejects; by rewrite Hi).
    destruct (deadline_entry backend op (log_before opps i)) as [r log1].
    simpl in Hlog, Hrej. subst log1. rewrite <- (log_before_S opps i op Hi).
    specialize (IH (S i) rest Hnext).
    destruct (Promise_all_map (deadline_entry backend) batch (log_before opps (S i)))
      as [rs log2].
    simpl in IH. simpl length. destruct r as [v|]; simpl.
    + split.
      * intros Hrs. assert (Hrs' : rs = Throws) by (by destruct rs).
        apply IH in Hrs' as (j & Hj & Hr). exists j. split; [lia | done].
      * intros (j & Hj & Hr). destruct (decide (j = i)) as [->|Hne]; [congruence|].
        assert (Hrs : rs = Throws) by (apply IH; exists j; split; [lia | done]).
        by rewrite Hrs.
    + split; [|done]. intros _. exists i. split; [lia | done].
Qed.

(** The loop, from the start of batch [k] on, when no callback rejected
    before: it goes on to the end of the first batch in which a callback
    rejects, and to the end of the records when there is none. *)
Lemma fetch_loop_stops opps fuel : forall k cache done,
  (length opps - k * batchSize < fuel)%nat ->
  (forall j, (j < k * batchSize)%nat -> rejects backend opps j = false) ->
  exists e,
    fetch_loop fuel backend opps (k * batchSize) cache
      (log_before opps (k * batchSize)) done = Some e
    /\ ((forall j, rejects backend opps j = false) ->
        deadlineMap e <> Throws /\ requests e = flat_map requests_for opps)
    /\ (forall j, rejects backend opps j = true ->
        (forall i, (i < j)%nat -> rejects backend opps i = false) ->
        deadlineMap e = Throws
        /\ requests e = log_before opps (batchSize * (j / batchSize + 1))).
Proof.
  induction fuel as [|fuel IH]; intros k cache done Hfuel Hbefore; [lia|].
  simpl fetch_loop. destruct (k * batchSize <? length opps)%nat eqn:Hi.
  - apply Nat.ltb_lt in Hi. rewrite slice_batch.
    set (i := (k * batchSize)%nat) in *.
    pose proof (Promise_all_map_rejects opps (take batchSize (drop i opps)) i
                  (drop batchSize (drop i opps))
                  (eq_sym (take_drop batchSize (drop i opps)))) as Hrej.
    pose proof (Promise_all_map_log backend (take batchSize (drop i opps))
                  (log_before opps i)) as Hlog.
    rewrite <- log_before_add in Hlog.
    assert (Hlen : length (take batchSize (drop i opps))
                   = Nat.min batchSize (length opps - i))
      by (by rewrite length_take, length_drop).
    replace (i + batchSize)%nat with (S k * batchSize)%nat in * by (unfold i; lia).
    destruct (Promise_all_map (deadline_entry backend) (take batchSize (drop i opps))
                (log_before opps i)) as [[rs|] log'];
      simpl in Hrej, Hlog; subst log'.
    + apply IH; [unfold batchSize in *; lia|].
      intros j Hj. destruct (rejects backend opps j) eqn:Hr; [|done].
      destruct (decide (j < i)%nat) as [Hlt|Hge]; [by rewrite (Hbefore j Hlt) in Hr|].
      destruct (decide (j < length opps)%nat) as [Hin|Hout];
        [|rewrite rejects_beyond in Hr by lia; done].
      assert (Hthrows : Returns rs = @Throws (list (option string * JsDate))).
      { apply Hrej. exists j. split; [|done]. unfold batchSize in *. lia. }
      discriminate Hthrows.
    + eexists. split; [reflexivity|]. cbn [deadlineMap requests].
      destruct (proj1 Hrej eq_refl) as (j' & Hj' & Hr'). split.
      * intros Hnone. by rewrite Hnone in Hr'.
      * intros j Hr Hfirst. split; [done|].
        assert (Hji : (i <= j)%nat).
        { destruct (decide (i <= j)%nat) as [|Hn]; [done|].
          rewrite Hbefore in Hr by lia. done. }
        assert (Hjj : (j <= j')%nat).
        { destruct (decide (j <= j')%nat) as [|Hn]; [done|].
          rewrite Hfirst in Hr' by lia. done. }
        assert (Hq : (j / batchSize = k)%nat).
        { symmetry. apply (Nat.div_unique j batchSize k (j - i));
            unfold i, batchSize in *; lia. }
        rewrite Hq. f_equal. unfold batchSize. lia.
  - apply Nat.ltb_ge in Hi. eexists. split; [reflexivity|].
    cbn [deadlineMap requests]. split.
    + intros _. split; [done|]. unfold log_before. by rewrite take_ge.
    + intros j Hr Hfirst.
      destruct (decide (j < length opps)%nat) as [Hin|Hout].
      * rewrite Hbefore in Hr by lia. done.
      * rewrite rejects_beyond in Hr by lia. done.
Qed.
End EnrichStop.

(** X10.  The requests of the enrichment depend on the records alone, not
    on the answers: they are the requests of the records in order (one for
    a record without milestones that has an id and a category of one of
    the five partitions, none for any other), up to the end of the batch
    in which a callback rejected, and all of them when none did.  The
    batch is that of the first record whose callback rejects: with [j] its
    index, the requests are those of the first [5 * (j / 5 + 1)] records.
    There is never more than one request per record. *)
Theorem enrichment_requests `{Host} (backend : Backend) (opps : list Opportunity) :
  exists e,
    fetchOpportunityDeadlines backend opps = Some e
    /\ (length (requests e) <= length opps)%nat
    /\ (deadlineMap e <> Throws -> requests e = flat_map requests_for opps)
    /\ ((forall j, rejects backend opps j = false) ->
        deadlineMap e <> Throws /\ requests e = flat_map requests_for opps)
    /\ (forall j, rejects backend opps j = true ->
        (forall i, (i < j)%nat -> rejects backend opps i = false) ->
        deadlineMap e = Throws
        /\ requests e
           = flat_map requests_for (take (batchSize * (j / batchSize + 1)) opps)).
Proof.
  destruct (fetch_loop_stops backend opps (S (length opps)) 0 ∅ [])
    as (e & He & Hnone & Hfirst); [simpl; lia | intros j Hj; simpl in Hj; lia |].
  exists e. split; [exact He|].
  destruct (fetch_loop_log backend opps _ _ _ _ _ e He) as [[n Hn] Hall].
  rewrite drop_0 in Hn, Hall. simpl in Hn, Hall.
  split; [|split; [done|split; [done|]]].
  - rewrite Hn. etrans; [apply flat_map_requests_length|].
    rewrite length_take. lia.
  - intros j Hr Hbefore. by apply Hfirst.
Qed.

(** Thirteen records of which the seventh makes its callback reject, a
    backend that answers [null]: the enrichment rejects in the second
    batch, after the requests of the first ten records. *)
Example enrichment_stops_after_rejected_batch :
  @rejects manila (fun _ _ => FetchNull) thirteen 6 = true
  /\ (forall i, (i < 6)%nat -> @rejects manila (fun _ _ => FetchNull) thirteen i = false)
  /\ exists e,
       @fetchOpportunityDeadlines manila (fun _ _ => FetchNull) thirteen = Some e
       /\ deadlineMap e = Throws
       /\ requests e = flat_map requests_for (take 10 thirteen)
       /\ length (requests e) = 10%nat
       /\ map length (batches e) = [5; 5]%nat.
Proof.
  split; [vm_compute; reflexivity|]. split.
  - intros i Hi. do 6 (destruct i as [|i]; [vm_compute; reflexivity|]). lia.
  - eexists. split; [vm_compute; reflexivity|]. repeat split; vm_compute; reflexivity.
Qed.

(** X11.  When the synchronous resolver returns on every record, the cache
    handed to [setOpportunityDeadlines] has the ids of the records as its
    keys and no other key, whatever the backend answers. *)
Theorem enrichment_cache_keys `{Host} (backend : Backend) (opps : list Opportunity) :
  (forall op, op ∈ opps -> resolves op) ->
  exists cache,
    deadlineMap <$> fetchOpportunityDeadlines backend opps = Some (Returns cache)
    /\ (forall k, is_Some (cache !! k) <-> k ∈ map id opps).
Proof.
  intros Hall.
  destruct (fetchOpportunityDeadlines_results backend opps (fun _ _ => True))
    as (e & rs & He & Hmap & Hrs).
  { intros op log Hop.
    destruct (deadline_entry_returns backend op log (Hall op Hop)) as (d & log' & Hd).
    exists d. by rewrite Hd. }
  eexists. rewrite He. simpl. rewrite Hmap. split; [done|].
  intros k.
  rewrite set_results_lookup, lookup_empty, (results_keys (P := fun _ _ => True) opps rs Hrs).
  split; [intros [[? [=]]|?]; done | by right].
Qed.

Lemma enrichment_cache_keys_witness :
  exists cache,
    deadlineMap <$> @fetchOpportunityDeadlines manila (fun _ _ => FetchThrows) twelve
    = Some (Returns cache)
    /\ (forall k, is_Some (cache !! k) <-> k ∈ map id twelve).
Proof.
  apply (@enrichment_cache_keys manila (fun _ _ => FetchThrows) twelve).
  intros op Hop. apply getEarliestDeadline_returns.
  unfold twelve in Hop. apply list_elem_of_fmap in Hop as (i & -> & _). done.
Defined.

Lemma enrichment_preview_cache `{Host} (backend : Backend) (opps : list Opportunity) :
  (forall n call full, backend n call = FetchFull full -> dateMilestones full = None) ->
  (forall op, op ∈ opps -> resolves op) ->
  NoDup (map id opps) ->
  exists cache,
    deadlineMap <$> fetchOpportunityDeadlines backend opps = Some (Returns cache)
    /\ (forall op, op ∈ opps ->
          Returns <$> cache !! id op = Some (getEarliestDeadline op)
          /\ cardDeadline cache op = cardDeadline ∅ op).
Proof.
  intros Hb Hall Hnd.
  destruct (fetchOpportunityDeadlines_results backend opps
              (fun op d => getEarliestDeadline op = Returns d))
    as (e & rs & He & Hmap & Hrs).
  { intros op log Hop. destruct (Hall op Hop) as [d Hd]. exists d. split; [|done].
    unfold deadline_entry.
    pose proof (from_full_data_preview backend op log Hb) as Hp.
    destruct (getEarliestDeadlineFromFullData backend op log) as [r log'].
    simpl in Hp. subst r. by rewrite Hd. }
  eexists. rewrite He. simpl. rewrite Hmap. split; [done|].
  intros op Hop.
  assert (Hentry : exists d, (id op, d) ∈ rs /\ getEarliestDeadline op = Returns d).
  { apply list_elem_of_lookup in Hop as [j Hj].
    destruct (Forall2_lookup_l _ _ _ _ _ Hrs Hj) as ([k d] & Hr & Hk & Hd).
    simpl in Hk, Hd. subst k. exists d. split; [|done].
    by apply list_elem_of_lookup_2 in Hr. }
  destruct Hentry as (d & Hin & Hd).
  assert (Hlook : foldl (fun m r => <[r.1 := r.2]> m)
                    (∅ : gmap (option string) JsDate) rs !! id op = Some d).
  { apply set_results_once; [|done].
    by rewrite (results_keys (P := fun op d => getEarliestDeadline op = Returns d)
                  opps rs Hrs). }
  unfold cardDeadline. rewrite Hlook, lookup_empty, Hd. done.
Qed.

(** X12.  When the backend has no milestones to add (it fails, answers
    [null], or answers records without a [dateMilestones] field), the
    resolver returns on every record and the ids are all different, the
    cache holds for each record the date that the synchronous resolver
    gives: the date on a card is the same before and after the
    enrichment. *)
Theorem enrichment_keeps_card_dates `{Host} (backend : Backend) (opps : list Opportunity) :
  (forall n call full, backend n call = FetchFull full -> dateMilestones full = None) ->
  (forall op, op ∈ opps -> resolves op) ->
  NoDup (map id opps) ->
  exists cache,
    deadlineMap <$> fetchOpportunityDeadlines backend opps = Some (Returns cache)
    /\ (forall op, op ∈ opps ->
          Returns <$> cache !! id op = Some (getEarliestDeadline op)
          /\ cardDeadline cache op = cardDeadline ∅ op).
Proof. apply enrichment_preview_cache. Qed.

Lemma enrichment_keeps_card_dates_witness :
  exists cache,
    deadlineMap <$> @fetchOpportunityDeadlines manila (fun _ _ => FetchNull) twelve
    = Some (Returns cache)
    /\ (forall op, op ∈ twelve ->
          Returns <$> cache !! id op = Some (@getEarliestDeadline manila op)
          /\ @cardDeadline manila cache op = @cardDeadline manila ∅ op).
Proof.
  apply (@enrichment_keeps_card_dates manila (fun _ _ => FetchNull) twelve).
  - intros n call full Hf. discriminate Hf.
  - intros op Hop. apply getEarliestDeadline_returns.
    unfold twelve in Hop. apply list_elem_of_fmap in Hop as (i & -> & _). done.
  - apply (bool_decide_unpack _). vm_compute. reflexivity.
Defined.

(** * The asynchronous resolver *)

(** X13.  [getEarliestDeadlineFromFullData] makes the request of the
    record and no other, whatever the backend answers and whatever was
    asked before: at most one, and none for a record that has milestones,
    has no id or an empty one, or whose category is none of the five
    partitions; when it makes none, its result is that of the synchronous
    resolver. *)
Theorem async_resolver_request `{Host} (backend : Backend) (r : Opportunity)
    (log : list FetchCall) :
  (getEarliestDeadlineFromFullData backend r log).2 = log ++ requests_for r
  /\ (length (requests_for r) <= 1)%nat
  /\ (requests_for r = [] ->
      (getEarliestDeadlineFromFullData backend r log).1 = getEarliestDeadline r)
  /\ (has_milestones r = true \/ id r = None \/ id r = Some ""
      \/ getCollectionNameForCategory
           (if str_truthy (category r) then category r else specificCollection r)
         = Named "opportunities" ->
      requests_for r = []).
Proof.
  split; [apply from_full_data_log|]. split; [apply requests_for_length|]. split.
  - unfold requests_for. destruct (has_milestones r) eqn:Hm.
    + intros _. by rewrite from_full_data_delegates.
    + intros Hreq. rewrite from_full_data_cases by done.
      by destruct (request_of r).
  - unfold requests_for, request_of.
    intros [-> | [-> | [-> | ->]]]; try done; destruct (has_milestones r); try done.
    destruct (id r) as [i|]; [|done]. simpl. by rewrite andb_false_r.
Qed.

(** X14.  For a record without milestones whose request the backend
    answers with a record that has a [dateMilestones] array, the result is
    what the synchronous resolver gives on the answered record; when the
    resolver throws on it, what it gives on the record itself. *)
Theorem async_resolver_uses_full_record `{Host} (backend : Backend)
    (r full : Opportunity) (ms : list Milestone) (call : FetchCall) (log : list FetchCall) :
  has_milestones r = false ->
  request_of r = Some call ->
  backend (length log) call = FetchFull full ->
  dateMilestones full = Some ms ->
  getEarliestDeadlineFromFullData backend r log
  = (match getEarliestDeadline full with
     | Returns d => Returns d
     | Throws => getEarliestDeadline r
     end, log ++ [call]).
Proof.
  intros Hm Hreq Hb Hms. rewrite from_full_data_cases by done.
  rewrite Hreq, Hb, Hms. by destruct (getEarliestDeadline full).
Qed.

Lemma async_resolver_uses_full_record_witness :
  @getEarliestDeadlineFromFullData manila (fun _ _ => FetchFull full_record)
    broken_createdAt []
  = (match @getEarliestDeadline manila full_record with
     | Returns d => Returns d
     | Throws => @getEarliestDeadline manila broken_createdAt
     end,
     [] ++ [ {| fetch_id := "op-1"; fetch_collection := Named "workshops" |} ]).
Proof.
  apply (@async_resolver_uses_full_record manila (fun _ _ => FetchFull full_record)
           broken_createdAt full_record
           [ {| name := "Closes"; date := VString "2025-11-20" |} ]);
    reflexivity.
Defined.

(** * The two resolvers *)

Section TwoResolvers.
Context {host : Host}.

Lemma readable_parse v :
  engine_readable v = true ->
  exists t, parseFlexibleDate v = Some (Date (Some t))
            /\ HomeTsx.parseMilestoneDate v = Returns (Some (Date (Some t))).
Proof.
  destruct v as [| |b|n|w|s|d|[t|]|]; try discriminate.
  - unfold engine_readable. intros [Hne Hv]%andb_true_iff.
    destruct (valid_inv _ Hv) as [t Ht].
    exists t. unfold parseFlexibleDate, HomeTsx.parseMilestoneDate.
    change (truthy (VString s)) with (nonempty s). rewrite Hne. cbv zeta.
    rewrite Hv. cbn [negb].
    split; [exact (f_equal Some Ht) | exact (f_equal (fun d => Returns (Some d)) Ht)].
  - unfold engine_readable. intros Hv. destruct (valid_inv _ Hv) as [t ->]. by exists t.
  - intros _. by exists t.
Qed.

Lemma readable_well_formed v :
  engine_readable v = true -> HomeTsx.well_formed v = true.
Proof. by destruct v as [| |b|n|w|s|[[t|]]|[t|]|]. Qed.

Lemma readable_single r :
  truthy (deadline r) = false \/ engine_readable (deadline r) = true ->
  HomeTsx.singleDeadline r = Returns (singleDeadline r).
Proof.
  unfold HomeTsx.singleDeadline, singleDeadline.
  intros [Hf|Hr]; [by rewrite Hf|].
  destruct (readable_parse _ Hr) as (t & Hp & _). rewrite Hp.
  destruct (deadline r) as [| |b|n|w|s|[[t'|]]|[t'|]|]; try discriminate.
  - unfold engine_readable in Hr. apply andb_true_iff in Hr as [Hne Hv].
    change (truthy (VString s)) with (nonempty s). rewrite Hne.
    revert Hp. unfold parseFlexibleDate.
    change (truthy (VString s)) with (nonempty s). rewrite Hne. cbv zeta.
    rewrite Hv. cbn [negb]. intros Hd%(inj Some).
    change (toDate_or_new_Date (VString s)) with (Returns (new_Date_string s)).
    by rewrite Hd.
  - revert Hp. unfold parseFlexibleDate. simpl. by intros [= <-].
  - revert Hp. unfold parseFlexibleDate. simpl. by intros [= <-].
Qed.

Lemma readable_resolvers_agree r :
  (forall ms m, dateMilestones r = Some ms -> m ∈ ms ->
     engine_readable (date m) = true) ->
  truthy (deadline r) = false \/ engine_readable (deadline r) = true ->
  HomeTsx.getEarliestDeadline r = getEarliestDeadline r.
Proof.
  intros Hms Hdl.
  assert (Hlater : dateMilestones r = None \/ dateMilestones r = Some [] ->
                   HomeTsx.getEarliestDeadline r = getEarliestDeadline r).
  { intros Hnone.
    unfold HomeTsx.getEarliestDeadline, getEarliestDeadline,
      HomeTsx.earliestMilestone, earliestMilestone.
    rewrite (readable_single r Hdl).
    by destruct Hnone as [-> | ->]. }
  destruct (dateMilestones r) as [[|m0 ms]|] eqn:E; [by apply Hlater; right | | by apply Hlater; left].
  clear Hlater.
  destruct (readable_parse _ (Hms _ m0 eq_refl ltac:(by left))) as (t0 & Hp0 & Hq0).
  destruct (home_tsx_earliest_milestone r (m0 :: ms) E)
    as (t & Ht & (m1 & Hm1 & Hi1) & Hmin).
  { apply Forall_forall. intros m Hm. apply readable_well_formed. by apply (Hms _ m eq_refl). }
  { exists m0, t0. split; [by left|]. by apply home_tsx_instant. }
  destruct (earliestMilestone_some r (m0 :: ms) E)
    as (t' & Ht' & (m2 & Hm2 & Hp2) & Hmin').
  { exists m0. split; [by left|]. by rewrite Hp0. }
  rewrite Ht. unfold getEarliestDeadline. rewrite Ht'. simpl.
  assert (Hsame : forall m u, m ∈ m0 :: ms ->
            (HomeTsx.instant m = Some u <-> parseFlexibleDate (date m) = Some (Date (Some u)))).
  { intros m u Hm. rewrite home_tsx_instant.
    destruct (readable_parse _ (Hms _ m eq_refl Hm)) as (tm & Hp & Hq).
    rewrite Hp, Hq. split; intros [= ->]; done. }
  assert (t <= t') by (apply (Hmin m2); [done | by apply Hsame]).
  assert (t' <= t) by (apply (Hmin' m1); [done | by apply Hsame]).
  do 3 f_equal. lia.
Qed.
End TwoResolvers.

(** X15.  The resolver of [Home.tsx], on a record whose milestones all
    have well-formed dates (no [toDate()] that throws, no invalid [Date]
    object) and of which one parses with the engine's parser: it returns
    the date of a milestone that parses, and no milestone parses to an
    earlier one. *)
Theorem home_resolver_earliest_milestone `{Host} (r : Opportunity) (ms : list Milestone) :
  dateMilestones r = Some ms ->
  Forall (fun m => HomeTsx.well_formed (date m) = true) ms ->
  (exists m t0, m ∈ ms /\ HomeTsx.instant m = Some t0) ->
  exists t, HomeTsx.getEarliestDeadline r = Returns (Date (Some t))
    /\ (exists m, m ∈ ms /\ HomeTsx.instant m = Some t)
    /\ (forall m t', m ∈ ms -> HomeTsx.instant m = Some t' -> t <= t').
Proof. apply home_tsx_earliest_milestone. Qed.

Lemma home_resolver_earliest_milestone_witness :
  exists t, @HomeTsx.getEarliestDeadline manila with_milestones = Returns (Date (Some t))
    /\ (exists m, m ∈ sample_milestones /\ @HomeTsx.instant manila m = Some t)
    /\ (forall m t', m ∈ sample_milestones -> @HomeTsx.instant manila m = Some t' -> t <= t').
Proof.
  apply (@home_resolver_earliest_milestone manila with_milestones sample_milestones).
  - reflexivity.
  - repeat constructor.
  - exists {| name := "Briefing"; date := VString "2025-11-20" |}, 1763596800000.
    split; [|reflexivity]. do 2 right. by left.
Defined.

(** X16.  On a record whose milestone dates the engine reads by itself (a
    non-empty string that [new Date] takes, a timestamp whose [toDate()]
    returns, a valid [Date] object) and whose [deadline] is falsy or such
    a date, the resolver of [Home.tsx] and the one built on
    [parseFlexibleDate] return the same date. *)
Theorem resolvers_agree `{Host} (r : Opportunity) :
  (forall ms m, dateMilestones r = Some ms -> m ∈ ms ->
     engine_readable (date m) = true) ->
  truthy (deadline r) = false \/ engine_readable (deadline r) = true ->
  HomeTsx.getEarliestDeadline r = getEarliestDeadline r.
Proof. apply readable_resolvers_agree. Qed.

Lemma resolvers_agree_witness :
  @HomeTsx.getEarliestDeadline manila readable_record
  = @getEarliestDeadline manila readable_record.
Proof.
  apply (@resolvers_agree manila readable_record).
  - intros ms m [= <-] Hm.
    repeat (apply elem_of_cons in Hm as [->|Hm]; [reflexivity|]).
    by apply elem_of_nil in Hm.
  - right. reflexivity.
Defined.

(** * Sorting what is sorted, and sorting what is filtered *)

Section SortAgain.
Context {A : Type}.
Variable compareFn : A -> A -> outcome Num.
Variable key : A -> Z.

Lemma insert_sorted_front x ys :
  keyed compareFn key (x :: ys) ->
  match ys with [] => True | y :: _ => key x <= key y end ->
  insert_sorted compareFn x ys = Returns (x :: ys).
Proof.
  intros Hk Hle. destruct ys as [|y ys]; [done|]. simpl.
  rewrite (Hk x y) by (by left || (right; by left)). simpl.
  assert (Hc : (key x - key y <=? 0) = true) by (apply Z.leb_le; lia).
  by rewrite Hc.
Qed.

Lemma Array_sort_of_sorted xs :
  keyed compareFn key xs ->
  StronglySorted (fun a b => key a <= key b) xs ->
  Array_sort compareFn xs = Returns xs.
Proof.
  intros Hk Hs. induction Hs as [|x xs Hs IH Hx]; [done|]. simpl.
  rewrite IH by (intros a b Ha Hb; apply Hk; by right). simpl.
  apply insert_sorted_front; [done|].
  destruct xs as [|y xs]; [done|]. by apply Forall_cons in Hx as [Hy _].
Qed.

Lemma insert_sorted_filter (f : A -> bool) x ys :
  keyed compareFn key (x :: ys) ->
  StronglySorted (fun a b => key a <= key b) ys ->
  exists r r',
    insert_sorted compareFn x ys = Returns r
    /\ insert_sorted compareFn x (List.filter f ys) = Returns r'
    /\ List.filter f r = if f x then r' else List.filter f ys.
Proof.
  intros Hk Hs. induction Hs as [|y ys Hs IH Hy].
  - exists [x], [x]. simpl. by destruct (f x).
  - assert (Hk' : keyed compareFn key (x :: ys)).
    { intros a b Ha Hb. apply Hk.
      - apply elem_of_cons in Ha as [->|Ha]; [by left | by do 2 right].
      - apply elem_of_cons in Hb as [->|Hb]; [by left | by do 2 right]. }
    destruct (IH Hk') as (r0 & r0' & Hr0 & Hr0' & Hf0).
    simpl insert_sorted at 1. rewrite (Hk x y) by (by left || (right; by left)). simpl.
    destruct (key x - key y <=? 0) eqn:Hc.
    + apply Z.leb_le in Hc.
      exists (x :: y :: ys), (x :: List.filter f (y :: ys)). split; [done|]. split.
      * apply insert_sorted_front.
        { intros a b Ha Hb. apply Hk.
          - apply elem_of_cons in Ha as [->|Ha]; [by left|].
            right. apply list_elem_of_In, filter_In in Ha as [Ha _].
            by apply list_elem_of_In.
          - apply elem_of_cons in Hb as [->|Hb]; [by left|].
            right. apply list_elem_of_In, filter_In in Hb as [Hb _].
            by apply list_elem_of_In. }
        destruct (List.filter f (y :: ys)) as [|z zs] eqn:Ez; [done|].
        assert (Hz : z ∈ y :: ys).
        { apply list_elem_of_In. apply (proj1 (filter_In f z (y :: ys))).
          rewrite Ez. by left. }
        apply elem_of_cons in Hz as [->|Hz]; [lia|].
        rewrite Forall_forall in Hy. specialize (Hy z Hz). lia.
      * simpl. by destruct (f x).
    + rewrite Hr0. simpl. simpl List.filter. destruct (f y) eqn:Efy.
      * exists (y :: r0), (y :: r0'). split; [done|]. split.
        { simpl. rewrite (Hk x y) by (by left || (right; by left)). simpl.
          by rewrite Hc, Hr0'. }
        simpl. rewrite Efy, Hf0. by destruct (f x).
      * exists (y :: r0), r0'. split; [done|]. split; [done|].
        simpl. by rewrite Efy.
Qed.

Lemma Array_sort_filter (f : A -> bool) xs :
  keyed compareFn key xs ->
  exists s s',
    Array_sort compareFn xs = Returns s
    /\ Array_sort compareFn (List.filter f xs) = Returns s'
    /\ s' = List.filter f s.
Proof.
  induction xs as [|x xs IH]; intros Hk.
  - by exists [], [].
  - destruct IH as (s & s' & Hs & Hs' & ->).
    { intros a b Ha Hb. apply Hk; by right. }
    destruct (insert_sorted_filter f x s) as (r & r' & Hr & Hr' & Hf).
    { pose proof (Array_sort_perm _ _ _ Hs) as Hp.
      intros a b Ha Hb. apply Hk.
      - apply elem_of_cons in Ha as [->|Ha]; [by left | right; by rewrite Hp].
      - apply elem_of_cons in Hb as [->|Hb]; [by left | right; by rewrite Hp]. }
    { apply (Array_sort_sorted compareFn key xs); [|done].
      intros a b Ha Hb. apply Hk; by right. }
    simpl Array_sort at 1. rewrite Hs. simpl. rewrite Hr.
    simpl List.filter. destruct (f x).
    + exists r, r'. split; [done|]. split; [|done].
      simpl. by rewrite Hs'.
    + exists r, (List.filter f s). split; [done|]. by split.
Qed.
End SortAgain.

(** X17.  Sorting twice is sorting once: when every record has the date
    the sort option orders by, sorting the sorted list by the same option
    returns it unchanged. *)
Theorem sortOpportunities_idempotent `{Host} (sortBy : string) (opps : list Opportunity) :
  (forall r, r ∈ opps -> is_Some (sort_key sortBy r)) ->
  exists sorted,
    sortOpportunities sortBy opps = Returns sorted
    /\ sortOpportunities sortBy sorted = Returns sorted.
Proof.
  intros Hkeys.
  destruct (sortOpportunities_by_rank sortBy opps Hkeys) as (sorted & Hs & Hp & Hord & _).
  exists sorted. split; [done|].
  unfold sortOpportunities. destruct (comparator sortBy) as [compareFn|] eqn:Ec; [|done].
  apply (Array_sort_of_sorted compareFn (sort_rank sortBy)); [|done].
  apply comparator_keyed; [done|]. intros r Hr. apply Hkeys. by rewrite Hp.
Qed.

Lemma sortOpportunities_idempotent_witness :
  exists sorted,
    @sortOpportunities manila "oldest" three_created = Returns sorted
    /\ @sortOpportunities manila "oldest" sorted = Returns sorted.
Proof.
  apply (@sortOpportunities_idempotent manila "oldest" three_created).
  intros r Hr. unfold three_created in Hr.
  repeat (apply elem_of_cons in Hr as [->|Hr]; [vm_compute; eauto|]).
  by apply elem_of_nil in Hr.
Defined.

(** X18.  Filtering and sorting commute: when every record of the feed
    has the date the sort option orders by, the list displayed for a
    category other than "saved" (the records filtered, then sorted) is the
    whole feed sorted, then filtered. *)
Theorem displayed_is_filtered_sorted_feed `{Host} (selectedCategory sortBy : string)
    (opportunities bookmarkedOpportunities : list Opportunity) :
  selectedCategory <> "saved" ->
  (forall r, r ∈ opportunities -> is_Some (sort_key sortBy r)) ->
  exists sortedFeed,
    sortOpportunities sortBy opportunities = Returns sortedFeed
    /\ getDisplayedOpportunities selectedCategory sortBy opportunities bookmarkedOpportunities
       = Returns (filterOpportunities selectedCategory sortedFeed).
Proof.
  intros Hsaved Hkeys. unfold getDisplayedOpportunities.
  apply String.eqb_neq in Hsaved. rewrite Hsaved. cbv zeta.
  unfold sortOpportunities, filterOpportunities.
  destruct (comparator sortBy) as [compareFn|] eqn:Ec.
  - destruct (Array_sort_filter compareFn (sort_rank sortBy) (keeps selectedCategory)
                opportunities) as (s & s' & Hs & Hs' & ->).
    { by apply comparator_keyed. }
    exists s. by rewrite Hs, Hs'.
  - by exists opportunities.
Qed.

Lemma displayed_is_filtered_sorted_feed_witness :
  exists sortedFeed,
    @sortOpportunities manila "newest" three_created = Returns sortedFeed
    /\ @getDisplayedOpportunities manila "workshops" "newest" three_created []
       = Returns (filterOpportunities "workshops" sortedFeed).
Proof.
  apply (@displayed_is_filtered_sorted_feed manila "workshops" "newest" three_created []).
  - discriminate.
  - intros r Hr. unfold three_created in Hr.
    repeat (apply elem_of_cons in Hr as [->|Hr]; [vm_compute; eauto|]).
    by apply elem_of_nil in Hr.
Defined.

(** * The upcoming deadlines *)

Section UpcomingFacts.

Lemma upcoming_by_date_keyed (deadlines : list Upcoming.UpcomingDeadline) :
  (forall d, d ∈ deadlines -> valid (Upcoming.date d) = true) ->
  keyed Upcoming.by_date Upcoming.time deadlines.
Proof.
  intros Hv a b Ha Hb.
  destruct (valid_inv _ (Hv a Ha)) as [ta Hta], (valid_inv _ (Hv b Hb)) as [tb Htb].
  unfold Upcoming.by_date, Upcoming.time. rewrite Hta, Htb. simpl.
  apply (f_equal Returns), (f_equal Fin). lia.
Qed.
End UpcomingFacts.

(** X19.  With a signed-in user, [fetchUpcomingDeadlines] leaves in the
    state the three earliest of the deadlines the service answers with
    (all of them when there are fewer), earliest first and equal dates in
    the order of the answer, provided their dates are valid; it leaves the
    empty list when the service fails. *)
Theorem upcoming_deadlines_top_three (user : option Session.User)
    (getUpcomingDeadlines : string -> Z -> outcome (list Upcoming.UpcomingDeadline))
    (upcomingDeadlines : list Upcoming.UpcomingDeadline) :
  str_truthy (user ≫= Session.uid) = true ->
  (getUpcomingDeadlines (default "" (user ≫= Session.uid)) 50 = Throws ->
   Upcoming.fetchUpcomingDeadlines user getUpcomingDeadlines upcomingDeadlines = [])
  /\ (forall deadlines,
        getUpcomingDeadlines (default "" (user ≫= Session.uid)) 50 = Returns deadlines ->
        (forall d, d ∈ deadlines -> valid (Upcoming.date d) = true) ->
        exists sorted,
          Permutation deadlines sorted
          /\ StronglySorted (fun a b => Upcoming.time a <= Upcoming.time b) sorted
          /\ (forall k, List.filter (fun d => Upcoming.time d =? k) sorted
                        = List.filter (fun d => Upcoming.time d =? k) deadlines)
          /\ Upcoming.fetchUpcomingDeadlines user getUpcomingDeadlines upcomingDeadlines
             = take 3 sorted).
Proof.
  intros Huid. unfold Upcoming.fetchUpcomingDeadlines. rewrite Huid. split.
  - by intros ->.
  - intros deadlines -> Hv. simpl.
    pose proof (upcoming_by_date_keyed deadlines Hv) as Hk.
    destruct (Array_sort_total Upcoming.by_date deadlines) as (sorted & Hs & Hp).
    { intros x y Hx Hy. by apply (keyed_no_throw _ _ _ x y Hk). }
    exists sorted. split; [done|]. split; [|split].
    + by apply (Array_sort_sorted Upcoming.by_date _ deadlines).
    + intros k. by apply (Array_sort_stable Upcoming.by_date _ k deadlines).
    + by rewrite Hs.
Qed.

Lemma upcoming_deadlines_top_three_witness :
  ((fun _ _ => Returns four_deadlines) (default "" (Some signed_in ≫= Session.uid)) 50
   = Throws ->
   Upcoming.fetchUpcomingDeadlines (Some signed_in) (fun _ _ => Returns four_deadlines) []
   = [])
  /\ (forall deadlines,
        (fun _ _ => Returns four_deadlines) (default "" (Some signed_in ≫= Session.uid)) 50
        = Returns deadlines ->
        (forall d, d ∈ deadlines -> valid (Upcoming.date d) = true) ->
        exists sorted,
          Permutation deadlines sorted
          /\ StronglySorted (fun a b => Upcoming.time a <= Upcoming.time b) sorted
          /\ (forall k, List.filter (fun d => Upcoming.time d =? k) sorted
                        = List.filter (fun d => Upcoming.time d =? k) deadlines)
          /\ Upcoming.fetchUpcomingDeadlines (Some signed_in)
               (fun _ _ => Returns four_deadlines) []
             = take 3 sorted).
Proof.
  apply (upcoming_deadlines_top_three (Some signed_in)
           (fun _ _ => Returns four_deadlines) []).
  reflexivity.
Defined.

(** The four sample deadlines: the service's third and fourth answers
    come first, the first one is dropped. *)
Example upcoming_four_deadlines :
  Upcoming.fetchUpcomingDeadlines (Some signed_in) (fun _ _ => Returns four_deadlines) []
  = [ upcoming "a" 1735689600000; upcoming "b" 1763596800000;
      upcoming "c" 1763596800000 ].
Proof. reflexivity. Qed.

(** * The greeting *)

Section Greeting.

Lemma or_else_nonempty a b : b <> "" -> Session.or_else a b <> "".
Proof.
  intros Hb. unfold Session.or_else. destruct a as [s|]; simpl; [|done].
  destruct (String.eqb s "") eqn:E; simpl; [done|]. by apply String.eqb_neq.
Qed.

Lemma span_prefix p s : string_forall p (span p s).1 = true.
Proof.
  induction s as [|c s IH]; simpl; [done|].
  destruct (p c) eqn:E; [|done]. destruct (span p s) as [a b]. simpl in *.
  by rewrite E, IH.
Qed.
End Greeting.

(** X20.  The name in the greeting is never empty; it is "there" while
    the profile loads; and when neither the profile nor the account has a
    name, it is the part of the e-mail address before the first "@" (or
    "there"), so it contains no "@". *)
Theorem getDisplayName_never_empty (profileLoading : bool)
    (profileData : option Session.ProfileData) (user : option Session.User) :
  Session.getDisplayName profileLoading profileData user <> ""
  /\ (profileLoading = true ->
      Session.getDisplayName profileLoading profileData user = "there")
  /\ (str_truthy (profileData ≫= Session.name) = false ->
      str_truthy (user ≫= Session.displayName) = false ->
      string_forall (fun c => negb (Ascii.eqb c "@"))
        (Session.getDisplayName profileLoading profileData user) = true).
Proof.
  unfold Session.getDisplayName. split; [|split].
  - destruct profileLoading; [done|]. by repeat apply or_else_nonempty.
  - by intros ->.
  - intros Hn Hd. destruct profileLoading; [reflexivity|].
    unfold Session.or_else at 1 2. rewrite Hn, Hd.
    unfold Session.or_else. destruct (user ≫= Session.email) as [e|]; simpl; [|reflexivity].
    destruct (String.eqb (Session.before_at e) ""); simpl; [reflexivity|].
    apply span_prefix.
Qed.

(** * The asynchronous resolver of [Home.tsx] *)

Section HomeAsync.
Context {host : Host}.
Variable backend : Backend.

Lemma home_from_full_data_cases r log :
  HomeTsx.getEarliestDeadlineFromFullData backend r log =
  if has_milestones r then (HomeTsx.getEarliestDeadline r, log)
  else
    match HomeTsx.request_of r with
    | None => (HomeTsx.getEarliestDeadline r, log)
    | Some call =>
        (match backend (length log) call with
         | FetchFull full =>
             match dateMilestones full with
             | Some _ => try_catch (HomeTsx.getEarliestDeadline full)
                           (HomeTsx.getEarliestDeadline r)
             | None => HomeTsx.getEarliestDeadline r
             end
         | FetchNull | FetchThrows => HomeTsx.getEarliestDeadline r
         end, log ++ [call])
    end.
Proof.
  unfold HomeTsx.getEarliestDeadlineFromFullData, HomeTsx.request_of.
  destruct (has_milestones r); [by rewrite try_catch_same|].
  destruct (str_truthy (specificCollection r) && str_truthy (id r));
    [|by rewrite try_catch_same].
  unfold getOpportunityDetails.
  destruct (backend _ _) as [full| |]; simpl; try done; try by rewrite try_catch_same.
  destruct (dateMilestones full); simpl; [done | by rewrite try_catch_same].
Qed.
End HomeAsync.

(** X21.  The asynchronous resolver of [Home.tsx] asks the backend at most
    once: for a record without milestones that has a [specificCollection]
    and an id, and then for that id in that partition; it resolves
    whenever its synchronous resolver returns on the record, whatever the
    backend answers. *)
Theorem home_async_resolver `{Host} (backend : Backend) (r : Opportunity)
    (log : list FetchCall) :
  (HomeTsx.getEarliestDeadlineFromFullData backend r log).2
  = log ++ (if has_milestones r then [] else option_list (HomeTsx.request_of r))
  /\ ((exists d, HomeTsx.getEarliestDeadline r = Returns d) ->
      exists d, (HomeTsx.getEarliestDeadlineFromFullData backend r log).1 = Returns d)
  /\ ((HomeTsx.getEarliestDeadlineFromFullData backend r log).1 = Throws ->
      HomeTsx.getEarliestDeadline r = Throws).
Proof.
  rewrite home_from_full_data_cases.
  destruct (has_milestones r).
  { simpl. rewrite app_nil_r. split; [done|]. by split. }
  destruct (HomeTsx.request_of r) as [call|].
  2:{ simpl. rewrite app_nil_r. split; [done|]. by split. }
  simpl. split; [done|].
  destruct (backend (length log) call) as [full| |]; [|by split..].
  destruct (dateMilestones full); [|by split].
  split.
  - intros Hd. by apply try_catch_returns.
  - destruct (HomeTsx.getEarliestDeadline full); [discriminate | done].
Qed.

(** X22.  The two asynchronous resolvers, on a record whose dates the
    engine reads by itself, whose category is one of the five (its
    partition is not the generic "opportunities") and whose
    [specificCollection] is the partition of that category, with a backend
    whose records have such dates as well: they make the same request and
    give the same result. *)
Theorem async_resolvers_agree `{Host} (backend : Backend) (r : Opportunity)
    (log : list FetchCall) (collection : string) :
  (forall op, op = r \/ (exists n call, backend n call = FetchFull op) ->
     (forall ms m, dateMilestones op = Some ms -> m ∈ ms ->
        engine_readable (date m) = true)
     /\ (truthy (deadline op) = false \/ engine_readable (deadline op) = true)) ->
  str_truthy (category r) = true ->
  getCollectionNameForCategory (category r) = Named collection ->
  collection <> "opportunities" ->
  specificCollection r = Some collection ->
  HomeTsx.getEarliestDeadlineFromFullData backend r log
  = getEarliestDeadlineFromFullData backend r log.
Proof.
  intros Hread Hcat Hcoll Hgeneric Hspec.
  assert (Hsame : forall op, op = r \/ (exists n call, backend n call = FetchFull op) ->
            HomeTsx.getEarliestDeadline op = getEarliestDeadline op).
  { intros op Hop. destruct (Hread op Hop) as [Hms Hdl]. by apply readable_resolvers_agree. }
  assert (Hne : collection <> "").
  { intros ->. revert Hcoll. unfold getCollectionNameForCategory.
    destruct (category r) as [c|]; [|discriminate].
    repeat match goal with
           | |- context [if ?b then _ else _] => destruct b
           end; discriminate. }
  rewrite home_from_full_data_cases.
  destruct (has_milestones r) eqn:Hm.
  { rewrite from_full_data_delegates by done. by rewrite (Hsame r) by (by left). }
  rewrite from_full_data_cases by done.
  unfold HomeTsx.request_of, request_of. rewrite Hcat, Hcoll, Hspec. cbv zeta.
  assert (Hsc : str_truthy (Some collection) = true).
  { simpl. apply String.eqb_neq in Hne. by rewrite Hne. }
  rewrite Hsc. simpl is_generic.
  apply String.eqb_neq in Hgeneric. rewrite Hgeneric. simpl negb.
  destruct (id r) as [i|] eqn:Hi; simpl; [|by rewrite (Hsame r) by (by left)].
  rewrite andb_true_r. unfold nonempty.
  destruct (String.eqb i "") eqn:Ei; simpl;
    [by rewrite (Hsame r) by (by left)|].
  destruct (backend (length log) _) as [full| |] eqn:Hb;
    [|by rewrite (Hsame r) by (by left)..].
  rewrite (Hsame r) by (by left).
  rewrite (Hsame full) by (right; eauto). done.
Qed.

Lemma async_resolvers_agree_witness :
  @HomeTsx.getEarliestDeadlineFromFullData manila (fun _ _ => FetchFull full_record)
    study_spot []
  = @getEarliestDeadlineFromFullData manila (fun _ _ => FetchFull full_record)
      study_spot [].
Proof.
  apply (@async_resolvers_agree manila (fun _ _ => FetchFull full_record)
           study_spot [] "studySpots"); try reflexivity; try discriminate.
  intros op [-> | (n & call & [= <-])].
  - split; [intros ms m Hms; discriminate Hms | by left].
  - split; [|by left]. intros ms m [= <-] Hm.
    repeat (apply elem_of_cons in Hm as [->|Hm]; [reflexivity|]).
    by apply elem_of_nil in Hm.
Defined.

(** * The resources that the feed leaves out *)

Section Resources.

Lemma isResource_isNotResource op : isResource op = negb (isNotResource op).
Proof.
  unfold isResource, isNotResource.
  by destruct (String.eqb _ "resources"), (String.eqb _ "resource"),
    (bool_decide (type op = Some "resources")), (bool_decide (type op = Some "resource")).
Qed.

Lemma filter_partition {B} (f : B -> bool) l :
  Permutation l (List.filter f l ++ List.filter (fun x => negb (f x)) l).
Proof.
  induction l as [|x l IH]; simpl; [done|].
  destruct (f x); simpl; [by constructor|].
  rewrite <- Permutation_middle. by constructor.
Qed.
End Resources.

(** X23.  The records that [fetchOpportunities] counts as resources and
    the records that pass the resources rule of [filterOpportunities]
    split the data: no record of a category view is among those counted,
    and a view has at most as many records as were not counted. *)
Theorem counted_resources_are_left_out (selectedCategory : string)
    (data : list Opportunity) :
  Permutation data (resourceOpps data ++ List.filter isNotResource data)
  /\ (forall r, r ∈ filterOpportunities selectedCategory data -> r ∉ resourceOpps data)
  /\ (length (filterOpportunities selectedCategory data) + length (resourceOpps data)
      <= length data)%nat.
Proof.
  assert (Hsplit : Permutation data (resourceOpps data ++ List.filter isNotResource data)).
  { unfold resourceOpps.
    rewrite (List.filter_ext isNotResource (fun x => negb (isResource x))).
    - apply filter_partition.
    - intros op. rewrite isResource_isNotResource. by destruct (isNotResource op). }
  split; [done|]. split.
  - intros r Hr Hc. apply elem_of_filterOpportunities in Hr as [_ Hk].
    unfold resourceOpps in Hc. apply list_elem_of_In, filter_In in Hc as [_ Hc].
    rewrite isResource_isNotResource in Hc. unfold keeps in Hk.
    destruct (isNotResource r); [discriminate Hc | discriminate Hk].
  - pose proof (Permutation_length Hsplit) as Hl. rewrite length_app in Hl.
    assert (Hle : forall l, (length (filterOpportunities selectedCategory l)
                             <= length (List.filter isNotResource l))%nat).
    { unfold filterOpportunities. induction l as [|x l IH]; simpl; [lia|].
      unfold keeps at 1.
      destruct (isNotResource x); simpl; [|lia].
      destruct (matchesCategory selectedCategory x && isOpportunityOrganizationVerified x);
        simpl; lia. }
    specialize (Hle data). lia.
Qed.

(** * The parser of [Home.tsx] *)


(** * The order of the view and the dates on the cards *)

(** X25.  The "deadline-soon" order is computed from the records of the
    feed, the dates on the cards come from the cache of the enrichment.
    When the backend has no milestones to add, every record resolves to a
    valid date and the ids are all different, the two agree: the cards of
    the sorted view carry dates in ascending order. *)
Theorem deadline_order_matches_cards `{Host} (backend : Backend) (opps : list Opportunity) :
  (forall n call full, backend n call = FetchFull full -> dateMilestones full = None) ->
  (forall r, r ∈ opps -> is_Some (deadline_time r)) ->
  NoDup (map id opps) ->
  exists cache sorted,
    deadlineMap <$> fetchOpportunityDeadlines backend opps = Some (Returns cache)
    /\ sortOpportunities "deadline-soon" opps = Returns sorted
    /\ StronglySorted (fun a b => card_time cache a <= card_time cache b) sorted.
Proof.
  intros Hb Hvalid Hnd.
  destruct (enrichment_preview_cache backend opps Hb) as (cache & Hcache & Hcards);
    [|done|].
  { intros r Hr. destruct (Hvalid r Hr) as [t Ht]. unfold deadline_time in Ht.
    destruct (getEarliestDeadline r) as [d|] eqn:E; [by exists d | discriminate]. }
  destruct (sortOpportunities_by_rank "deadline-soon" opps) as (sorted & Hs & Hp & Hord & _).
  { intros r Hr. exact (Hvalid r Hr). }
  exists cache, sorted. split; [done|]. split; [done|].
  eapply StronglySorted_weaken; [|exact Hord].
  assert (Hrank : forall r, r ∈ sorted ->
            card_time cache r = sort_rank "deadline-soon" r).
  { intros r Hr. rewrite <- Hp in Hr. destruct (Hcards r Hr) as [_ Hcard].
    unfold card_time, sort_rank, sort_key, deadline_time. simpl.
    rewrite Hcard. unfold cardDeadline. rewrite lookup_empty.
    by destruct (getEarliestDeadline r). }
  intros a b Ha Hb'. by rewrite (Hrank a Ha), (Hrank b Hb').
Qed.

Lemma deadline_order_matches_cards_witness :
  exists cache sorted,
    deadlineMap <$> @fetchOpportunityDeadlines manila (fun _ _ => FetchNull) twelve
    = Some (Returns cache)
    /\ @sortOpportunities manila "deadline-soon" twelve = Returns sorted
    /\ StronglySorted
         (fun a b => @card_time manila cache a <= @card_time manila cache b) sorted.
Proof.
  apply (@deadline_order_matches_cards manila (fun _ _ => FetchNull) twelve).
  - intros n call full Hf. discriminate Hf.
  - intros r Hr. unfold twelve in Hr. apply list_elem_of_fmap in Hr as (i & -> & _).
    by eexists.
  - apply (bool_decide_unpack _). vm_compute. reflexivity.
Defined.

(** With a backend that knows milestones for one record, the agreement is
    lost: the older workshop comes first in the "deadline-soon" view, by
    the thirty days after its creation, and its card carries the later
    date, that of the milestone the backend knows. *)
Example deadline_order_and_cards_differ :
  @sortOpportunities manila "deadline-soon" [newer_workshop; older_workshop]
  = Returns [older_workshop; newer_workshop]
  /\ exists cache,
       deadlineMap <$> @fetchOpportunityDeadlines manila knows_older
                         [newer_workshop; older_workshop]
       = Some (Returns cache)
       /\ @card_time manila cache older_workshop = 1763596800000
       /\ @card_time manila cache newer_workshop = 1735689600000 + thirty_days.
Proof.
  split; [reflexivity|]. eexists. split; [reflexivity|]. split; reflexivity.
Qed.

(** * The batches of the enrichment, whatever its outcome *)

Section Batches.
Context {host : Host}.
Variable backend : Backend.

Lemma fetch_loop_batches opps fuel : forall i cache log done e,
  fetch_loop fuel backend opps i cache log done = Some e ->
  (exists n, batches e = done ++ take n (chunks batchSize (drop i opps)))
  /\ (deadlineMap e <> Throws -> batches e = done ++ chunks batchSize (drop i opps)).
Proof.
  induction fuel as [|fuel IH]; intros i cache log done e; [discriminate|].
  simpl fetch_loop. destruct (i <? length opps)%nat eqn:Hi.
  - apply Nat.ltb_lt in Hi. rewrite slice_batch.
    destruct (drop i opps) as [|x rest] eqn:Hdrop.
    { apply (f_equal length) in Hdrop. rewrite length_drop in Hdrop. simpl in Hdrop. lia. }
    assert (Hnext : drop (i + batchSize) opps = drop batchSize (x :: rest))
      by (by rewrite <- Hdrop, drop_drop).
    rewrite (chunks_cons batchSize x rest) by (unfold batchSize; lia).
    destruct (Promise_all_map (deadline_entry backend) (take batchSize (x :: rest)) log)
      as [[rs|] log'].
    + intros He. apply IH in He as [[n Hn] Hall]. rewrite Hnext in Hn, Hall. split.
      * exists (S n). by rewrite Hn, <- app_assoc.
      * intros Hok. by rewrite (Hall Hok), <- app_assoc.
    + intros [= <-]. simpl. split; [by exists 1%nat | done].
  - apply Nat.ltb_ge in Hi. intros [= <-]. simpl.
    rewrite drop_ge by done. rewrite chunks_nil.
    split; [exists 0%nat|]; by rewrite app_nil_r.
Qed.

Lemma chunk_size {B} (l : list B) (b : list B) :
  b ∈ chunks batchSize l -> (0 < length b <= batchSize)%nat.
Proof.
  intros Hb. apply list_elem_of_lookup in Hb as [j Hj].
  pose proof (lookup_lt_Some _ _ _ Hj) as Hlt.
  rewrite chunks_length in Hlt by (unfold batchSize; lia).
  assert (Hjl : (j * batchSize < length l)%nat).
  { unfold batchSize in *. revert Hlt. generalize (length l). intros n Hlt.
    assert (H5 : (5 <> 0)%nat) by lia.
    pose proof (Nat.div_mod (n + 5 - 1) 5 H5) as Hd.
    pose proof (Nat.mod_upper_bound (n + 5 - 1) 5 H5) as Hm. lia. }
  rewrite chunks_lookup in Hj by (done || unfold batchSize; lia).
  injection Hj as <-. rewrite length_take, length_drop. unfold batchSize in *. lia.
Qed.
End Batches.

(** X26.  Whatever the backend answers and whether the enrichment rejects
    or not, the batches it processes are the first consecutive batches of
    the records: each has one to five records, none is skipped or taken
    twice (their concatenation is a prefix of the records), and when the
    enrichment does not reject every record is in a batch. *)
Theorem enrichment_batches `{Host} (backend : Backend) (opps : list Opportunity) :
  exists e,
    fetchOpportunityDeadlines backend opps = Some e
    /\ (exists n, batches e = take n (chunks batchSize opps))
    /\ Forall (fun batch => (0 < length batch <= 5)%nat) (batches e)
    /\ concat (batches e) `prefix_of` opps
    /\ (deadlineMap e <> Throws -> concat (batches e) = opps).
Proof.
  destruct (fetchOpportunityDeadlines_ends backend opps) as [e He].
  exists e. split; [done|].
  destruct (fetch_loop_batches backend opps _ _ _ _ _ e He) as [[n Hn] Hall].
  rewrite drop_0 in Hn, Hall. simpl in Hn, Hall.
  split; [by exists n|]. split; [|split].
  - rewrite Hn. apply Forall_forall. intros b Hb.
    apply elem_of_take in Hb as (j & Hj & _). apply list_elem_of_lookup_2 in Hj.
    by apply chunk_size in Hj.
  - rewrite Hn. exists (concat (drop n (chunks batchSize opps))).
    rewrite <- concat_app, take_drop.
    symmetry. apply chunks_concat. unfold batchSize. lia.
  - intros Hok. rewrite (Hall Hok). apply chunks_concat. unfold batchSize. lia.
Qed.

(** * Months that are not in the table, and the two midnights *)

Section MoreDateStrings.
Context {host : Host}.

Lemma match_iso_prefix_shape s r :
  match_iso_prefix s = Some r ->
  exists y1 y2 y3 y4 rest,
    s = String y1 (String y2 (String y3 (String y4 (String "-" rest))))
    /\ forallb is_digit [y1; y2; y3; y4] = true.
Proof.
  destruct s as [|y1 [|y2 [|y3 [|y4 [|c rest]]]]]; try discriminate.
  unfold match_iso_prefix.
  destruct c as [[] [] [] [] [] [] [] []]; try discriminate.
  destruct rest as [|m1 [|m2 [|c2 [|d1 [|d2 rest]]]]]; try discriminate;
    try (destruct c2 as [[] [] [] [] [] [] [] []]; discriminate).
  destruct c2 as [[] [] [] [] [] [] [] []]; try discriminate.
  destruct (forallb is_digit [y1; y2; y3; y4; m1; m2; d1; d2]) eqn:E; [|discriminate].
  intros _. exists y1, y2, y3, y4. eexists. split; [reflexivity|].
  simpl in *. repeat (apply andb_true_iff in E as [? E]).
  repeat match goal with
         | H : is_digit _ = true |- _ => rewrite H; clear H
         end.
  reflexivity.
Qed.

Lemma word_then_space_not_iso monthStr rest :
  string_forall is_word monthStr = true ->
  match_iso_prefix (String.append monthStr (String.append " " rest)) = None.
Proof.
  intros Hw.
  destruct (match_iso_prefix _) as [r|] eqn:E; [exfalso | done].
  apply match_iso_prefix_shape in E as (y1 & y2 & y3 & y4 & rest' & Hs & Hd).
  pose proof (span_append is_word monthStr (String.append " " rest) Hw eq_refl) as H1.
  rewrite Hs in H1. simpl in Hd.
  repeat (apply andb_true_iff in Hd as [?%digit_is_word Hd]).
  simpl in H1.
  repeat match goal with
         | H : is_word ?c = true |- _ => rewrite H in H1; clear H
         end.
  simpl in H1. rewrite append_cons, append_empty in H1. discriminate H1.
Qed.

Lemma MakeDate_in_range y m d :
  0 <= y <= 9999 -> 0 <= m <= 11 -> 0 <= d <= 99 ->
  Z.abs (MakeDate (MakeDay y m d) 0) <= maxTime.
Proof.
  intros Hy Hm Hd. unfold MakeDate, MakeDay, DayFromYear, msPerDay, maxTime. cbv zeta.
  rewrite (Z.div_small m 12), (Z.mod_small m 12) by lia.
  rewrite !Z.add_0_r.
  assert (Hms : 0 <= monthStart m (InLeapYear y) <= 335).
  { assert (m = 0 \/ m = 1 \/ m = 2 \/ m = 3 \/ m = 4 \/ m = 5 \/ m = 6 \/ m = 7
            \/ m = 8 \/ m = 9 \/ m = 10 \/ m = 11) as Hc by lia.
    destruct (InLeapYear y);
      repeat (destruct Hc as [->|Hc]; [simpl; lia|]); subst; simpl; lia. }
  assert (-5 <= (y - 1601) / 400 <= 30) by (Z.div_mod_to_equations; lia).
  assert (-500 <= (y - 1969) / 4 <= 2100) by (Z.div_mod_to_equations; lia).
  assert (-20 <= (y - 1901) / 100 <= 100) by (Z.div_mod_to_equations; lia).
  lia.
Qed.

(** A calendar date in the date-only form of the Date Time String Format
    is midnight UTC of that day, in every time zone and on every
    engine. *)
Lemma iso_date_only_parses year month day :
  string_forall is_digit year = true -> String.length year = 4%nat ->
  string_forall is_digit month = true -> String.length month = 2%nat ->
  string_forall is_digit day = true -> String.length day = 2%nat ->
  1 <= parseInt month <= 12 ->
  1 <= parseInt day <= DaysInMonth (parseInt month - 1) (InLeapYear (parseInt year)) ->
  parseFlexibleDate (VString (iso_prefixed year month day ""))
  = Some (Date (Some (MakeDate (MakeDay (parseInt year) (parseInt month - 1)
                                  (parseInt day)) 0))).
Proof.
  intros Hyear Hyl Hmonth Hml Hday Hdl Hm Hd.
  pose proof (parseInt_four year Hyear Hyl) as Hy.
  pose proof (parseInt_two day Hday (or_intror Hdl)) as Hd99.
  assert (Hparse : parse_iso_date_only (iso_prefixed year month day "")
                   = Some (MakeDate (MakeDay (parseInt year) (parseInt month - 1)
                                       (parseInt day)) 0)).
  { destruct year as [|y1 [|y2 [|y3 [|y4 [|? ?]]]]]; try discriminate.
    destruct month as [|m1 [|m2 [|? ?]]]; try discriminate.
    destruct day as [|d1 [|d2 [|? ?]]]; try discriminate.
    simpl in Hyear, Hmonth, Hday.
    repeat match goal with
           | H : _ && _ = true |- _ => apply andb_true_iff in H as [? H]
           end.
    unfold iso_prefixed, parse_iso_date_only.
    repeat first [rewrite append_cons | rewrite append_empty].
    simpl forallb.
    repeat match goal with
           | H : is_digit _ = true |- _ => rewrite H; clear H
           end.
    cbv zeta. cbn [andb].
    assert (Hc : (1 <=? parseInt (String m1 (String m2 "")))
                 && (parseInt (String m1 (String m2 "")) <=? 12)
                 && (1 <=? parseInt (String d1 (String d2 "")))
                 && (parseInt (String d1 (String d2 ""))
                     <=? DaysInMonth (parseInt (String m1 (String m2 "")) - 1)
                           (InLeapYear
                              (parseInt (String y1 (String y2 (String y3 (String y4 ""))))))) = true).
    { repeat (apply andb_true_intro; split); apply Z.leb_le; lia. }
    by rewrite Hc. }
  unfold parseFlexibleDate.
  assert (Ht : truthy (VString (iso_prefixed year month day "")) = true).
  { destruct year; [discriminate | reflexivity]. }
  rewrite Ht. cbn [negb]. cbv zeta.
  unfold new_Date_string, Date_parse. rewrite Hparse. unfold TimeClip.
  assert (Hr : (Z.abs (MakeDate (MakeDay (parseInt year) (parseInt month - 1)
                                   (parseInt day)) 0) <=? maxTime) = true).
  { apply Z.leb_le. apply MakeDate_in_range; lia. }
  by rewrite Hr.
Qed.
End MoreDateStrings.

(** X27.  A string of the form "Month DD, YYYY" whose first word is not a
    month of the table (under any letter case), and that the engine's own
    parser does not take, is not a date for [parseFlexibleDate]: "Sept 5,
    2025" gives [null]. *)
Theorem unknown_month_rejected `{Host} (monthStr day year : string) (comma : bool) :
  string_forall is_word monthStr = true -> monthStr <> "" ->
  monthNames (toLowerCase monthStr) = None ->
  string_forall is_digit day = true ->
  (String.length day = 1 \/ String.length day = 2)%nat ->
  string_forall is_digit year = true -> String.length year = 4%nat ->
  valid (new_Date_string (month_day_year monthStr day year comma)) = false ->
  parseFlexibleDate (VString (month_day_year monthStr day year comma)) = None.
Proof.
  intros Hw Hne Hmonth Hday Hdl Hyear Hyl Hengine.
  unfold parseFlexibleDate.
  assert (Ht : truthy (VString (month_day_year monthStr day year comma)) = true).
  { destruct monthStr; [done | reflexivity]. }
  rewrite Ht. cbn [negb]. cbv zeta. rewrite Hengine.
  unfold parse_month_name_form.
  rewrite match_month_day_year_parts by done. rewrite Hmonth.
  unfold parse_iso_form, month_day_year.
  by rewrite word_then_space_not_iso.
Qed.

Lemma unknown_month_rejected_witness :
  @parseFlexibleDate manila (VString (month_day_year "Sept" "5" "2025" true)) = None.
Proof.
  apply (@unknown_month_rejected manila "Sept" "5" "2025" true);
    first [reflexivity | discriminate | by left].
Defined.

(** X28.  The two spellings of a calendar day do not name the same
    instant.  "YYYY-MM-DD" is midnight UTC of the day, in every zone and
    on every engine; "Month DD, YYYY", when the engine's own parser does
    not take it, is local midnight of the day: the second is the first
    less the offset of the local zone from UTC. *)
Theorem iso_and_textual_differ_by_offset `{Host}
    (monthStr day year month2 day2 : string) (comma : bool) (month : Z) :
  - msPerDay < LocalTZA < msPerDay ->
  monthNames (toLowerCase monthStr) = Some month ->
  string_forall is_digit day = true ->
  (String.length day = 1 \/ String.length day = 2)%nat ->
  string_forall is_digit year = true -> String.length year = 4%nat ->
  string_forall is_digit month2 = true -> String.length month2 = 2%nat ->
  string_forall is_digit day2 = true -> String.length day2 = 2%nat ->
  parseInt month2 = month + 1 -> parseInt day2 = parseInt day ->
  1 <= parseInt day <= DaysInMonth month (InLeapYear (parseInt year)) ->
  100 <= parseInt year ->
  valid (new_Date_string (month_day_year monthStr day year comma)) = false ->
  exists t,
    parseFlexibleDate (VString (iso_prefixed year month2 day2 "")) = Some (Date (Some t))
    /\ t = MakeDate (MakeDay (parseInt year) month (parseInt day)) 0
    /\ parseFlexibleDate (VString (month_day_year monthStr day year comma))
       = Some (Date (Some (t - LocalTZA))).
Proof.
  intros Htz Hmonth Hday Hdl Hyear Hyl Hm2 Hm2l Hd2 Hd2l Hmeq Hdeq Hcal Hy100 Hengine.
  destruct (monthNames_key _ _ Hmonth) as (_ & _ & Hrange).
  eexists. split; [|split].
  - apply iso_date_only_parses; try done; [lia|].
    rewrite Hmeq, Hdeq. by replace (month + 1 - 1) with month by lia.
  - rewrite Hmeq, Hdeq. by replace (month + 1 - 1) with month by lia.
  - rewrite (month_name_form_parses monthStr day year comma month) by done.
    assert (Hc : (0 <=? parseInt year) && (parseInt year <=? 99) = false).
    { apply andb_false_iff. right. apply Z.leb_gt. lia. }
    rewrite Hc, Hmeq, Hdeq. by replace (month + 1 - 1) with month by lia.
Qed.

Lemma iso_and_textual_differ_by_offset_witness :
  exists t,
    @parseFlexibleDate new_york (VString (iso_prefixed "2025" "11" "18" ""))
    = Some (Date (Some t))
    /\ t = MakeDate (MakeDay (parseInt "2025") 10 (parseInt "18")) 0
    /\ @parseFlexibleDate new_york (VString (month_day_year "Nov" "18" "2025" true))
       = Some (Date (Some (t - @LocalTZA new_york))).
Proof.
  apply (@iso_and_textual_differ_by_offset new_york "Nov" "18" "2025" "11" "18" true 10);
    first [reflexivity | by right | (vm_compute; split; reflexivity)
          | (vm_compute; split; discriminate) | (vm_compute; discriminate)].
Defined.
